(** * Registry validator: a shallow embedding of [scripts/validate_registry.py]

    The development follows the script top-down in reverse: the regular
    expressions and the small fragment of [re] they need, the JSON values
    that [json.loads] produces, the dynamically typed operations the script
    applies to them, then [validate_release], [validate_package_file] and
    [main].

    Conventions.
    - A Python [str] is a [string]; its characters are code points below
      256.  On that range the class [\d] of a [str] pattern is exactly
      [0-9].
    - [fail(message)] prints and calls [sys.exit(1)]: it is the outcome
      [Exit f], where [f] records which call of [fail] ran and with which
      arguments.  An uncaught Python exception is the outcome [Raise e].
    - The spec calls the keys ["schema-version"], ["compiler-drop"] and
      ["tested-on"] of the script [schemaVersion], [compilerDrop] and
      [testedOn]; the embedding keeps the script's spelling. *)

From Stdlib Require Import ZArith Ascii String List Bool Lia.
From Stdlib Require Import Floats.SpecFloat.
From stdpp Require Import base option list strings gmap sorting.

Local Open Scope string_scope.

(** ** Regular expressions *)

Module Re.

(** The constructs the six patterns of the script use. *)
Inductive regex : Type :=
| Bol                                         (* ^ *)
| Eol                                         (* $ *)
| Lit (c : ascii)                             (* one literal character *)
| Cls (p : ascii -> bool)                     (* a character class *)
| Seq (r1 r2 : regex)
| Rep (lo : nat) (hi : option nat) (r : regex) (* greedy r{lo,hi} *)
| Grp (i : nat) (r : regex).                  (* capturing group i *)

Definition captures := list (nat * list ascii).

(** A continuation receives the position reached, the input left and the
    groups captured so far. *)
Definition cont := nat -> list ascii -> captures -> option captures.

Definition below (n : nat) (hi : option nat) : bool :=
  match hi with
  | None => true
  | Some h => (n <? h)%nat
  end.

(** Greedy repetition: one more iteration first, the continuation when
    that fails and [lo] iterations are done.  An iteration that consumes
    nothing is not repeated, so [length s] steps of fuel are enough. *)
Fixpoint rep (step : nat -> list ascii -> captures -> cont -> option captures)
    (lo : nat) (hi : option nat) (fuel n pos : nat) (s : list ascii)
    (cs : captures) (k : cont) : option captures :=
  let stop := if (lo <=? n)%nat then k pos s cs else None in
  match fuel with
  | O => stop
  | S fuel' =>
      if below n hi then
        match step pos s cs (fun pos' s' cs' =>
                if (pos <? pos')%nat
                then rep step lo hi fuel' (S n) pos' s' cs' k
                else None) with
        | Some r => Some r
        | None => stop
        end
      else stop
  end.

(** The backtracking matcher of [re], in continuation-passing style. *)
Fixpoint bt (r : regex) (pos : nat) (s : list ascii) (cs : captures)
    (k : cont) {struct r} : option captures :=
  match r with
  | Bol => if (pos =? 0)%nat then k pos s cs else None
  | Eol =>
      match s with
      | [] => k pos s cs
      | [c] => if Ascii.eqb c "010" then k pos s cs else None
      | _ => None
      end
  | Lit c =>
      match s with
      | x :: s' => if Ascii.eqb x c then k (S pos) s' cs else None
      | [] => None
      end
  | Cls p =>
      match s with
      | x :: s' => if p x then k (S pos) s' cs else None
      | [] => None
      end
  | Seq r1 r2 => bt r1 pos s cs (fun pos' s' cs' => bt r2 pos' s' cs' k)
  | Rep lo hi r' => rep (bt r') lo hi (length s) 0 pos s cs k
  | Grp i r' =>
      bt r' pos s cs
        (fun pos' s' cs' => k pos' s' ((i, take (pos' - pos) s) :: cs'))
  end.

(** [pattern.match(s)]: the pattern is tried at the start of [s] only and
    need not reach its end. *)
Definition re_match (r : regex) (s : string) : option captures :=
  bt r 0 (list_ascii_of_string s) [] (fun _ _ cs => Some cs).

(** [m.group(i)]: the last capture of group [i]. *)
Fixpoint group (i : nat) (cs : captures) : string :=
  match cs with
  | [] => ""
  | (j, t) :: cs' => if (i =? j)%nat then string_of_list_ascii t else group i cs'
  end.

(** *** Character classes *)

Definition between (lo hi c : ascii) : bool :=
  (N_of_ascii lo <=? N_of_ascii c)%N && (N_of_ascii c <=? N_of_ascii hi)%N.

Definition digit (c : ascii) : bool := between "0" "9" c.
Definition lower (c : ascii) : bool := between "a" "z" c.
Definition upper (c : ascii) : bool := between "A" "Z" c.
Definition hex (c : ascii) : bool :=
  between "a" "f" c || between "A" "F" c || digit c.
Definition name_first (c : ascii) : bool := lower c || digit c.
Definition name_rest (c : ascii) : bool :=
  lower c || digit c || Ascii.eqb c "." || Ascii.eqb c "_" || Ascii.eqb c "-".
Definition prerelease (c : ascii) : bool :=
  lower c || upper c || digit c || Ascii.eqb c ".".
Definition not_slash (c : ascii) : bool := negb (Ascii.eqb c "/").

(** *** Abbreviations *)

Definition exactly (n : nat) (r : regex) : regex := Rep n (Some n) r.
Definition plus (r : regex) : regex := Rep 1 None r.
Definition opt (r : regex) : regex := Rep 0 (Some 1) r.

Fixpoint seqs (rs : list regex) : regex :=
  match rs with
  | [] => Rep 0 (Some 0) Bol
  | [r] => r
  | r :: rs' => Seq r (seqs rs')
  end.

Definition lits (s : string) : regex :=
  seqs (map Lit (list_ascii_of_string s)).

End Re.

Import Re.

(** The patterns of the script, lines 14-19. *)

(* ^\d{4}-\d{2}-\d{2}$ *)
Definition DATE_RE : regex :=
  seqs [Bol; exactly 4 (Cls digit); Lit "-"; exactly 2 (Cls digit); Lit "-";
        exactly 2 (Cls digit); Eol].

(* ^[a-fA-F0-9]{64}$ *)
Definition SHA256_RE : regex := seqs [Bol; exactly 64 (Cls hex); Eol].

(* ^[a-fA-F0-9]{40}$ *)
Definition COMMIT_RE : regex := seqs [Bol; exactly 40 (Cls hex); Eol].

(* ^[a-z0-9][a-z0-9._-]{1,62}$ *)
Definition NAME_RE : regex :=
  seqs [Bol; Cls name_first; Rep 1 (Some 62) (Cls name_rest); Eol].

(* ^[0-9]+\.[0-9]+\.[0-9]+(-[a-zA-Z0-9.]+)?$ *)
Definition VERSION_RE : regex :=
  seqs [Bol; plus (Cls digit); Lit "."; plus (Cls digit); Lit ".";
        plus (Cls digit);
        opt (Grp 1 (Seq (Lit "-") (plus (Cls prerelease)))); Eol].

(* ^https://github\.com/([^/]+)/([^/]+)/?$ *)
Definition GITHUB_REPO_RE : regex :=
  seqs [Bol; lits "https://github.com/"; Grp 1 (plus (Cls not_slash));
        Lit "/"; Grp 2 (plus (Cls not_slash)); opt (Lit "/"); Eol].

(** ** JSON values *)

(** What [json.loads] returns: [None], [bool], [int], [float], [str], [list]
    and [dict] with string keys. *)
#[warnings="-register-all"]
Inductive json : Type :=
| JNull
| JBool (b : bool)
| JInt (n : Z)
| JFloat (f : spec_float)
| JStr (s : string)
| JArr (l : list json)
| JObj (d : gmap string json).

(** ** Outcomes *)

(** One constructor per call of [fail] in the script, with the arguments of
    its message. *)
Inductive failure : Type :=
| MissingReleaseField (pkg : string) (idx : nat) (key : string)
    (* line 54: release[idx] missing 'key' *)
| InvalidVersion (pkg : string) (idx : nat)
    (* line 58: release[idx].version must be semver *)
| DuplicateVersion (pkg : string) (version : json)
    (* line 60: duplicate release version: version *)
| InvalidReleasedAt (pkg : string) (idx : nat)
    (* line 65: release[idx].releasedAt must be YYYY-MM-DD *)
| CompilerDropNotObject (pkg : string) (idx : nat)
    (* line 69: release[idx].compiler-drop must be an object *)
| InvalidMin (pkg : string) (idx : nat)
    (* line 75: release[idx].compiler-drop.min must be >= 1 *)
| InvalidTestedOn (pkg : string) (idx : nat)
    (* line 78: release[idx].compiler-drop.tested-on must be an integer >= 1 *)
| InvalidRange (pkg : string) (idx : nat)
    (* line 80: release[idx].compiler-drop.tested-on must be >= min *)
| SourceNotObject (pkg : string) (idx : nat)
    (* line 84: release[idx].source must be an object *)
| InvalidCommit (pkg : string) (idx : nat)
    (* line 90: release[idx].source.commit must be a 40-char hex string *)
| InvalidSha256 (pkg : string) (idx : nat)
    (* line 92: release[idx].source.sha256 must be a 64-char hex string *)
| MalformedInput (pkg : string)
    (* line 102: invalid JSON *)
| RootNotObject (pkg : string)
    (* line 105: root must be a JSON object *)
| MissingField (pkg : string) (key : string)
    (* line 110: missing 'key' *)
| NameMismatch (pkg : string) (name : json)
    (* line 114: name field 'name' does not match filename *)
| InvalidSchemaVersion (pkg : string)
    (* line 118: schema-version must be >= 1 *)
| InvalidCreatedAt (pkg : string)
    (* line 122: createdAt must be YYYY-MM-DD *)
| RepositoryNotString (pkg : string)
    (* line 126: repository must be a string *)
| InvalidRepository (pkg : string)
    (* line 129: repository must be a GitHub URL like ... *)
| InvalidReleases (pkg : string)
    (* line 136: releases must be a non-empty array *)
| ReleaseNotObject (pkg : string) (idx : nat)
    (* line 141: release[idx] must be an object *)
| LookupFailedStatus (pkg : string) (code : Z) (owner repo : string)
    (* line 151: GitHub repo lookup failed (code) for owner/repo *)
| LookupFailed (pkg : string)
    (* line 153: GitHub repo lookup failed: err *)
| LicenseRejected (pkg : string) (detected : json)
    (* line 158: license must be MIT (detected: detected) *)
| PackagesDirNotFound
    (* line 166: packages directory not found *)
| EmptyRegistry
    (* line 170: no package files found under packages/ *)
| InvalidFilename (file : list string)
    (* line 176: invalid package filename: file *)
| DuplicatePackage (pkg : string).
    (* line 178: duplicate package detected by filename: pkg *)

(** The exceptions the operations of the script can raise on a JSON value
    of the wrong type. *)
Inductive pyexn : Type := TypeError | AttributeError | KeyError.

Inductive outcome (A : Type) : Type :=
| Ret (a : A)
| Exit (f : failure)
| Raise (e : pyexn).
Arguments Ret {A} a.
Arguments Exit {A} f.
Arguments Raise {A} e.

(** ** Python operations on JSON values *)

Module Py.

(** [isinstance(v, T)].  [bool] is a subclass of [int]. *)
Definition is_str (v : json) : bool :=
  match v with JStr _ => true | _ => false end.
Definition is_int (v : json) : bool :=
  match v with JInt _ | JBool _ => true | _ => false end.
Definition is_dict (v : json) : bool :=
  match v with JObj _ => true | _ => false end.
Definition is_list (v : json) : bool :=
  match v with JArr _ => true | _ => false end.

(** [key in v] for a string [key]. *)
Fixpoint prefix_of (p s : list ascii) : bool :=
  match p, s with
  | [], _ => true
  | _ :: _, [] => false
  | a :: p', b :: s' => Ascii.eqb a b && prefix_of p' s'
  end.

Fixpoint infix_of (p s : list ascii) : bool :=
  prefix_of p s ||
  match s with
  | [] => false
  | _ :: s' => infix_of p s'
  end.

Definition eq_str (v : json) (s : string) : bool :=
  match v with JStr t => String.eqb t s | _ => false end.

Definition contains (key : string) (v : json) : outcome bool :=
  match v with
  | JObj d => Ret (bool_decide (is_Some (d !! key)))
  | JArr l => Ret (existsb (fun x => eq_str x key) l)
  | JStr s =>
      Ret (infix_of (list_ascii_of_string key) (list_ascii_of_string s))
  | _ => Raise TypeError
  end.

(** [v[key]] for a string [key]. *)
Definition getitem (v : json) (key : string) : outcome json :=
  match v with
  | JObj d =>
      match d !! key with
      | Some x => Ret x
      | None => Raise KeyError
      end
  | _ => Raise TypeError
  end.

(** [v.get(key)]. *)
Definition get (v : json) (key : string) : outcome json :=
  match v with
  | JObj d => Ret (default JNull (d !! key))
  | _ => Raise AttributeError
  end.

(** [len(v)]. *)
Definition len (v : json) : outcome nat :=
  match v with
  | JArr l => Ret (length l)
  | JStr s => Ret (String.length s)
  | JObj d => Ret (size d)
  | _ => Raise TypeError
  end.

(** Truth value of [v]. *)
Definition truthy (v : json) : bool :=
  match v with
  | JNull => false
  | JBool b => b
  | JInt n => negb (n =? 0)%Z
  | JFloat (S754_zero _) => false
  | JFloat _ => true
  | JStr s => negb (String.eqb s "")
  | JArr l => match l with [] => false | _ => true end
  | JObj d => match map_to_list d with [] => false | _ => true end
  end.

(** [a or b]. *)
Definition or_else (a b : json) : json := if truthy a then a else b.

(** Ordering.  Numbers compare by value across [bool], [int] and
    [float]. *)
Inductive number : Type := NInt (z : Z) | NFloat (f : spec_float).

Definition as_number (v : json) : option number :=
  match v with
  | JInt z => Some (NInt z)
  | JBool b => Some (NInt (Z.b2z b))
  | JFloat f => Some (NFloat f)
  | _ => None
  end.

Definition float_ltb_Z (f : spec_float) (n : Z) : bool :=
  match f with
  | S754_zero _ => (0 <? n)%Z
  | S754_infinity s => s
  | S754_nan => false
  | S754_finite s m e =>
      let v := if s then Z.neg m else Z.pos m in
      if (0 <=? e)%Z then (v * 2 ^ e <? n)%Z else (v <? n * 2 ^ (- e))%Z
  end.

Definition Z_ltb_float (n : Z) (f : spec_float) : bool :=
  match f with
  | S754_zero _ => (n <? 0)%Z
  | S754_infinity s => negb s
  | S754_nan => false
  | S754_finite s m e =>
      let v := if s then Z.neg m else Z.pos m in
      if (0 <=? e)%Z then (n <? v * 2 ^ e)%Z else (n * 2 ^ (- e) <? v)%Z
  end.

Definition num_ltb (a b : number) : bool :=
  match a, b with
  | NInt x, NInt y => (x <? y)%Z
  | NInt x, NFloat g => Z_ltb_float x g
  | NFloat f, NInt y => float_ltb_Z f y
  | NFloat f, NFloat g => SFltb f g
  end.

(** [a < b].  Two strings compare by code points.  Python also orders two
    lists; the model raises there, as it does for the pairs of types
    Python refuses: the script compares integers only, and the theorem
    that validation never raises covers this case with the others. *)
Definition lt (a b : json) : outcome bool :=
  match as_number a, as_number b with
  | Some x, Some y => Ret (num_ltb x y)
  | _, _ =>
      match a, b with
      | JStr s, JStr t => Ret (String.ltb s t)
      | _, _ => Raise TypeError
      end
  end.

(** [pattern.match(v)]: a [TypeError] unless [v] is a [str]. *)
Definition re_match (r : regex) (v : json) : outcome (option captures) :=
  match v with
  | JStr s => Ret (Re.re_match r s)
  | _ => Raise TypeError
  end.

(** [s.endswith(suffix)] and [s[:-n]] for [n >= 1]. *)
Definition endswith (s suffix : string) : bool :=
  let l := list_ascii_of_string s in
  let t := list_ascii_of_string suffix in
  (length t <=? length l)%nat &&
  prefix_of t (drop (length l - length t) l) .

Definition drop_last (n : nat) (s : string) : string :=
  let l := list_ascii_of_string s in
  string_of_list_ascii (take (length l - n) l).

(** The elements a [for] loop over [v] visits.  A loop over a dict visits
    its keys in insertion order, which the model of a dict does not keep:
    the model raises there; the script loops over a list only. *)
Definition iter (v : json) : outcome (list json) :=
  match v with
  | JArr l => Ret l
  | JStr s => Ret (map (fun c => JStr (String c "")) (list_ascii_of_string s))
  | _ => Raise TypeError
  end.

End Py.

(** ** The validation monad *)

(** Validation runs against a mutable set of strings ([seen_versions], and
    [seen_names] in [main]).  The set is part of what a computation returns
    whatever its outcome: [sys.exit] leaves the additions made before it in
    place. *)
Definition M (A : Type) : Type := gset string -> outcome A * gset string.

Definition ret {A} (a : A) : M A := fun seen => (Ret a, seen).

Definition bind {A B} (m : M A) (k : A -> M B) : M B :=
  fun seen =>
    match m seen with
    | (Ret a, seen') => k a seen'
    | (Exit f, seen') => (Exit f, seen')
    | (Raise e, seen') => (Raise e, seen')
    end.

Definition fail {A} (f : failure) : M A := fun seen => (Exit f, seen).

Definition lift {A} (o : outcome A) : M A := fun seen => (o, seen).

Notation "x <- m ;; k" := (bind m (fun x => k))
  (at level 100, m at next level, right associativity).
Notation "m ;;; k" := (bind m (fun _ => k))
  (at level 100, right associativity).

(** [if b: m]. *)
Definition when (b : bool) (m : M unit) : M unit := if b then m else ret tt.

(** [a or b] on conditions: [b] is evaluated only when [a] is false. *)
Definition or_ (a : bool) (b : M bool) : M bool := if a then ret true else b.

(** [not pattern.match(v)]. *)
Definition no_match (r : regex) (v : json) : M bool :=
  m <- lift (Py.re_match r v) ;;
  ret (match m with Some _ => false | None => true end).

(** [v in seen] and [seen.add(v)].  Lists and dicts are unhashable.  The
    script stores strings only; the model raises on any other value. *)
Definition seen_contains (v : json) : M bool :=
  fun seen =>
    match v with
    | JStr s => (Ret (bool_decide (s ∈ seen)), seen)
    | JArr _ | JObj _ => (Raise TypeError, seen)
    | _ => (Ret false, seen)
    end.

Definition seen_add (v : json) : M unit :=
  fun seen =>
    match v with
    | JStr s => (Ret tt, {[ s ]} ∪ seen)
    | _ => (Raise TypeError, seen)
    end.

(** [for key in keys: if key not in v: fail(...)]. *)
Fixpoint require_keys (missing : string -> failure) (keys : list string)
    (v : json) : M unit :=
  match keys with
  | [] => ret tt
  | key :: keys' =>
      present <- lift (Py.contains key v) ;;
      when (negb present) (fail (missing key)) ;;;
      require_keys missing keys' v
  end.

(** ** [validate_release], lines 49-92 *)

(** The body of the function is five groups of checks, each reading
    [release] afresh; they are named here so that statements can speak of
    one group. *)

(* line 51: required *)
Definition release_keys : list string :=
  ["version"; "compiler-drop"; "releasedAt"; "source"].

(* lines 52-54 *)
Definition release_required (release : json) (package_name : string)
    (rel_idx : nat) : M unit :=
  require_keys (MissingReleaseField package_name rel_idx) release_keys release.

(* lines 56-61 *)
Definition release_version (release : json) (package_name : string)
    (rel_idx : nat) : M unit :=
  version <- lift (Py.getitem release "version") ;;
  bad <- or_ (negb (Py.is_str version)) (no_match VERSION_RE version) ;;
  when bad (fail (InvalidVersion package_name rel_idx)) ;;;
  dup <- seen_contains version ;;
  when dup (fail (DuplicateVersion package_name version)) ;;;
  seen_add version.

(* lines 63-65 *)
Definition release_released_at (release : json) (package_name : string)
    (rel_idx : nat) : M unit :=
  released_at <- lift (Py.get release "releasedAt") ;;
  bad <- or_ (negb (Py.is_str released_at)) (no_match DATE_RE released_at) ;;
  when bad (fail (InvalidReleasedAt package_name rel_idx)).

(* lines 67-80 *)
Definition release_compiler_drop (release : json) (package_name : string)
    (rel_idx : nat) : M unit :=
  compiler_drop <- lift (Py.get release "compiler-drop") ;;
  when (negb (Py.is_dict compiler_drop))
    (fail (CompilerDropNotObject package_name rel_idx)) ;;;

  min_drop <- lift (Py.get compiler_drop "min") ;;
  tested_on <- lift (Py.get compiler_drop "tested-on") ;;

  bad <- or_ (negb (Py.is_int min_drop)) (lift (Py.lt min_drop (JInt 1))) ;;
  when bad (fail (InvalidMin package_name rel_idx)) ;;;

  bad <- or_ (negb (Py.is_int tested_on)) (lift (Py.lt tested_on (JInt 1))) ;;
  when bad (fail (InvalidTestedOn package_name rel_idx)) ;;;
  below <- lift (Py.lt tested_on min_drop) ;;
  when below (fail (InvalidRange package_name rel_idx)).

(* lines 82-92 *)
Definition release_source (release : json) (package_name : string)
    (rel_idx : nat) : M unit :=
  source <- lift (Py.get release "source") ;;
  when (negb (Py.is_dict source))
    (fail (SourceNotObject package_name rel_idx)) ;;;

  commit <- lift (Py.get source "commit") ;;
  sha256 <- lift (Py.get source "sha256") ;;

  bad <- or_ (negb (Py.is_str commit)) (no_match COMMIT_RE commit) ;;
  when bad (fail (InvalidCommit package_name rel_idx)) ;;;
  bad <- or_ (negb (Py.is_str sha256)) (no_match SHA256_RE sha256) ;;
  when bad (fail (InvalidSha256 package_name rel_idx)).

Definition validate_release (release : json) (package_name : string)
    (rel_idx : nat) : M unit :=
  release_required release package_name rel_idx ;;;
  release_version release package_name rel_idx ;;;
  release_released_at release package_name rel_idx ;;;
  release_compiler_drop release package_name rel_idx ;;;
  release_source release package_name rel_idx.

(** ** Paths and the outside world *)

(** A path below the packages directory, as its components. *)
Definition path : Type := list string.

Module Path.

(** Index of the last occurrence of [c], as [str.rfind] finds it. *)
Fixpoint rfind (c : ascii) (l : list ascii) : option nat :=
  match l with
  | [] => None
  | x :: l' =>
      match rfind c l' with
      | Some i => Some (S i)
      | None => if Ascii.eqb x c then Some 0%nat else None
      end
  end.

(** [p.name]: the final component. *)
Definition name (p : path) : string := List.last p "".

(** [p.stem]: the final component without its last suffix; a dot that
    starts or ends the name starts no suffix. *)
Definition stem (p : path) : string :=
  let l := list_ascii_of_string (name p) in
  match rfind "." l with
  | Some i =>
      if (0 <? i)%nat && (i <? length l - 1)%nat
      then string_of_list_ascii (take i l)
      else name p
  | None => name p
  end.

(** Paths order as the lists of their components, strings by code
    point. *)
Definition compare (p q : path) : comparison :=
  list_compare String.compare p q.

Definition le (p q : path) : Prop := compare p q <> Gt.

#[global] Instance le_dec : RelDecision le.
Proof. intros p q. unfold le. destruct (compare p q); [left|left|right]; congruence. Defined.

(** [sorted(files)]. *)
Definition sorted (files : list path) : list path := merge_sort le files.

End Path.

(** [json.loads(path.read_text(encoding="utf-8"))], as line 101 sees it: the
    error it catches, or the decoded value.  A file that cannot be read,
    whose bytes are no UTF-8 text, or whose decoding fails in another way
    (a number of too many digits, nesting that is too deep) raises an
    exception that line 101 lets through; [load_result] has no outcome for
    it, and what is said below of a file is said of a file for which line
    100 gives one of these two. *)
Inductive load_result : Type :=
| JSONDecodeError
| Loaded (data : json).

(** [http_json(url, token)]: an [HTTPError] with its status, any other
    exception, or the decoded body. *)
Inductive http_result : Type :=
| HTTPError (code : Z)
| OtherError
| Response (body : json).

Record world : Type := World {
  packages_dir_exists : bool;            (* PACKAGES_DIR.exists() *)
  rglob_json : list path;                (* PACKAGES_DIR.rglob("*.json") *)
  load : path -> load_result;
  github_token : option string;          (* os.environ.get("GITHUB_TOKEN") *)
  http_json : string -> option string -> http_result
}.

(** ** [validate_package_file], lines 95-158 *)

(** The loop of lines 139-142. *)
Fixpoint validate_releases (releases : list json) (package_name : string)
    (idx : nat) : M unit :=
  match releases with
  | [] => ret tt
  | release :: releases' =>
      when (negb (Py.is_dict release))
        (fail (ReleaseNotObject package_name idx)) ;;;
      validate_release release package_name idx ;;;
      validate_releases releases' package_name (S idx)
  end.

(* line 107: required *)
Definition package_keys : list string :=
  ["name"; "schema-version"; "repository"; "releases"; "createdAt"].

(** Lines 104-142 on the decoded [data]; the result is the owner and the
    repository name taken from the URL. *)
Definition validate_package_data (data : json) (package_name : string)
    : M (string * string) :=
  when (negb (Py.is_dict data)) (fail (RootNotObject package_name)) ;;;

  require_keys (MissingField package_name) package_keys data ;;;

  name <- lift (Py.getitem data "name") ;;
  when (negb (Py.eq_str name package_name))
    (fail (NameMismatch package_name name)) ;;;

  schema_version <- lift (Py.get data "schema-version") ;;
  bad <- or_ (negb (Py.is_int schema_version))
             (lift (Py.lt schema_version (JInt 1))) ;;
  when bad (fail (InvalidSchemaVersion package_name)) ;;;

  created_at <- lift (Py.get data "createdAt") ;;
  bad <- or_ (negb (Py.is_str created_at)) (no_match DATE_RE created_at) ;;
  when bad (fail (InvalidCreatedAt package_name)) ;;;

  repository <- lift (Py.getitem data "repository") ;;
  when (negb (Py.is_str repository))
    (fail (RepositoryNotString package_name)) ;;;
  match_ <- lift (Py.re_match GITHUB_REPO_RE repository) ;;
  match match_ with
  | None => fail (InvalidRepository package_name)
  | Some groups =>
      let owner := group 1 groups in
      let repo := group 2 groups in
      let repo := if Py.endswith repo ".git" then Py.drop_last 4 repo else repo in

      releases <- lift (Py.get data "releases") ;;
      bad <- or_ (negb (Py.is_list releases))
                 (n <- lift (Py.len releases) ;; ret (n =? 0)%nat) ;;
      when bad (fail (InvalidReleases package_name)) ;;;

      items <- lift (Py.iter releases) ;;
      validate_releases items package_name 0 ;;;
      ret (owner, repo)
  end.

(** Lines 147-158. *)
Definition online_checks (w : world) (package_name owner repo : string)
    (token : option string) : M unit :=
  match http_json w ("https://api.github.com/repos/" ++ owner ++ "/" ++ repo)
          token with
  | HTTPError code => fail (LookupFailedStatus package_name code owner repo)
  | OtherError => fail (LookupFailed package_name)
  | Response repo_meta =>
      license <- lift (Py.get repo_meta "license") ;;
      let license_data := Py.or_else license (JObj ∅) in
      spdx_id <- lift (Py.get license_data "spdx_id") ;;
      when (negb (Py.eq_str spdx_id "MIT"))
        (fail (LicenseRejected package_name
                 (Py.or_else spdx_id (JStr "unknown"))))
  end.

Definition package_checks (w : world) (package_path : path) (offline : bool)
    (token : option string) : M unit :=
  let package_name := Path.stem package_path in
  match load w package_path with
  | JSONDecodeError => fail (MalformedInput package_name)
  | Loaded data =>
      target <- validate_package_data data package_name ;;
      let (owner, repo) := target : string * string in
      if offline then ret tt
      else online_checks w package_name owner repo token
  end.

(** [seen_versions] starts empty (line 138) and is local to the call. *)
Definition validate_package_file (w : world) (package_path : path)
    (offline : bool) (token : option string) : outcome unit :=
  fst (package_checks w package_path offline token ∅).

(** ** [main], lines 161-183 *)

(** The loop of lines 173-180, run against [seen_names]. *)
Fixpoint validate_files (w : world) (offline : bool) (token : option string)
    (package_files : list path) : M unit :=
  match package_files with
  | [] => ret tt
  | package_path :: package_files' =>
      let package_name := Path.stem package_path in
      when (match Re.re_match NAME_RE package_name with
            | Some _ => false | None => true end)
        (fail (InvalidFilename package_path)) ;;;
      dup <- seen_contains (JStr package_name) ;;
      when dup (fail (DuplicatePackage package_name)) ;;;
      seen_add (JStr package_name) ;;;
      lift (validate_package_file w package_path offline token) ;;;
      validate_files w offline token package_files'
  end.

(** What the success line reports: the number of packages and the mode. *)
Definition main (w : world) (offline : bool) : outcome (nat * string) :=
  let token_value := github_token w in
  if negb (packages_dir_exists w) then Exit PackagesDirNotFound
  else
    let package_files := Path.sorted (rglob_json w) in
    match package_files with
    | [] => Exit EmptyRegistry
    | _ =>
        match fst (validate_files w offline token_value package_files ∅) with
        | Ret _ =>
            Ret (length package_files,
                 if offline then "offline" else "online")
        | Exit f => Exit f
        | Raise e => Raise e
        end
    end.

(** * Properties *)

(** ** The monad *)

Section Monad.
Context {A B : Type}.

Lemma bind_ret (a : A) (k : A -> M B) seen : bind (ret a) k seen = k a seen.
Proof. reflexivity. Qed.

Lemma bind_lift_ret (a : A) (k : A -> M B) seen :
  bind (lift (Ret a)) k seen = k a seen.
Proof. reflexivity. Qed.

Lemma bind_fail (f : failure) (k : A -> M B) seen :
  bind (fail f) k seen = (Exit f, seen).
Proof. reflexivity. Qed.

Lemma bind_eq (m : M A) (k : A -> M B) seen a seen' :
  m seen = (Ret a, seen') -> bind m k seen = k a seen'.
Proof. unfold bind. now intros ->. Qed.

Lemma bind_exit (m : M A) (k : A -> M B) seen f seen' :
  m seen = (Exit f, seen') -> bind m k seen = (Exit f, seen').
Proof. unfold bind. now intros ->. Qed.

Lemma bind_inv_ret (m : M A) (k : A -> M B) seen b seen' :
  bind m k seen = (Ret b, seen') ->
  exists a seen1, m seen = (Ret a, seen1) /\ k a seen1 = (Ret b, seen').
Proof.
  unfold bind. destruct (m seen) as [[a|f|e] seen1]; intros H;
    try discriminate. eauto.
Qed.
End Monad.

Lemma bind_ext {A B} (m : M A) (k k' : A -> M B) seen :
  (forall a seen', k a seen' = k' a seen') -> bind m k seen = bind m k' seen.
Proof.
  intros H. unfold bind. destruct (m seen) as [[a|f|e] seen1]; auto.
Qed.

Lemma bind_assoc {A B C} (m : M A) (k : A -> M B) (h : B -> M C) seen :
  bind (bind m k) h seen = bind m (fun a => bind (k a) h) seen.
Proof.
  unfold bind. destruct (m seen) as [[a|f|e] seen1]; reflexivity.
Qed.

(** ** Paths *)

Lemma name_snoc (dirs : list string) (file : string) :
  Path.name (dirs ++ [file])%list = file.
Proof. unfold Path.name. apply List.last_last. Qed.

Lemma stem_snoc (dirs : list string) (file : string) :
  Path.stem (dirs ++ [file])%list = Path.stem [file].
Proof. unfold Path.stem. now rewrite name_snoc. Qed.

(** ** C1: the minimal descriptor *)

Definition repeat_char (n : nat) (c : ascii) : string :=
  string_of_list_ascii (replicate n c).

Definition minimal_release : json :=
  JObj {[ "version" := JStr "1.0.0";
          "releasedAt" := JStr "2024-01-01";
          "compiler-drop" := JObj {[ "min" := JInt 1; "tested-on" := JInt 1 ]};
          "source" := JObj {[ "commit" := JStr (repeat_char 40 "a");
                              "sha256" := JStr (repeat_char 64 "b") ]} ]}.

Definition minimal_descriptor : json :=
  JObj {[ "name" := JStr "abcd";
          "schema-version" := JInt 1;
          "repository" := JStr "https://github.com/o/r";
          "createdAt" := JStr "2024-01-01";
          "releases" := JArr [minimal_release] ]}.

(** C1.  A file with base name [abcd], in any directory below the packages
    directory, that holds the minimal descriptor of the spec passes
    [validate_package_file] in offline mode: the call returns and no [fail]
    runs.  Neither the token nor the network is consulted. *)
Theorem minimal_descriptor_passes_offline
    (dirs : list string) (w : world) (token : option string) :
  validate_package_file
    (World (packages_dir_exists w) (rglob_json w)
           (fun _ => Loaded minimal_descriptor) (github_token w) (http_json w))
    (dirs ++ ["abcd.json"])%list true token = Ret tt.
Proof.
  unfold validate_package_file, package_checks.
  rewrite stem_snoc. cbn [load].
  vm_compute. reflexivity.
Qed.

(** ** Reading a descriptor *)

(** The value under [key] when [v] is a dict that has the key. *)
Definition field (v : json) (key : string) : option json :=
  match v with
  | JObj d => d !! key
  | _ => None
  end.

(** [pattern.match(s)] is not [None]. *)
Definition matches (r : regex) (s : string) : bool :=
  match Re.re_match r s with
  | Some _ => true
  | None => false
  end.

(** The integer a value of type [int] or [bool] stands for. *)
Definition int_value (v : json) : option Z :=
  match v with
  | JInt z => Some z
  | JBool b => Some (Z.b2z b)
  | _ => None
  end.

Ltac unfold_m :=
  cbv beta iota delta
    [bind lift ret when or_ fail no_match seen_contains seen_add].

Lemma field_dict v key x : field v key = Some x -> exists d, v = JObj d.
Proof. destruct v; try discriminate. eauto. Qed.

Lemma contains_field v key :
  is_Some (field v key) -> Py.contains key v = Ret true.
Proof.
  intros [x Hx]. destruct (field_dict _ _ _ Hx) as [d ->]. simpl in *.
  now rewrite Hx.
Qed.

Lemma getitem_field v key x : field v key = Some x -> Py.getitem v key = Ret x.
Proof.
  intros Hx. destruct (field_dict _ _ _ Hx) as [d ->]. simpl in *.
  now rewrite Hx.
Qed.

Lemma get_field v key x : field v key = Some x -> Py.get v key = Ret x.
Proof.
  intros Hx. destruct (field_dict _ _ _ Hx) as [d ->]. simpl in *.
  now rewrite Hx.
Qed.

Lemma is_dict_field v key x : field v key = Some x -> Py.is_dict v = true.
Proof. intros Hx. now destruct (field_dict _ _ _ Hx) as [d ->]. Qed.

(** ** Computations that leave the set alone *)

Definition pure {A} (m : M A) : Prop := forall seen, snd (m seen) = seen.

Lemma pure_ret {A} (a : A) : pure (ret a).
Proof. now intros seen. Qed.

Lemma pure_fail {A} f : pure (@fail A f).
Proof. now intros seen. Qed.

Lemma pure_lift {A} (o : outcome A) : pure (lift o).
Proof. now intros seen. Qed.

Lemma pure_bind {A B} (m : M A) (k : A -> M B) :
  pure m -> (forall a, pure (k a)) -> pure (bind m k).
Proof.
  intros Hm Hk seen. unfold bind. specialize (Hm seen).
  destruct (m seen) as [[a|f|e] seen1]; simpl in *; subst; try easy.
  apply Hk.
Qed.

Lemma pure_when b (m : M unit) : pure m -> pure (when b m).
Proof. destruct b; [easy|]. intros _. apply pure_ret. Qed.

Lemma pure_or_ b (m : M bool) : pure m -> pure (or_ b m).
Proof. destruct b; [|easy]. intros _. apply pure_ret. Qed.

Lemma pure_no_match r v : pure (no_match r v).
Proof. apply pure_bind; [apply pure_lift|]. intros; apply pure_ret. Qed.

Create HintDb pure.
#[local] Hint Resolve pure_ret pure_fail pure_lift pure_when pure_or_
  pure_no_match : pure.

Ltac pure_tac :=
  repeat first
    [ apply pure_bind; [|intros ?]
    | solve [auto with pure] ].

Lemma pure_require_keys missing keys v : pure (require_keys missing keys v).
Proof. induction keys as [|key keys IH]; simpl; pure_tac. Qed.

Lemma pure_release_required r pkg idx : pure (release_required r pkg idx).
Proof. apply pure_require_keys. Qed.

Lemma pure_release_released_at r pkg idx : pure (release_released_at r pkg idx).
Proof. unfold release_released_at. pure_tac. Qed.

Lemma pure_release_compiler_drop r pkg idx :
  pure (release_compiler_drop r pkg idx).
Proof. unfold release_compiler_drop. pure_tac. Qed.

Lemma pure_release_source r pkg idx : pure (release_source r pkg idx).
Proof. unfold release_source. pure_tac. Qed.

(** A computation that leaves the set alone returns it with its outcome. *)
Lemma pure_run {A} (m : M A) seen : pure m -> m seen = (fst (m seen), seen).
Proof. intros H. specialize (H seen). destruct (m seen); simpl in *; now subst. Qed.

(** ** The groups of [validate_release] on well-formed fields *)

Lemma require_keys_present missing keys v seen :
  Forall (fun key => is_Some (field v key)) keys ->
  require_keys missing keys v seen = (Ret tt, seen).
Proof.
  induction 1 as [|key keys Hkey _ IH]; [reflexivity|].
  simpl. rewrite (contains_field _ _ Hkey). exact IH.
Qed.

Lemma release_required_present r pkg idx seen :
  Forall (fun key => is_Some (field r key)) release_keys ->
  release_required r pkg idx seen = (Ret tt, seen).
Proof. apply require_keys_present. Qed.

Lemma release_version_duplicate r pkg idx seen v :
  field r "version" = Some (JStr v) ->
  matches VERSION_RE v = true ->
  v ∈ seen ->
  release_version r pkg idx seen = (Exit (DuplicateVersion pkg (JStr v)), seen).
Proof.
  intros Hv Hm Hin. unfold release_version, matches in *.
  unfold bind at 1. rewrite (getitem_field _ _ _ Hv). unfold_m. simpl.
  destruct (Re.re_match VERSION_RE v); [|discriminate]. unfold_m.
  now rewrite bool_decide_true.
Qed.

Lemma release_version_fresh r pkg idx seen v :
  field r "version" = Some (JStr v) ->
  matches VERSION_RE v = true ->
  v ∉ seen ->
  release_version r pkg idx seen = (Ret tt, {[ v ]} ∪ seen).
Proof.
  intros Hv Hm Hin. unfold release_version, matches in *.
  unfold bind at 1. rewrite (getitem_field _ _ _ Hv). unfold_m. simpl.
  destruct (Re.re_match VERSION_RE v); [|discriminate]. unfold_m.
  now rewrite bool_decide_false.
Qed.

(** What an accepted version group tells about the release. *)
Lemma release_version_accepted r pkg idx seen seen' :
  Py.is_dict r = true ->
  release_version r pkg idx seen = (Ret tt, seen') ->
  exists v, field r "version" = Some (JStr v) /\ matches VERSION_RE v = true /\
            (v ∉ seen) /\ seen' = ({[ v ]} ∪ seen).
Proof.
  destruct r as [| | | | | |d]; try discriminate. intros _.
  unfold release_version, matches. unfold bind at 1. simpl.
  destruct (d !! "version") as [version|] eqn:Hv; [|discriminate].
  destruct version as [| | | |v| |]; unfold_m; simpl; try discriminate.
  destruct (Re.re_match VERSION_RE v) eqn:Hm; [|discriminate].
  destruct (bool_decide (v ∈ seen)) eqn:Hin; [discriminate|].
  intros [= <-]. apply bool_decide_eq_false in Hin.
  exists v. now rewrite Hm.
Qed.

Lemma release_released_at_valid r pkg idx seen day :
  field r "releasedAt" = Some (JStr day) ->
  matches DATE_RE day = true ->
  release_released_at r pkg idx seen = (Ret tt, seen).
Proof.
  intros Hd Hm. unfold release_released_at, matches in *.
  unfold bind at 1. rewrite (get_field _ _ _ Hd). unfold_m. simpl.
  now destruct (Re.re_match DATE_RE day).
Qed.

Lemma release_source_valid r pkg idx seen source commit sha256 :
  field r "source" = Some source ->
  field source "commit" = Some (JStr commit) ->
  field source "sha256" = Some (JStr sha256) ->
  matches COMMIT_RE commit = true ->
  matches SHA256_RE sha256 = true ->
  release_source r pkg idx seen = (Ret tt, seen).
Proof.
  intros Hs Hc Hh Hmc Hmh. unfold release_source, matches in *.
  unfold bind at 1. rewrite (get_field _ _ _ Hs). unfold lift at 1.
  rewrite (is_dict_field _ _ _ Hc).
  unfold_m. rewrite (get_field _ _ _ Hc), (get_field _ _ _ Hh). simpl.
  destruct (Re.re_match COMMIT_RE commit); [|discriminate].
  now destruct (Re.re_match SHA256_RE sha256).
Qed.

(** The compiler-drop group on two integers that are at least 1: the only
    check left is [tested_on < min_drop]. *)
Lemma release_compiler_drop_range r pkg idx seen drop vmin vtested zmin ztested :
  field r "compiler-drop" = Some drop ->
  field drop "min" = Some vmin ->
  field drop "tested-on" = Some vtested ->
  int_value vmin = Some zmin ->
  int_value vtested = Some ztested ->
  (1 <= zmin)%Z ->
  (1 <= ztested)%Z ->
  release_compiler_drop r pkg idx seen =
    (if (ztested <? zmin)%Z then Exit (InvalidRange pkg idx) else Ret tt, seen).
Proof.
  intros Hd Hmin Htested Hzmin Hztested Hge1 Hge2.
  unfold release_compiler_drop.
  unfold bind at 1. rewrite (get_field _ _ _ Hd). unfold lift at 1.
  rewrite (is_dict_field _ _ _ Hmin).
  unfold_m. rewrite (get_field _ _ _ Hmin), (get_field _ _ _ Htested).
  assert (Hlt1 : forall z, (1 <= z)%Z -> (z <? 1)%Z = false)
    by (intros z Hz; apply Z.ltb_ge; lia).
  destruct vmin as [|bmin|nmin| | | |]; try discriminate;
    destruct vtested as [|btested|ntested| | | |]; try discriminate;
    simpl in *; injection Hzmin as <-; injection Hztested as <-;
    rewrite !Hlt1 by assumption;
    now destruct (_ <? _)%Z.
Qed.

(** ** The set of seen strings *)

Lemma seen_nil (seen : gset string) : seen = list_to_set [] ∪ seen.
Proof. simpl. now rewrite (left_id_L ∅ (∪)). Qed.

Lemma seen_cons (v : string) (vs : list string) (seen : gset string) :
  list_to_set vs ∪ ({[ v ]} ∪ seen) = list_to_set (v :: vs) ∪ seen.
Proof. simpl. rewrite !(assoc_L (∪)). f_equal. apply (comm_L (∪)). Qed.

Lemma seen_head (v : string) (seen : gset string) : v ∈ {[ v ]} ∪ seen.
Proof. apply elem_of_union_l, elem_of_singleton. reflexivity. Qed.

Lemma seen_tail (v x : string) (seen : gset string) :
  x ∉ {[ v ]} ∪ seen -> x ∉ seen.
Proof. intros H Hx. apply H, elem_of_union_r, Hx. Qed.

(** ** Versions of a package *)

(** [r] is a dict whose ["version"] is the string [v]. *)
Definition has_version (r : json) (v : string) : Prop :=
  field r "version" = Some (JStr v).

Definition has_keys (keys : list string) (v : json) : Prop :=
  Forall (fun key => is_Some (field v key)) keys.

Lemma validate_release_duplicate r pkg idx seen v :
  has_keys release_keys r ->
  has_version r v ->
  matches VERSION_RE v = true ->
  v ∈ seen ->
  validate_release r pkg idx seen =
    (Exit (DuplicateVersion pkg (JStr v)), seen).
Proof.
  intros Hk Hv Hm Hin. unfold validate_release.
  rewrite (bind_eq _ _ _ _ _ (release_required_present _ pkg idx seen Hk)).
  now rewrite (bind_exit _ _ _ _ _
                 (release_version_duplicate _ pkg idx _ _ Hv Hm Hin)).
Qed.

(** After the version group the set is not touched again. *)
Lemma validate_release_after_version r pkg idx :
  pure (release_released_at r pkg idx ;;;
        release_compiler_drop r pkg idx ;;;
        release_source r pkg idx).
Proof.
  pure_tac; auto using pure_release_released_at,
    pure_release_compiler_drop, pure_release_source.
Qed.

Lemma validate_release_fresh r pkg idx seen v :
  has_keys release_keys r ->
  has_version r v ->
  matches VERSION_RE v = true ->
  v ∉ seen ->
  snd (validate_release r pkg idx seen) = {[ v ]} ∪ seen.
Proof.
  intros Hk Hv Hm Hin. unfold validate_release.
  rewrite (bind_eq _ _ _ _ _ (release_required_present _ pkg idx seen Hk)).
  rewrite (bind_eq _ _ _ _ _ (release_version_fresh _ pkg idx _ _ Hv Hm Hin)).
  apply (validate_release_after_version r pkg idx).
Qed.

Lemma validate_release_accepted r pkg idx seen seen' :
  Py.is_dict r = true ->
  validate_release r pkg idx seen = (Ret tt, seen') ->
  exists v, has_version r v /\ matches VERSION_RE v = true /\
            (v ∉ seen) /\ seen' = ({[ v ]} ∪ seen).
Proof.
  intros Hd H. unfold validate_release in H.
  apply bind_inv_ret in H as ([] & s1 & H1 & H).
  apply bind_inv_ret in H as ([] & s2 & H2 & H).
  pose proof (pure_release_required r pkg idx seen) as P1.
  rewrite H1 in P1. simpl in P1. subst s1.
  pose proof (validate_release_after_version r pkg idx s2) as P2.
  rewrite H in P2. simpl in P2. subst s2.
  now apply release_version_accepted in H2.
Qed.

Lemma validate_releases_app pre post pkg idx seen :
  validate_releases (pre ++ post) pkg idx seen =
  bind (validate_releases pre pkg idx)
       (fun _ => validate_releases post pkg (idx + length pre)) seen.
Proof.
  revert idx seen. induction pre as [|r pre IH]; intros idx seen.
  - simpl. now rewrite Nat.add_0_r.
  - simpl. rewrite bind_assoc. apply bind_ext. intros _ seen0.
    rewrite bind_assoc. apply bind_ext. intros _ seen1.
    rewrite IH. now replace (S idx + length pre) with (idx + S (length pre)) by lia.
Qed.

(** Accepted releases have pairwise different versions, none of them in
    the set before; the set afterwards holds them all. *)
Lemma validate_releases_accepted rs pkg idx seen seen' :
  validate_releases rs pkg idx seen = (Ret tt, seen') ->
  exists vs, Forall2 has_version rs vs /\ NoDup vs /\
             Forall (fun v => v ∉ seen) vs /\
             Forall (fun v => matches VERSION_RE v = true) vs /\
             seen' = (list_to_set vs ∪ seen).
Proof.
  revert idx seen. induction rs as [|r rs IH]; intros idx seen H.
  - injection H as <-. exists []. repeat split; try constructor.
    apply seen_nil.
  - simpl in H. apply bind_inv_ret in H as ([] & s0 & H0 & H).
    unfold when in H0. destruct (Py.is_dict r) eqn:Hd; [|discriminate].
    injection H0 as <-.
    apply bind_inv_ret in H as ([] & s1 & H1 & H).
    apply validate_release_accepted in H1 as (v & Hv & Hm & Hin & ->); [|done].
    apply IH in H as (vs & Hvs & Hnd & Hfresh & Hms & ->).
    exists (v :: vs). repeat split.
    + now constructor.
    + constructor; [|done]. intros Hin'.
      rewrite Forall_forall in Hfresh. apply (Hfresh v Hin'), seen_head.
    + constructor; [done|]. eapply Forall_impl; [exact Hfresh|].
      simpl. intros x Hx. exact (seen_tail _ _ _ Hx).
    + now constructor.
    + apply seen_cons.
Qed.

(** A release that repeats the version of an accepted earlier release stops
    the loop, wherever the two are. *)
Lemma validate_releases_duplicate pkg pre r post idx seen seen1 r0 v :
  validate_releases pre pkg idx seen = (Ret tt, seen1) ->
  r0 ∈ pre ->
  has_version r0 v ->
  has_keys release_keys r ->
  has_version r v ->
  validate_releases (pre ++ r :: post) pkg idx seen =
    (Exit (DuplicateVersion pkg (JStr v)), seen1).
Proof.
  intros Hpre Hin0 Hv0 Hk Hv.
  rewrite validate_releases_app, (bind_eq _ _ _ _ _ Hpre).
  apply validate_releases_accepted in Hpre
    as (vs & Hvs & _ & _ & Hms & ->).
  assert (Hmem : v ∈ vs).
  { apply list_elem_of_lookup in Hin0 as [i Hi].
    destruct (Forall2_lookup_l _ _ _ _ _ Hvs Hi) as (v' & Hi' & Hv').
    unfold has_version in *. rewrite Hv0 in Hv'. injection Hv' as ->.
    eapply list_elem_of_lookup_2, Hi'. }
  simpl. unfold when at 1.
  rewrite (is_dict_field _ _ _ Hv). simpl. unfold bind at 1. simpl.
  apply bind_exit, validate_release_duplicate; trivial.
  - rewrite Forall_forall in Hms. auto.
  - apply elem_of_union_l, elem_of_list_to_set, Hmem.
Qed.

(** C3.  (1) When the releases of a list are all accepted, their version
    strings are pairwise different.  (2) A release with the four required
    keys whose version string equals that of an accepted earlier release
    makes validation fail with [DuplicateVersion], at any distance from
    that release and whatever follows.  (3) In [validate_release], a
    well-formed version that is in the set fails with [DuplicateVersion];
    one that is not is in the set afterwards, whether the later checks of
    the release pass or fail. *)
Theorem release_versions_distinct :
  (forall rs pkg idx seen seen',
      validate_releases rs pkg idx seen = (Ret tt, seen') ->
      exists vs, Forall2 has_version rs vs /\ NoDup vs) /\
  (forall pkg pre r post idx seen seen1 r0 v,
      validate_releases pre pkg idx seen = (Ret tt, seen1) ->
      r0 ∈ pre -> has_version r0 v ->
      has_keys release_keys r -> has_version r v ->
      validate_releases (pre ++ r :: post) pkg idx seen =
        (Exit (DuplicateVersion pkg (JStr v)), seen1)) /\
  (forall r pkg idx seen v,
      has_keys release_keys r -> has_version r v ->
      matches VERSION_RE v = true ->
      (v ∈ seen ->
       validate_release r pkg idx seen =
         (Exit (DuplicateVersion pkg (JStr v)), seen)) /\
      (v ∉ seen ->
       snd (validate_release r pkg idx seen) = {[ v ]} ∪ seen)).
Proof.
  split; [|split].
  - intros rs pkg idx seen seen' H.
    apply validate_releases_accepted in H as (vs & ? & ? & _). eauto.
  - apply validate_releases_duplicate.
  - intros r pkg idx seen v Hk Hv Hm. split.
    + now apply validate_release_duplicate.
    + now apply validate_release_fresh.
Qed.

(** ** C4: the compiler-drop range *)

(** C4.  Take a release that reaches the compiler-drop checks (required
    keys present, a well-formed version not seen before, a well-formed
    [releasedAt]) and whose compiler-drop is a dict with integers [min >= 1]
    and [tested-on >= 1].  When [tested-on < min], [validate_release] fails
    with [InvalidRange].  When [tested-on >= min], equality included, the
    compiler-drop checks pass and the outcome of [validate_release] is that
    of the source checks that follow. *)
Theorem compiler_drop_range
    r pkg idx seen v day drop vmin vtested zmin ztested :
  has_keys release_keys r ->
  has_version r v ->
  matches VERSION_RE v = true ->
  v ∉ seen ->
  field r "releasedAt" = Some (JStr day) ->
  matches DATE_RE day = true ->
  field r "compiler-drop" = Some drop ->
  field drop "min" = Some vmin ->
  field drop "tested-on" = Some vtested ->
  int_value vmin = Some zmin ->
  int_value vtested = Some ztested ->
  (1 <= zmin)%Z ->
  (1 <= ztested)%Z ->
  ((ztested < zmin)%Z ->
   validate_release r pkg idx seen =
     (Exit (InvalidRange pkg idx), {[ v ]} ∪ seen)) /\
  ((zmin <= ztested)%Z ->
   release_compiler_drop r pkg idx ({[ v ]} ∪ seen) =
     (Ret tt, {[ v ]} ∪ seen) /\
   validate_release r pkg idx seen =
     release_source r pkg idx ({[ v ]} ∪ seen)).
Proof.
  intros Hk Hv Hmv Hfresh Hday Hmd Hdrop Hmin Htested Hzmin Hztested H1 H2.
  pose proof (release_compiler_drop_range r pkg idx ({[ v ]} ∪ seen)
                _ _ _ _ _ Hdrop Hmin Htested Hzmin Hztested H1 H2) as Hcd.
  assert (Hrun :
    validate_release r pkg idx seen =
    bind (release_compiler_drop r pkg idx)
         (fun _ => release_source r pkg idx) ({[ v ]} ∪ seen)).
  { unfold validate_release.
    rewrite (bind_eq _ _ _ _ _ (release_required_present _ pkg idx seen Hk)).
    rewrite (bind_eq _ _ _ _ _
               (release_version_fresh _ pkg idx _ _ Hv Hmv Hfresh)).
    now rewrite (bind_eq _ _ _ _ _
                   (release_released_at_valid _ pkg idx _ _ Hday Hmd)). }
  split; intros Hcmp.
  - apply Z.ltb_lt in Hcmp. rewrite Hcmp in Hcd.
    now rewrite Hrun, (bind_exit _ _ _ _ _ Hcd).
  - apply Z.ltb_ge in Hcmp. rewrite Hcmp in Hcd.
    split; [exact Hcd|]. now rewrite Hrun, (bind_eq _ _ _ _ _ Hcd).
Qed.

(** ** Validation never raises *)

Definition raises {A} (o : outcome A) : bool :=
  match o with
  | Raise _ => true
  | _ => false
  end.

Definition clean_at {A} (m : M A) (seen : gset string) : Prop :=
  raises (fst (m seen)) = false.

Lemma clean_bind_at {A B} (m : M A) (k : A -> M B) seen :
  clean_at m seen ->
  (forall a seen', m seen = (Ret a, seen') -> clean_at (k a) seen') ->
  clean_at (bind m k) seen.
Proof.
  unfold clean_at, bind. intros Hm Hk.
  destruct (m seen) as [[a|f|e'] seen1] eqn:E; simpl in *;
    [now apply Hk|reflexivity|discriminate].
Qed.

Ltac crush_clean :=
  unfold clean_at; unfold_m; simpl;
  repeat (match goal with
          | |- context [default JNull ?o] =>
              generalize (default JNull o); intros [| | | | | |]; simpl
          end);
  repeat case_match; simpl in *; congruence.

Lemma release_released_at_clean d pkg idx seen :
  clean_at (release_released_at (JObj d) pkg idx) seen.
Proof. unfold release_released_at. crush_clean. Qed.

Lemma release_compiler_drop_clean d pkg idx seen :
  clean_at (release_compiler_drop (JObj d) pkg idx) seen.
Proof. unfold release_compiler_drop. crush_clean. Qed.

Lemma release_source_clean d pkg idx seen :
  clean_at (release_source (JObj d) pkg idx) seen.
Proof. unfold release_source. crush_clean. Qed.

Lemma release_version_clean d pkg idx seen :
  is_Some (d !! "version") ->
  clean_at (release_version (JObj d) pkg idx) seen.
Proof.
  intros [x Hx]. unfold release_version, clean_at. unfold_m. simpl.
  rewrite Hx. destruct x; simpl; repeat case_match; simpl in *; congruence.
Qed.

Lemma require_keys_inv missing keys d seen seen' :
  require_keys missing keys (JObj d) seen = (Ret tt, seen') ->
  has_keys keys (JObj d) /\ seen' = seen.
Proof.
  revert seen. induction keys as [|key keys IH]; intros seen; simpl.
  - intros [= <-]. split; [constructor|reflexivity].
  - unfold_m. simpl. destruct (bool_decide (is_Some (d !! key))) eqn:Hkey; simpl.
    + intros H. apply IH in H as [Hk ->]. split; [|reflexivity].
      constructor; [|exact Hk]. now apply bool_decide_eq_true in Hkey.
    + discriminate.
Qed.

Lemma require_keys_clean missing keys d seen :
  clean_at (require_keys missing keys (JObj d)) seen.
Proof.
  revert seen. induction keys as [|key keys IH]; intros seen; [reflexivity|].
  simpl. unfold clean_at in *. unfold_m. simpl.
  destruct (bool_decide (is_Some (d !! key))); simpl; [apply IH|reflexivity].
Qed.

Lemma validate_release_clean d pkg idx seen :
  clean_at (validate_release (JObj d) pkg idx) seen.
Proof.
  unfold validate_release.
  apply clean_bind_at; [apply require_keys_clean|].
  intros [] seen1 H. apply require_keys_inv in H as [Hk ->].
  apply clean_bind_at.
  { apply release_version_clean. now inversion Hk. }
  intros _ seen2 _. apply clean_bind_at; [apply release_released_at_clean|].
  intros _ seen3 _. apply clean_bind_at; [apply release_compiler_drop_clean|].
  intros _ seen4 _. apply release_source_clean.
Qed.

Lemma validate_releases_clean rs pkg idx seen :
  clean_at (validate_releases rs pkg idx) seen.
Proof.
  revert idx seen. induction rs as [|r rs IH]; intros idx seen; [reflexivity|].
  simpl. destruct r; try reflexivity. simpl.
  apply clean_bind_at; [reflexivity|]. intros _ seen0 _.
  apply clean_bind_at; [apply validate_release_clean|]. intros _ seen1 _.
  apply IH.
Qed.

Lemma validate_package_data_clean data pkg seen :
  clean_at (validate_package_data data pkg) seen.
Proof.
  unfold validate_package_data.
  destruct data; try reflexivity.
  apply clean_bind_at; [reflexivity|]. intros _ seen0 _.
  apply clean_bind_at; [apply require_keys_clean|].
  intros [] seen1 H. apply require_keys_inv in H as [Hk ->].
  unfold has_keys, package_keys in Hk. rewrite !Forall_cons in Hk.
  destruct Hk as ([name Hname] & [sv Hsv] & [repository Hrepo] & [rel Hrel] & [ca Hca] & _).
  simpl in *.
  unfold clean_at. unfold_m. simpl. rewrite Hname, Hsv, Hrepo, Hca, Hrel. simpl.
  destruct (Py.eq_str name pkg); [|reflexivity]. simpl.
  destruct sv; try reflexivity; simpl;
    (destruct (_ <? 1)%Z; [reflexivity|]); simpl;
  (destruct ca as [| | | |day| |]; try reflexivity; simpl;
   (destruct (Re.re_match DATE_RE day); [|reflexivity]); simpl;
   destruct repository as [| | | |url| |]; try reflexivity; simpl;
   (destruct (Re.re_match GITHUB_REPO_RE url); [|reflexivity]); simpl;
   destruct rel as [| | | | |rs|]; try reflexivity; simpl;
   (destruct (length rs =? 0)%nat; [reflexivity|]); simpl;
   match goal with
   | |- context [validate_releases ?l ?p ?i ?s] =>
       pose proof (validate_releases_clean l p i s) as Hc; unfold clean_at in Hc;
       destruct (validate_releases l p i s) as [[[]|?|?] ?]; simpl in *;
       [reflexivity|reflexivity|discriminate]
   end).
Qed.

Lemma validate_package_file_offline_clean w p token data :
  load w p = Loaded data ->
  raises (validate_package_file w p true token) = false.
Proof.
  intros Hload. unfold validate_package_file, package_checks. rewrite Hload.
  pose proof (validate_package_data_clean data (Path.stem p) ∅) as Hc.
  unfold clean_at in Hc. unfold bind.
  destruct (validate_package_data data (Path.stem p) ∅) as [[[owner repo]|f|e] s];
    simpl in *; [reflexivity|reflexivity|discriminate].
Qed.

Lemma validate_release_wrong_version d pkg idx seen x :
  has_keys release_keys (JObj d) ->
  d !! "version" = Some x ->
  Py.is_str x = false ->
  validate_release (JObj d) pkg idx seen = (Exit (InvalidVersion pkg idx), seen).
Proof.
  intros Hk Hx Hstr. unfold validate_release.
  rewrite (bind_eq _ _ _ _ _ (release_required_present _ pkg idx seen Hk)).
  apply bind_exit. unfold release_version. unfold_m. simpl.
  rewrite Hx, Hstr. reflexivity.
Qed.

(** ** The order of paths *)

Lemma ascii_compare_eq (a b : ascii) : Ascii.compare a b = Eq <-> a = b.
Proof.
  split; [apply Ascii.compare_eq_iff|]. intros ->. apply N.compare_refl.
Qed.

Lemma ascii_compare_trans (a b d : ascii) c :
  Ascii.compare a b = c -> Ascii.compare b d = c -> Ascii.compare a d = c.
Proof.
  unfold Ascii.compare. destruct c; intros H1 H2.
  - apply N.compare_eq_iff in H1, H2. apply N.compare_eq_iff. congruence.
  - rewrite N.compare_lt_iff in *. lia.
  - rewrite N.compare_gt_iff in *. lia.
Qed.

Lemma string_compare_eq (s t : string) : String.compare s t = Eq <-> s = t.
Proof.
  split; [apply String.compare_eq_iff|]. intros ->.
  induction t as [|a t IH]; simpl; [reflexivity|].
  now rewrite (proj2 (ascii_compare_eq a a) eq_refl).
Qed.

Lemma string_compare_trans (s t u : string) c :
  String.compare s t = c -> String.compare t u = c -> String.compare s u = c.
Proof.
  revert t u. induction s as [|a s IH]; intros [|b t] [|d u]; simpl;
    try congruence.
  destruct (Ascii.compare a b) eqn:Hab, (Ascii.compare b d) eqn:Hbd;
    try (apply ascii_compare_eq in Hab; subst b);
    try (apply ascii_compare_eq in Hbd; subst d);
    rewrite ?Hab, ?Hbd, ?(proj2 (ascii_compare_eq _ _) eq_refl);
    try congruence; try apply IH.
  - rewrite (ascii_compare_trans _ _ _ _ Hab Hbd). congruence.
  - rewrite (ascii_compare_trans _ _ _ _ Hab Hbd). congruence.
Qed.

Lemma string_compare_opp (s t : string) :
  String.compare t s = CompOpp (String.compare s t).
Proof. apply String.compare_antisym. Qed.

Lemma path_compare_eq (p q : path) : Path.compare p q = Eq <-> p = q.
Proof. apply list_compare_refl, string_compare_eq. Qed.

Lemma path_compare_opp (p q : path) :
  Path.compare q p = CompOpp (Path.compare p q).
Proof.
  apply list_compare_antisym; [apply string_compare_eq|].
  apply string_compare_opp.
Qed.

Lemma path_compare_trans (p q r : path) c :
  Path.compare p q = c -> Path.compare q r = c -> Path.compare p r = c.
Proof.
  apply list_compare_trans.
  - apply string_compare_eq.
  - apply string_compare_trans.
  - apply string_compare_opp.
Qed.

#[local] Instance path_le_total : Total Path.le.
Proof.
  intros p q. unfold Path.le. rewrite (path_compare_opp p q).
  destruct (Path.compare p q); simpl; [left|left|right]; congruence.
Qed.

#[local] Instance path_le_antisym : AntiSymm eq Path.le.
Proof.
  intros p q. unfold Path.le. rewrite (path_compare_opp p q).
  destruct (Path.compare p q) eqn:E; simpl; try congruence.
  intros _ _. now apply path_compare_eq.
Qed.

#[local] Instance path_le_trans : Transitive Path.le.
Proof.
  intros p q r. unfold Path.le.
  destruct (Path.compare p q) eqn:E1; [|destruct (Path.compare q r) eqn:E2|];
    try congruence.
  - apply path_compare_eq in E1. now subst q.
  - apply path_compare_eq in E2. subst r. intros _ _. congruence.
  - intros _ _. rewrite (path_compare_trans _ _ _ _ E1 E2). congruence.
Qed.

(** [sorted] returns the files it is given, in an order that does not
    depend on the order in which it is given them. *)
Lemma sorted_permutation (files : list path) : Path.sorted files ≡ₚ files.
Proof. apply merge_sort_Permutation. Qed.

Lemma sorted_unique (files files' : list path) :
  files ≡ₚ files' -> Path.sorted files = Path.sorted files'.
Proof.
  intros Hp. apply (StronglySorted_unique Path.le).
  - apply StronglySorted_merge_sort; apply _.
  - apply StronglySorted_merge_sort; apply _.
  - now rewrite !sorted_permutation.
Qed.

(** ** The loop of [main] *)

(** The name check of line 175 on a path. *)
Definition valid_filename (p : path) : bool := matches NAME_RE (Path.stem p).

Lemma validate_files_cons w offline token p files seen :
  validate_files w offline token (p :: files) seen =
  (when (negb (valid_filename p)) (fail (InvalidFilename p)) ;;;
   dup <- seen_contains (JStr (Path.stem p)) ;;
   when dup (fail (DuplicatePackage (Path.stem p))) ;;;
   seen_add (JStr (Path.stem p)) ;;;
   lift (validate_package_file w p offline token) ;;;
   validate_files w offline token files) seen.
Proof.
  simpl. unfold valid_filename, matches.
  now destruct (Re.re_match NAME_RE (Path.stem p)).
Qed.

Lemma validate_files_app w offline token pre post seen :
  validate_files w offline token (pre ++ post) seen =
  bind (validate_files w offline token pre)
       (fun _ => validate_files w offline token post) seen.
Proof.
  revert seen. induction pre as [|p pre IH]; intros seen; [reflexivity|].
  simpl.
  repeat (rewrite bind_assoc; apply bind_ext; intros ? ?).
  apply IH.
Qed.

(** A file whose name fails the check stops the loop before the file is
    opened. *)
Lemma validate_files_invalid_filename w offline token p files seen :
  valid_filename p = false ->
  validate_files w offline token (p :: files) seen =
    (Exit (InvalidFilename p), seen).
Proof. intros H. rewrite validate_files_cons, H. reflexivity. Qed.

Lemma validate_files_seen_before w offline token p files seen :
  valid_filename p = true ->
  Path.stem p ∈ seen ->
  validate_files w offline token (p :: files) seen =
    (Exit (DuplicatePackage (Path.stem p)), seen).
Proof.
  intros Hv Hin. rewrite validate_files_cons, Hv. unfold_m. simpl.
  now rewrite bool_decide_true.
Qed.

(** What a loop that ran to its end tells about the files. *)
Lemma validate_files_accepted w offline token files seen seen' :
  validate_files w offline token files seen = (Ret tt, seen') ->
  NoDup (map Path.stem files) /\
  Forall (fun p => valid_filename p = true) files /\
  Forall (fun p => Path.stem p ∉ seen) files /\
  Forall (fun p => validate_package_file w p offline token = Ret tt) files /\
  seen' = (list_to_set (map Path.stem files) ∪ seen).
Proof.
  revert seen. induction files as [|p files IH]; intros seen.
  - simpl. intros [= <-]. repeat split; try constructor.
    now rewrite (left_id_L ∅ (∪)).
  - rewrite validate_files_cons. unfold_m. simpl.
    destruct (valid_filename p) eqn:Hv; simpl; [|discriminate].
    destruct (bool_decide (Path.stem p ∈ seen)) eqn:Hin; simpl; [discriminate|].
    apply bool_decide_eq_false in Hin.
    destruct (validate_package_file w p offline token) as [[]| |] eqn:Hp;
      try discriminate.
    intros H. apply IH in H as (Hnd & Hvs & Hfresh & Hok & ->).
    repeat split.
    + simpl. constructor; [|exact Hnd]. intros Hmem.
      apply list_elem_of_fmap in Hmem as (q & Hq & Hmem).
      rewrite Forall_forall in Hfresh. apply (Hfresh q Hmem).
      rewrite <- Hq. apply seen_head.
    + now constructor.
    + constructor; [exact Hin|]. eapply Forall_impl; [exact Hfresh|].
      simpl. intros q Hq. exact (seen_tail _ _ _ Hq).
    + now constructor.
    + apply (seen_cons (Path.stem p) (map Path.stem files)).
Qed.

(** A file with the stem of an accepted earlier file stops the loop,
    wherever the two are and whatever the second file holds. *)
Lemma validate_files_duplicate w offline token pre p post seen seen1 q :
  validate_files w offline token pre seen = (Ret tt, seen1) ->
  q ∈ pre ->
  Path.stem q = Path.stem p ->
  validate_files w offline token (pre ++ p :: post) seen =
    (Exit (DuplicatePackage (Path.stem p)), seen1).
Proof.
  intros Hpre Hq Hstem.
  rewrite validate_files_app, (bind_eq _ _ _ _ _ Hpre).
  apply validate_files_accepted in Hpre as (_ & Hvs & _ & _ & ->).
  apply validate_files_seen_before.
  - rewrite Forall_forall in Hvs. specialize (Hvs q Hq).
    unfold valid_filename in *. now rewrite <- Hstem.
  - rewrite <- Hstem. apply elem_of_union_l, elem_of_list_to_set.
    apply list_elem_of_fmap. eauto.
Qed.

(** The outcome of a file depends on the world through the decoded content
    of that file and, in online mode, the token and the network. *)
Lemma validate_package_file_ext w w' p offline token :
  load w p = load w' p ->
  (offline = false -> forall url, http_json w url token = http_json w' url token) ->
  validate_package_file w p offline token =
  validate_package_file w' p offline token.
Proof.
  intros Hload Hhttp. unfold validate_package_file, package_checks.
  rewrite Hload. destruct (load w' p) as [|data]; [reflexivity|].
  unfold bind.
  destruct (validate_package_data data (Path.stem p) ∅) as [[[owner repo]|f|e] s];
    try reflexivity.
  destruct offline; [reflexivity|].
  unfold online_checks. now rewrite Hhttp.
Qed.

Lemma validate_package_file_offline w w' p token token' :
  load w p = load w' p ->
  validate_package_file w p true token = validate_package_file w' p true token'.
Proof.
  intros Hload. unfold validate_package_file, package_checks.
  rewrite Hload. destruct (load w' p) as [|data]; [reflexivity|].
  unfold bind.
  now destruct (validate_package_data data (Path.stem p) ∅)
    as [[[owner repo]|f|e] s].
Qed.

Lemma validate_files_offline w w' token token' files seen :
  Forall (fun p => load w p = load w' p) files ->
  validate_files w true token files seen =
  validate_files w' true token' files seen.
Proof.
  intros H. revert seen. induction H as [|p files Hp _ IH]; intros seen;
    [reflexivity|].
  rewrite !validate_files_cons.
  repeat (apply bind_ext; intros ? ?).
  rewrite (validate_package_file_offline w w' p token token' Hp).
  apply bind_ext. intros ? ?. apply IH.
Qed.

(** ** [main] *)

Lemma main_listing w offline :
  packages_dir_exists w = true ->
  Path.sorted (rglob_json w) <> [] ->
  main w offline =
    match fst (validate_files w offline (github_token w)
                 (Path.sorted (rglob_json w)) ∅) with
    | Ret _ => Ret (length (Path.sorted (rglob_json w)),
                    if offline then "offline" else "online")
    | Exit f => Exit f
    | Raise e => Raise e
    end.
Proof.
  intros Hdir Hne. unfold main. rewrite Hdir. simpl.
  now destruct (Path.sorted (rglob_json w)).
Qed.

(** Fail-fast: the first file of the sorted listing that fails decides the
    outcome of the run. *)
Lemma main_first_failure w offline pre p post seen1 f seen2 :
  packages_dir_exists w = true ->
  Path.sorted (rglob_json w) = (pre ++ p :: post)%list ->
  validate_files w offline (github_token w) pre ∅ = (Ret tt, seen1) ->
  validate_files w offline (github_token w) [p] seen1 = (Exit f, seen2) ->
  main w offline = Exit f.
Proof.
  intros Hdir Hsorted Hpre Hp.
  rewrite main_listing, Hsorted; trivial.
  - change (p :: post) with ([p] ++ post)%list.
    rewrite validate_files_app, (bind_eq _ _ _ _ _ Hpre).
    rewrite validate_files_app, (bind_exit _ _ _ _ _ Hp). reflexivity.
  - rewrite Hsorted. now destruct pre.
Qed.

(** The world [w] with the content of [p] replaced. *)
Definition with_content (w : world) (p : path) (content : load_result) : world :=
  World (packages_dir_exists w) (rglob_json w)
        (fun q => if decide (q = p) then content else load w q)
        (github_token w) (http_json w).

Lemma validate_files_invalid_content w p content offline token files seen :
  valid_filename p = false ->
  validate_files (with_content w p content) offline token files seen =
  validate_files w offline token files seen.
Proof.
  intros Hname. revert seen. induction files as [|q files IH]; intros seen;
    [reflexivity|].
  destruct (decide (q = p)) as [->|Hq].
  - now rewrite !validate_files_invalid_filename.
  - rewrite !validate_files_cons.
    repeat (apply bind_ext; intros ? ?).
    rewrite (validate_package_file_ext (with_content w p content) w q).
    + apply bind_ext. intros ? ?. apply IH.
    + simpl. now destruct (decide (q = p)).
    + reflexivity.
Qed.

Lemma main_accepted w offline r :
  main w offline = Ret r ->
  NoDup (map Path.stem (Path.sorted (rglob_json w))).
Proof.
  unfold main. destruct (packages_dir_exists w); [|discriminate]. simpl.
  destruct (Path.sorted (rglob_json w)) as [|q files] eqn:Hs; [discriminate|].
  destruct (validate_files w offline (github_token w) (q :: files) ∅)
    as [[[]|f|e] seen'] eqn:Hrun; try discriminate.
  intros _. now apply validate_files_accepted in Hrun as [Hnd _].
Qed.

(** C7.  (1) In the loop of [main], a file whose stem is that of an accepted
    earlier file fails with [DuplicatePackage], in whatever directories the
    two are and whatever the second file holds (its internal name is not
    read).  (2) When the files sorted before it pass, that is the outcome of
    the run.  (3) In a run that is accepted the stems of the files are
    pairwise different. *)
Theorem duplicate_package_rejected :
  (forall w offline token pre p post seen seen1 q,
      validate_files w offline token pre seen = (Ret tt, seen1) ->
      q ∈ pre ->
      Path.stem q = Path.stem p ->
      validate_files w offline token (pre ++ p :: post) seen =
        (Exit (DuplicatePackage (Path.stem p)), seen1)) /\
  (forall w offline pre p post seen1 q,
      packages_dir_exists w = true ->
      Path.sorted (rglob_json w) = (pre ++ p :: post)%list ->
      validate_files w offline (github_token w) pre ∅ = (Ret tt, seen1) ->
      q ∈ pre ->
      Path.stem q = Path.stem p ->
      main w offline = Exit (DuplicatePackage (Path.stem p))) /\
  (forall w offline r,
      main w offline = Ret r ->
      NoDup (map Path.stem (rglob_json w))).
Proof.
  split; [|split].
  - apply validate_files_duplicate.
  - intros w offline pre p post seen1 q Hdir Hsorted Hpre Hq Hstem.
    rewrite main_listing, Hsorted; [|trivial|rewrite Hsorted; now destruct pre].
    now rewrite (validate_files_duplicate _ _ _ _ _ _ _ _ _ Hpre Hq Hstem).
  - intros w offline r H. apply main_accepted in H.
    now rewrite sorted_permutation in H.
Qed.

(** C9.  The outcome of an offline run is a function of the registry
    contents: two worlds with the same files, listed by the file system in
    any two orders, and the same decoded content for each file give the same
    outcome of [main], the same first failure included, whatever the token
    and the network are.  The files are visited in sorted order and the
    first failure among them is the outcome of the run. *)
Theorem offline_run_deterministic :
  (forall w w',
      packages_dir_exists w = packages_dir_exists w' ->
      rglob_json w ≡ₚ rglob_json w' ->
      (forall p, load w p = load w' p) ->
      main w true = main w' true) /\
  (forall w offline pre p post seen1 f seen2,
      packages_dir_exists w = true ->
      Path.sorted (rglob_json w) = (pre ++ p :: post)%list ->
      validate_files w offline (github_token w) pre ∅ = (Ret tt, seen1) ->
      validate_files w offline (github_token w) [p] seen1 = (Exit f, seen2) ->
      main w offline = Exit f).
Proof.
  split.
  - intros w w' Hdir Hperm Hload. unfold main.
    rewrite Hdir, (sorted_unique _ _ Hperm).
    destruct (packages_dir_exists w'); [|reflexivity]. simpl.
    destruct (Path.sorted (rglob_json w')) as [|q files]; [reflexivity|].
    rewrite (validate_files_offline w w' (github_token w) (github_token w'));
      [reflexivity|].
    apply Forall_forall. auto.
  - apply main_first_failure.
Qed.

(** ** C8: the license check *)

(** The address of the lookup of line 149. *)
Definition repo_url (owner repo : string) : string :=
  "https://api.github.com/repos/" ++ owner ++ "/" ++ repo.

Lemma truthy_field v key x : field v key = Some x -> Py.truthy v = true.
Proof.
  intros Hx. destruct (field_dict _ _ _ Hx) as [d ->]. simpl in *.
  destruct (map_to_list d) eqn:E; [|reflexivity].
  apply map_to_list_empty_iff in E. subst d. now rewrite lookup_empty in Hx.
Qed.

Lemma online_checks_license w pkg owner repo token meta lic id seen :
  http_json w (repo_url owner repo) token = Response meta ->
  field meta "license" = Some lic ->
  field lic "spdx_id" = Some (JStr id) ->
  online_checks w pkg owner repo token seen =
    (if String.eqb id "MIT" then Ret tt
     else Exit (LicenseRejected pkg
                  (if String.eqb id "" then JStr "unknown" else JStr id)),
     seen).
Proof.
  intros Hhttp Hlic Hid. unfold online_checks. fold (repo_url owner repo).
  rewrite Hhttp. unfold bind at 1. rewrite (get_field _ _ _ Hlic).
  unfold lift at 1. unfold Py.or_else at 1. rewrite (truthy_field _ _ _ Hid).
  unfold bind at 1. rewrite (get_field _ _ _ Hid). unfold_m. simpl.
  destruct (String.eqb id "MIT"); [reflexivity|]. simpl.
  unfold Py.or_else. simpl. now destruct (String.eqb id "").
Qed.

Lemma online_checks_no_license w pkg owner repo token meta seen :
  http_json w (repo_url owner repo) token = Response meta ->
  Py.is_dict meta = true ->
  field meta "license" = None \/ field meta "license" = Some JNull ->
  online_checks w pkg owner repo token seen =
    (Exit (LicenseRejected pkg (JStr "unknown")), seen).
Proof.
  intros Hhttp Hd Hlic. unfold online_checks. fold (repo_url owner repo).
  rewrite Hhttp. destruct meta as [| | | | | |d]; try discriminate.
  simpl in Hlic. unfold_m. simpl.
  now destruct Hlic as [-> | ->].
Qed.

Lemma validate_package_file_online w p token data owner repo seen' :
  load w p = Loaded data ->
  validate_package_data data (Path.stem p) ∅ = (Ret (owner, repo), seen') ->
  validate_package_file w p false token =
    fst (online_checks w (Path.stem p) owner repo token seen').
Proof.
  intros Hload Hdata. unfold validate_package_file, package_checks.
  now rewrite Hload, (bind_eq _ _ _ _ _ Hdata).
Qed.

(** C8.  Take a file whose offline checks pass, with owner and repository
    name [owner] and [repo], and a lookup that answers with the dict [meta].
    In online mode: when [meta] holds a license whose identifier is the
    string ["MIT"], [validate_package_file] returns; when the identifier is
    any other non-empty string, it fails with [LicenseRejected] naming that
    identifier; when [meta] has no license or a null one, it fails with
    [LicenseRejected] naming ["unknown"]. *)
Theorem license_must_be_mit w p token data owner repo seen' meta :
  load w p = Loaded data ->
  validate_package_data data (Path.stem p) ∅ = (Ret (owner, repo), seen') ->
  http_json w (repo_url owner repo) token = Response meta ->
  Py.is_dict meta = true ->
  (forall lic,
      field meta "license" = Some lic ->
      field lic "spdx_id" = Some (JStr "MIT") ->
      validate_package_file w p false token = Ret tt) /\
  (forall lic id,
      field meta "license" = Some lic ->
      field lic "spdx_id" = Some (JStr id) ->
      id <> "MIT" -> id <> "" ->
      validate_package_file w p false token =
        Exit (LicenseRejected (Path.stem p) (JStr id))) /\
  (field meta "license" = None \/ field meta "license" = Some JNull ->
   validate_package_file w p false token =
     Exit (LicenseRejected (Path.stem p) (JStr "unknown"))).
Proof.
  intros Hload Hdata Hhttp Hmeta.
  rewrite (validate_package_file_online _ _ _ _ _ _ _ Hload Hdata).
  split; [|split].
  - intros lic Hlic Hid.
    now rewrite (online_checks_license _ _ _ _ _ _ _ _ _ Hhttp Hlic Hid).
  - intros lic id Hlic Hid Hmit Hempty.
    rewrite (online_checks_license _ _ _ _ _ _ _ _ _ Hhttp Hlic Hid).
    apply String.eqb_neq in Hmit, Hempty. now rewrite Hmit, Hempty.
  - intros Hlic.
    now rewrite (online_checks_no_license _ _ _ _ _ _ _ Hhttp Hmeta Hlic).
Qed.

(** ** C2: the format validators and the end of the string *)

Definition newline : string := String "010" "".

(** The shapes as the spec words them: [\d{4}-\d{2}-\d{2}], the whole
    string. *)
Definition spec_date (s : string) : bool :=
  match list_ascii_of_string s with
  | [y1; y2; y3; y4; h1; m1; m2; h2; d1; d2] =>
      forallb digit [y1; y2; y3; y4; m1; m2; d1; d2] &&
      Ascii.eqb h1 "-" && Ascii.eqb h2 "-"
  | _ => false
  end.

(** The longest prefix of [l] in the class [p], and what follows it. *)
Fixpoint span (p : ascii -> bool) (l : list ascii) : list ascii * list ascii :=
  match l with
  | x :: l' =>
      if p x then let (run, rest) := span p l' in (x :: run, rest)
      else ([], l)
  | [] => ([], [])
  end.

(** [\d+] and [\.] at the start of [l]: what is left after them. *)
Definition digits (l : list ascii) : option (list ascii) :=
  match span digit l with
  | ([], _) => None
  | (_, rest) => Some rest
  end.

Definition dot (l : list ascii) : option (list ascii) :=
  match l with
  | "."%char :: rest => Some rest
  | _ => None
  end.

(** [\d+\.\d+\.\d+] with an optional [-] and [[a-zA-Z0-9.]+], the whole
    string. *)
Definition spec_semver (s : string) : bool :=
  match
    (((digits (list_ascii_of_string s) ≫= dot) ≫= digits) ≫= dot) ≫= digits
  with
  | Some [] => true
  | Some ("-"%char :: pre) =>
      match pre with [] => false | _ => forallb prerelease pre end
  | _ => false
  end.

(** C2.  The validators accept the strings of the spec's shapes, the date
    [2024-13-99] among them, and reject strings with other extra
    characters; but each also accepts a string of the shape followed by one
    line feed, which is not of the shape: [$] in a Python pattern matches
    before a line feed that ends the string.  A release whose [releasedAt]
    is [2024-01-01] and a line feed passes [validate_release]. *)
Theorem formats_accept_trailing_newline :
  matches DATE_RE "2024-13-99" = true /\
  matches DATE_RE "2024-01-01 " = false /\
  (spec_date ("2024-01-01" ++ newline) = false /\
   matches DATE_RE ("2024-01-01" ++ newline) = true) /\
  (spec_semver ("1.0.0" ++ newline) = false /\
   matches VERSION_RE ("1.0.0" ++ newline) = true) /\
  (spec_semver ("1.0.0-rc.1" ++ newline) = false /\
   matches VERSION_RE ("1.0.0-rc.1" ++ newline) = true) /\
  fst (validate_release
         (JObj {[ "version" := JStr "1.0.0";
                  "releasedAt" := JStr ("2024-01-01" ++ newline);
                  "compiler-drop" :=
                    JObj {[ "min" := JInt 1; "tested-on" := JInt 1 ]};
                  "source" :=
                    JObj {[ "commit" := JStr (repeat_char 40 "a");
                            "sha256" := JStr (repeat_char 64 "b") ]} ]})
         "abcd" 0 ∅) = Ret tt.
Proof. vm_compute. repeat split. Qed.

(** ** C5: the repository URL *)

(** The minimal descriptor with another repository URL. *)
Definition with_repository (url : string) : json :=
  JObj {[ "name" := JStr "abcd";
          "schema-version" := JInt 1;
          "repository" := JStr url;
          "createdAt" := JStr "2024-01-01";
          "releases" := JArr [minimal_release] ]}.

(** C5.  The URL of the claim with an extra segment is refused, as are
    another scheme and another host; the owner and the repository name are
    taken from a URL of the exact shape, with a [.git] suffix and a final
    slash dropped.  But a URL whose extra segment is one line feed is
    accepted, by the [$] of the pattern, and validated as [o/r]. *)
Theorem repository_url_extra_newline_segment :
  fst (validate_package_data
         (with_repository "https://github.com/owner/repo/extra") "abcd" ∅)
    = Exit (InvalidRepository "abcd") /\
  fst (validate_package_data
         (with_repository "http://github.com/owner/repo") "abcd" ∅)
    = Exit (InvalidRepository "abcd") /\
  fst (validate_package_data
         (with_repository "https://gitlab.com/owner/repo") "abcd" ∅)
    = Exit (InvalidRepository "abcd") /\
  fst (validate_package_data
         (with_repository "https://github.com/owner/repo") "abcd" ∅)
    = Ret ("owner", "repo") /\
  fst (validate_package_data
         (with_repository "https://github.com/owner/repo.git/") "abcd" ∅)
    = Ret ("owner", "repo") /\
  fst (validate_package_data
         (with_repository ("https://github.com/o/r/" ++ newline)) "abcd" ∅)
    = Ret ("o", "r").
Proof. vm_compute. repeat split. Qed.

(** * Instances

    Each statement above that has hypotheses is applied here to a concrete
    registry. *)

(** The minimal release with other compiler-drop bounds. *)
Definition release_with_drop (min_drop tested_on : Z) : json :=
  JObj {[ "version" := JStr "1.0.0";
          "releasedAt" := JStr "2024-01-01";
          "compiler-drop" :=
            JObj {[ "min" := JInt min_drop; "tested-on" := JInt tested_on ]};
          "source" := JObj {[ "commit" := JStr (repeat_char 40 "a");
                              "sha256" := JStr (repeat_char 64 "b") ]} ]}.

(** A registry of minimal descriptors: every file decodes to the minimal
    descriptor, and the lookup answers with the license [spdx]. *)
Definition registry (files : list path) (spdx : string) : world :=
  World true files (fun _ => Loaded minimal_descriptor) None
        (fun _ _ =>
           Response (JObj {[ "license" := JObj {[ "spdx_id" := JStr spdx ]} ]})).

Ltac keys_present :=
  unfold has_keys, release_keys;
  repeat (constructor; [eexists; reflexivity|]); constructor.

Lemma release_versions_distinct_witness :
  validate_releases [minimal_release; minimal_release] "abcd" 0 ∅ =
    (Exit (DuplicateVersion "abcd" (JStr "1.0.0")), {[ "1.0.0" ]} ∪ ∅) /\
  snd (validate_release minimal_release "abcd" 0 ∅) = {[ "1.0.0" ]} ∪ ∅.
Proof.
  split.
  - apply (proj1 (proj2 release_versions_distinct)
             "abcd" [minimal_release] minimal_release [] 0 ∅
             ({[ "1.0.0" ]} ∪ ∅) minimal_release "1.0.0").
    + vm_compute. reflexivity.
    + apply list_elem_of_here.
    + reflexivity.
    + keys_present.
    + reflexivity.
  - apply (proj2 (proj2 release_versions_distinct)
             minimal_release "abcd" 0 ∅ "1.0.0").
    + keys_present.
    + reflexivity.
    + vm_compute. reflexivity.
    + apply not_elem_of_empty.
Defined.

Lemma compiler_drop_range_witness :
  validate_release (release_with_drop 2 1) "abcd" 0 ∅ =
    (Exit (InvalidRange "abcd" 0), {[ "1.0.0" ]} ∪ ∅) /\
  release_compiler_drop (release_with_drop 1 1) "abcd" 0 ({[ "1.0.0" ]} ∪ ∅) =
    (Ret tt, {[ "1.0.0" ]} ∪ ∅).
Proof.
  split.
  - refine (proj1 (compiler_drop_range (release_with_drop 2 1) "abcd" 0 ∅
             "1.0.0" "2024-01-01"
             (JObj {[ "min" := JInt 2; "tested-on" := JInt 1 ]})
             (JInt 2) (JInt 1) 2 1 _ _ _ _ _ _ _ _ _ _ _ _ _) _);
      [ keys_present | reflexivity | vm_compute; reflexivity
      | apply not_elem_of_empty | reflexivity | vm_compute; reflexivity
      | reflexivity | reflexivity | reflexivity | reflexivity | reflexivity
      | lia | lia | lia ].
  - refine (proj1 (proj2 (compiler_drop_range (release_with_drop 1 1) "abcd"
             0 ∅ "1.0.0" "2024-01-01"
             (JObj {[ "min" := JInt 1; "tested-on" := JInt 1 ]})
             (JInt 1) (JInt 1) 1 1 _ _ _ _ _ _ _ _ _ _ _ _ _) _));
      [ keys_present | reflexivity | vm_compute; reflexivity
      | apply not_elem_of_empty | reflexivity | vm_compute; reflexivity
      | reflexivity | reflexivity | reflexivity | reflexivity | reflexivity
      | lia | lia | lia ].
Defined.

(** Two files with the stem [abcd] in the directories [a] and [b]; the
    second holds a descriptor with another name. *)
Definition two_directories : world :=
  World true [["b"; "abcd.json"]; ["a"; "abcd.json"]]
        (fun p => if decide (p = ["a"; "abcd.json"])
                  then Loaded minimal_descriptor
                  else Loaded (JObj {[ "name" := JStr "other" ]}))
        None (fun _ _ => OtherError).

Lemma duplicate_package_rejected_witness :
  Path.sorted (rglob_json two_directories) =
    [["a"; "abcd.json"]; ["b"; "abcd.json"]] /\
  main two_directories true = Exit (DuplicatePackage "abcd").
Proof.
  split; [vm_compute; reflexivity|].
  apply (proj1 (proj2 duplicate_package_rejected) two_directories true
           [["a"; "abcd.json"]] ["b"; "abcd.json"] [] ({[ "abcd" ]} ∪ ∅)
           ["a"; "abcd.json"]).
  - reflexivity.
  - vm_compute. reflexivity.
  - vm_compute. reflexivity.
  - apply list_elem_of_here.
  - reflexivity.
Defined.

Lemma license_must_be_mit_witness :
  validate_package_file (registry [["abcd.json"]] "Apache-2.0")
    ["abcd.json"] false None =
    Exit (LicenseRejected "abcd" (JStr "Apache-2.0")) /\
  validate_package_file (registry [["abcd.json"]] "MIT")
    ["abcd.json"] false None = Ret tt.
Proof.
  split.
  - refine (proj1 (proj2 (license_must_be_mit
             (registry [["abcd.json"]] "Apache-2.0") ["abcd.json"] None
             minimal_descriptor "o" "r" ({[ "1.0.0" ]} ∪ ∅)
             (JObj {[ "license" := JObj {[ "spdx_id" := JStr "Apache-2.0" ]} ]})
             _ _ _ _))
             (JObj {[ "spdx_id" := JStr "Apache-2.0" ]}) "Apache-2.0" _ _ _ _);
      [ reflexivity | vm_compute; reflexivity | reflexivity | reflexivity
      | reflexivity | reflexivity | discriminate | discriminate ].
  - refine (proj1 (license_must_be_mit
             (registry [["abcd.json"]] "MIT") ["abcd.json"] None
             minimal_descriptor "o" "r" ({[ "1.0.0" ]} ∪ ∅)
             (JObj {[ "license" := JObj {[ "spdx_id" := JStr "MIT" ]} ]})
             _ _ _ _)
             (JObj {[ "spdx_id" := JStr "MIT" ]}) _ _);
      [ reflexivity | vm_compute; reflexivity | reflexivity | reflexivity
      | reflexivity | reflexivity ].
Defined.

Lemma offline_run_deterministic_witness :
  main (World true [["b.json"]; ["abcd.json"]]
          (fun _ => Loaded minimal_descriptor) None (fun _ _ => OtherError))
       true =
  main (World true [["abcd.json"]; ["b.json"]]
          (fun _ => Loaded minimal_descriptor) (Some "token")
          (fun _ _ => HTTPError 404))
       true.
Proof.
  apply (proj1 offline_run_deterministic).
  - reflexivity.
  - simpl. apply Permutation_swap.
  - reflexivity.
Defined.

(** * Further properties

    The rest of the script: the patterns as sets of strings, the failures
    of [validate_release] and [validate_package_file] one by one and what
    exactly they accept, the online checks, and [main] as a whole. *)

(** ** The matcher on a character class *)


(** [rep] on a character class, by recursion on the input: one more
    character first, the continuation when that fails. *)
Fixpoint greedy (p : ascii -> bool) (lo : nat) (hi : option nat)
    (n pos : nat) (s : list ascii) (cs : captures) (k : cont)
    : option captures :=
  let stop := if (lo <=? n)%nat then k pos s cs else None in
  match s with
  | x :: s' =>
      if below n hi && p x then
        match greedy p lo hi (S n) (S pos) s' cs k with
        | Some r => Some r
        | None => stop
        end
      else stop
  | [] => stop
  end.

Lemma rep_cls p lo hi fuel n pos s cs k :
  length s <= fuel ->
  rep (bt (Cls p)) lo hi fuel n pos s cs k = greedy p lo hi n pos s cs k.
Proof.
  revert n pos s. induction fuel as [|fuel IH]; intros n pos s Hlen.
  - destruct s; [reflexivity|simpl in Hlen; lia].
  - destruct s as [|x s]; simpl.
    + now destruct (below n hi).
    + destruct (below n hi); [|reflexivity]. simpl.
      destruct (p x); [|reflexivity].
      replace (pos <? S pos)%nat with true by (symmetry; apply Nat.ltb_lt; lia).
      rewrite IH by (simpl in Hlen; lia). reflexivity.
Qed.

Lemma bt_rep_cls p lo hi pos s cs k :
  bt (Rep lo hi (Cls p)) pos s cs k = greedy p lo hi 0 pos s cs k.
Proof. simpl. now apply rep_cls. Qed.

(** A continuation that fails on an input that starts in the class [p]. *)
Definition rejects (p : ascii -> bool) (k : cont) : Prop :=
  forall pos x s cs, p x = true -> k pos (x :: s) cs = None.

Definition fits (hi : option nat) (n : nat) : bool :=
  match hi with
  | None => true
  | Some h => (n <=? h)%nat
  end.

(** Before such a continuation only the longest run of the class can
    match, and only when its length is within the bounds. *)
Lemma greedy_rejects p lo hi n pos s cs k :
  rejects p k ->
  fits hi n = true ->
  greedy p lo hi n pos s cs k =
    let (run, rest) := span p s in
    if (lo <=? n + length run)%nat && fits hi (n + length run)
    then k (pos + length run) rest cs
    else None.
Proof.
  intros Hk. revert n pos. induction s as [|x s IH]; intros n pos Hn.
  - simpl. rewrite !Nat.add_0_r, Hn, andb_true_r. reflexivity.
  - simpl. destruct (p x) eqn:Hx.
    + rewrite (Hk pos x s cs Hx).
      destruct (below n hi) eqn:Hb; simpl.
      * rewrite IH.
        2:{ destruct hi as [h|]; [|reflexivity]. unfold fits, below in *.
            apply Nat.leb_le. apply Nat.ltb_lt in Hb. lia. }
        destruct (span p s) as [run rest]. simpl.
        rewrite !Nat.add_succ_r.
        destruct ((lo <=? S (n + length run))%nat && fits hi (S (n + length run)));
          [|now destruct (lo <=? n)%nat].
        destruct (k (S (pos + length run)) rest cs); [reflexivity|].
        now destruct (lo <=? n)%nat.
      * destruct (span p s) as [run rest]. simpl.
        destruct hi as [h|]; [|discriminate]. unfold fits, below in *.
        apply Nat.ltb_ge in Hb.
        replace (n + S (length run) <=? h)%nat with false
          by (symmetry; apply Nat.leb_gt; lia).
        rewrite andb_false_r. now destruct (lo <=? n)%nat.
    + rewrite andb_false_r. simpl. now rewrite !Nat.add_0_r, Hn, andb_true_r.
Qed.

Lemma span_run p run rest :
  forallb p run = true ->
  match rest with [] => True | x :: _ => p x = false end ->
  span p (run ++ rest) = (run, rest).
Proof.
  intros Hrun Hrest. induction run as [|y run IH]; simpl in *.
  - destruct rest as [|x rest]; [reflexivity|]. simpl. now rewrite Hrest.
  - apply andb_prop in Hrun as [Hy Hrun]. now rewrite Hy, IH.
Qed.

(** When the longest run of the class is [run]: the first continuation
    tried is the one after the whole run, and a repetition fails only when
    the continuation fails after every prefix of the run. *)
Lemma greedy_max p lo n pos run rest cs k r :
  forallb p run = true ->
  match rest with [] => True | x :: _ => p x = false end ->
  lo <= n + length run ->
  k (pos + length run) rest cs = Some r ->
  greedy p lo None n pos (run ++ rest) cs k = Some r.
Proof.
  intros Hrun Hrest. revert n pos.
  induction run as [|y run IH]; intros n pos Hlo Hk; simpl in *.
  - rewrite !Nat.add_0_r in *.
    assert (Hle : (lo <=? n)%nat = true) by (apply Nat.leb_le; lia).
    destruct rest as [|x rest]; simpl; rewrite ?Hrest, Hle; exact Hk.
  - apply andb_prop in Hrun as [Hy Hrun]. rewrite Hy.
    rewrite (IH Hrun (S n) (S pos)); [reflexivity|lia|].
    now rewrite Nat.add_succ_r in Hk.
Qed.

Lemma greedy_none p lo n pos run rest cs k :
  forallb p run = true ->
  match rest with [] => True | x :: _ => p x = false end ->
  (forall m, m <= length run ->
             k (pos + m) (drop m (run ++ rest)) cs = None) ->
  greedy p lo None n pos (run ++ rest) cs k = None.
Proof.
  intros Hrun Hrest. revert n pos.
  induction run as [|y run IH]; intros n pos Hk; simpl in *.
  - specialize (Hk 0 (Nat.le_refl _)). rewrite Nat.add_0_r, drop_0 in Hk.
    destruct rest as [|x rest]; simpl; rewrite ?Hrest, Hk;
      now destruct (lo <=? n)%nat.
  - apply andb_prop in Hrun as [Hy Hrun]. rewrite Hy.
    rewrite (IH Hrun (S n) (S pos)).
    + specialize (Hk 0 (Nat.le_0_l _)). rewrite Nat.add_0_r in Hk.
      simpl in Hk. rewrite Hk. now destruct (lo <=? n)%nat.
    + intros m Hm. specialize (Hk (S m)). simpl in Hk.
      rewrite Nat.add_succ_r in Hk. apply Hk. lia.
Qed.

(** ** Strings and a final line feed *)

(** [pattern.match] succeeds on the characters [l]. *)
Definition accepts (r : regex) (l : list ascii) : bool :=
  match bt r 0 l [] (fun _ _ cs => Some cs) with
  | Some _ => true
  | None => false
  end.

(** What [$] accepts: the end of the input, or one line feed that ends
    it. *)
Definition at_end (l : list ascii) : bool :=
  match l with
  | [] => true
  | [c] => Ascii.eqb c "010"
  | _ => false
  end.

(** [l] without the line feed that ends it, when one does. *)
Fixpoint chomp_chars (l : list ascii) : option (list ascii) :=
  match l with
  | [] => None
  | [c] => if Ascii.eqb c "010" then Some [] else None
  | c :: l' => option_map (cons c) (chomp_chars l')
  end.

Definition chomp (s : string) : option string :=
  option_map string_of_list_ascii (chomp_chars (list_ascii_of_string s)).

(** [s] has the shape, or is a string of the shape followed by one line
    feed. *)
Definition or_newline (shape : string -> bool) (s : string) : bool :=
  shape s || match chomp s with Some s' => shape s' | None => false end.

Definition or_newline_chars (shape : list ascii -> bool) (l : list ascii)
    : bool :=
  shape l || match chomp_chars l with Some l' => shape l' | None => false end.

(** [n] characters of the class [hex]. *)
Definition hex_string (n : nat) (s : string) : bool :=
  (String.length s =? n)%nat && forallb hex (list_ascii_of_string s).

(** A character of [a-z0-9] and then 1 to 62 characters of
    [a-z0-9._-]. *)
Definition package_name_shape (s : string) : bool :=
  match list_ascii_of_string s with
  | c :: rest =>
      name_first c &&
      ((1 <=? length rest)%nat && (length rest <=? 62)%nat &&
       forallb name_rest rest)
  | [] => false
  end.

Lemma matches_accepts r s : matches r s = accepts r (list_ascii_of_string s).
Proof. reflexivity. Qed.

Lemma bt_seq r1 r2 pos l cs k :
  bt (Seq r1 r2) pos l cs k =
  bt r1 pos l cs (fun pos' l' cs' => bt r2 pos' l' cs' k).
Proof. reflexivity. Qed.

Lemma bt_bol r l cs k : bt (Seq Bol r) 0 l cs k = bt r 0 l cs k.
Proof. reflexivity. Qed.

Lemma bt_cls p pos x l cs k :
  bt (Cls p) pos (x :: l) cs k = if p x then k (S pos) l cs else None.
Proof. reflexivity. Qed.

Lemma bt_lit c pos x l cs k :
  bt (Lit c) pos (x :: l) cs k = if Ascii.eqb x c then k (S pos) l cs else None.
Proof. reflexivity. Qed.

Lemma bt_eol pos l cs k :
  bt Eol pos l cs k = if at_end l then k pos l cs else None.
Proof. destruct l as [|c [|d l]]; reflexivity. Qed.

Lemma list_ascii_app (s t : string) :
  list_ascii_of_string (s ++ t) =
  (list_ascii_of_string s ++ list_ascii_of_string t)%list.
Proof. induction s as [|c s IH]; simpl; [reflexivity|now rewrite IH]. Qed.

Lemma list_ascii_inj (s t : string) :
  list_ascii_of_string s = list_ascii_of_string t -> s = t.
Proof.
  intros H. rewrite <- (string_of_list_ascii_of_string s),
    <- (string_of_list_ascii_of_string t). now rewrite H.
Qed.

Lemma list_ascii_length (s : string) :
  length (list_ascii_of_string s) = String.length s.
Proof. induction s as [|c s IH]; simpl; [reflexivity|now rewrite IH]. Qed.

Lemma chomp_chars_cons c d l :
  chomp_chars (c :: d :: l) = option_map (cons c) (chomp_chars (d :: l)).
Proof. reflexivity. Qed.

Lemma chomp_chars_snoc l : chomp_chars (l ++ ["010"%char])%list = Some l.
Proof.
  induction l as [|c l IH]; [reflexivity|].
  change ((c :: l) ++ ["010"%char])%list with (c :: (l ++ ["010"%char]))%list.
  destruct (l ++ ["010"%char])%list as [|d t] eqn:E; [now destruct l|].
  now rewrite chomp_chars_cons, IH.
Qed.

Lemma chomp_chars_inv l l' :
  chomp_chars l = Some l' -> l = (l' ++ ["010"%char])%list.
Proof.
  revert l'. induction l as [|c l IH]; intros l'; [discriminate|].
  destruct l as [|d l].
  - simpl. destruct (Ascii.eqb c "010") eqn:E; [|discriminate].
    apply Ascii.eqb_eq in E. now intros [= <-]; subst.
  - rewrite chomp_chars_cons.
    destruct (chomp_chars (d :: l)) as [t|]; [|discriminate].
    intros [= <-]. simpl. f_equal. now apply IH.
Qed.

(** [chomp s] is [s'] exactly when [s] is [s'] and a line feed. *)
Lemma chomp_newline s s' : chomp s = Some s' <-> s = s' ++ newline.
Proof.
  unfold chomp. split.
  - destruct (chomp_chars (list_ascii_of_string s)) as [l|] eqn:E;
      [|discriminate].
    intros [= <-]. apply chomp_chars_inv in E. apply list_ascii_inj.
    now rewrite list_ascii_app, list_ascii_of_string_of_list_ascii.
  - intros ->. rewrite list_ascii_app. simpl.
    rewrite chomp_chars_snoc. simpl.
    now rewrite string_of_list_ascii_of_string.
Qed.

Lemma or_newline_true shape s :
  or_newline shape s = true <->
  shape s = true \/ exists t, s = t ++ newline /\ shape t = true.
Proof.
  unfold or_newline. rewrite orb_true_iff. split; intros [H|H]; auto.
  - right. destruct (chomp s) as [t|] eqn:E; [|discriminate].
    exists t. split; [now apply chomp_newline|exact H].
  - destruct H as (t & Hs & Ht). apply chomp_newline in Hs.
    rewrite Hs. auto.
Qed.

Lemma or_newline_of_chars shape shape_chars s :
  (forall t, shape t = shape_chars (list_ascii_of_string t)) ->
  or_newline shape s = or_newline_chars shape_chars (list_ascii_of_string s).
Proof.
  intros H. unfold or_newline, or_newline_chars, chomp. rewrite H.
  destruct (chomp_chars (list_ascii_of_string s)) as [l|]; [|reflexivity].
  simpl. now rewrite H, list_ascii_of_string_of_list_ascii.
Qed.

(** *** Runs of a class *)

Lemma span_app p l :
  l = (fst (span p l) ++ snd (span p l))%list /\
  forallb p (fst (span p l)) = true /\
  match snd (span p l) with [] => True | x :: _ => p x = false end.
Proof.
  induction l as [|x l IH]; simpl; [now repeat split|].
  destruct (p x) eqn:Hx; [|now repeat split].
  destruct (span p l) as [run rest]. simpl in *.
  destruct IH as (-> & Hrun & Hrest). rewrite Hx. now repeat split.
Qed.

Lemma span_forallb p l :
  forallb p l = match snd (span p l) with [] => true | _ => false end.
Proof.
  induction l as [|x l IH]; simpl; [reflexivity|].
  destruct (p x); [|reflexivity]. simpl. rewrite IH.
  now destruct (span p l).
Qed.

(** A class that excludes the line feed, on a string that ends with
    one. *)
Lemma span_snoc_newline p l :
  p "010"%char = false ->
  span p (l ++ ["010"%char])%list =
  (fst (span p l), (snd (span p l) ++ ["010"%char])%list).
Proof.
  intros Hnl. induction l as [|x l IH]; simpl; [now rewrite Hnl|].
  destruct (p x); [|reflexivity]. rewrite IH. now destruct (span p l).
Qed.

Lemma at_end_snoc l :
  at_end (l ++ ["010"%char])%list = match l with [] => true | _ => false end.
Proof. destruct l as [|c [|d l]]; reflexivity. Qed.

(** The strings of [n] characters of a class that excludes the line feed,
    with [Q n], or such a string and a line feed: those whose longest run
    of the class is such a string and ends at [$]. *)
Lemma or_newline_run p (Q : nat -> bool) l :
  p "010"%char = false ->
  or_newline_chars (fun l => Q (length l) && forallb p l) l =
  Q (length (fst (span p l))) && at_end (snd (span p l)).
Proof.
  intros Hnl. unfold or_newline_chars.
  destruct (chomp_chars l) as [l'|] eqn:E.
  - apply chomp_chars_inv in E. subst l.
    rewrite forallb_app. simpl. rewrite Hnl, andb_false_r, andb_false_r.
    simpl. rewrite span_snoc_newline by assumption. simpl.
    rewrite at_end_snoc, span_forallb.
    destruct (span_app p l') as (Hl & _ & _).
    destruct (span p l') as [run rest]. simpl in *.
    destruct rest; [|now rewrite !andb_false_r].
    rewrite app_nil_r in Hl. now subst.
  - rewrite orb_false_r, span_forallb.
    destruct (span_app p l) as (Hl & _ & Hrest).
    destruct (span p l) as [run rest]. simpl in *.
    destruct rest as [|x [|y rest]];
      [|simpl|simpl; now rewrite !andb_false_r].
    + rewrite app_nil_r in Hl. now subst.
    + destruct (Ascii.eqb x "010") eqn:Hx; [|now rewrite !andb_false_r].
      apply Ascii.eqb_eq in Hx. subst. now rewrite chomp_chars_snoc in E.
Qed.

(** [$] after a class that excludes the line feed fails inside a run of
    the class. *)
Lemma rejects_eol p k :
  p "010"%char = false -> rejects p (fun pos s cs => bt Eol pos s cs k).
Proof.
  intros Hnl pos x s cs Hx. rewrite bt_eol.
  destruct s; [|reflexivity]. simpl.
  destruct (Ascii.eqb x "010") eqn:E; [|reflexivity].
  apply Ascii.eqb_eq in E. congruence.
Qed.

(** A repetition of such a class up to [$]. *)
Lemma bt_run_eol p lo hi pos l cs :
  p "010"%char = false ->
  bt (Seq (Rep lo hi (Cls p)) Eol) pos l cs (fun _ _ cs' => Some cs') =
  if (lo <=? length (fst (span p l)))%nat && fits hi (length (fst (span p l))) &&
     at_end (snd (span p l))
  then Some cs else None.
Proof.
  intros Hnl. rewrite bt_seq, bt_rep_cls, greedy_rejects;
    [|now apply rejects_eol|now destruct hi].
  destruct (span p l) as [run rest]. cbn [fst snd]. rewrite Nat.add_0_l.
  destruct ((lo <=? length run)%nat && fits hi (length run));
    [|reflexivity].
  now rewrite bt_eol.
Qed.

(** *** The patterns of hashes and of package names *)

Lemma accepts_hex n l :
  accepts (seqs [Bol; exactly n (Cls hex); Eol]) l =
  or_newline_chars (fun l => (length l =? n)%nat && forallb hex l) l.
Proof.
  rewrite (or_newline_run hex (fun m => (m =? n)%nat)) by reflexivity.
  unfold accepts, exactly. cbn [seqs].
  rewrite bt_bol, bt_run_eol by reflexivity. cbn [fits].
  replace ((n <=? length (fst (span hex l)))%nat &&
           (length (fst (span hex l)) <=? n)%nat)
    with (length (fst (span hex l)) =? n)%nat.
  - now destruct (_ && _).
  - destruct (Nat.eqb_spec (length (fst (span hex l))) n) as [->|Hne].
    + now rewrite Nat.leb_refl.
    + symmetry. apply andb_false_iff.
      rewrite !Nat.leb_gt. lia.
Qed.

Lemma matches_hex n s :
  matches (seqs [Bol; exactly n (Cls hex); Eol]) s = or_newline (hex_string n) s.
Proof.
  rewrite matches_accepts, accepts_hex. symmetry.
  apply or_newline_of_chars. intros t. unfold hex_string.
  now rewrite list_ascii_length.
Qed.

Lemma or_newline_chars_cons (g : ascii -> bool) (h : list ascii -> bool) c l :
  or_newline_chars
    (fun l => match l with x :: rest => g x && h rest | [] => false end)
    (c :: l) =
  g c && or_newline_chars h l.
Proof.
  unfold or_newline_chars. destruct l as [|d l].
  - simpl. destruct (Ascii.eqb c "010"); now rewrite !orb_false_r.
  - rewrite chomp_chars_cons.
    destruct (chomp_chars (d :: l)); simpl;
      [now rewrite andb_orb_distrib_r|now rewrite !orb_false_r].
Qed.

Lemma matches_name s : matches NAME_RE s = or_newline package_name_shape s.
Proof.
  rewrite matches_accepts.
  transitivity
    (or_newline_chars
       (fun l => match l with
                 | x :: rest =>
                     name_first x &&
                     (fun r => (1 <=? length r)%nat && (length r <=? 62)%nat &&
                               forallb name_rest r) rest
                 | [] => false
                 end) (list_ascii_of_string s));
    [|symmetry; apply or_newline_of_chars; reflexivity].
  destruct (list_ascii_of_string s) as [|c l]; [reflexivity|].
  rewrite or_newline_chars_cons.
  rewrite (or_newline_run name_rest
             (fun m => (1 <=? m)%nat && (m <=? 62)%nat)) by reflexivity.
  unfold accepts, NAME_RE. cbn [seqs].
  rewrite bt_bol, bt_seq, bt_cls.
  destruct (name_first c); [|reflexivity].
  rewrite bt_run_eol by reflexivity. cbn [fits andb].
  now destruct (_ && _).
Qed.

(** *** The pattern of dates *)

Definition date_chars (l : list ascii) : bool :=
  match l with
  | [y1; y2; y3; y4; h1; m1; m2; h2; d1; d2] =>
      forallb digit [y1; y2; y3; y4; m1; m2; d1; d2] &&
      Ascii.eqb h1 "-" && Ascii.eqb h2 "-"
  | _ => false
  end.

Ltac split_tests :=
  repeat (match goal with
          | |- context [digit ?c] => destruct (digit c) eqn:?
          | |- context [Ascii.eqb ?c ?d] => destruct (Ascii.eqb c d) eqn:?
          end; cbn);
  repeat match goal with
         | H : digit _ = _ |- _ => rewrite ?H in *; clear H
         | H : Ascii.eqb _ _ = _ |- _ => rewrite ?H in *; clear H
         end;
  cbn; try reflexivity; try congruence.

Lemma chomp_chars_length l l' :
  chomp_chars l = Some l' -> length l = S (length l').
Proof.
  intros H. apply chomp_chars_inv in H. subst.
  rewrite length_app. simpl. lia.
Qed.

Lemma date_chars_length l : date_chars l = true -> length l = 10.
Proof.
  do 11 (destruct l as [|? l]; try discriminate). reflexivity.
Qed.

Lemma accepts_date l : accepts DATE_RE l = or_newline_chars date_chars l.
Proof.
  unfold accepts, or_newline_chars, DATE_RE.
  do 12 (destruct l as [|? l]; [cbn; split_tests|]).
  replace (date_chars _) with false by reflexivity.
  match goal with
  | |- _ = false || match chomp_chars ?big with _ => _ end =>
      destruct (chomp_chars big) as [t|] eqn:E
  end.
  - apply chomp_chars_length in E. simpl in E.
    destruct (date_chars t) eqn:Ht; [apply date_chars_length in Ht; lia|].
    cbn; split_tests.
  - cbn; split_tests.
Qed.

Lemma matches_date s : matches DATE_RE s = or_newline spec_date s.
Proof.
  rewrite matches_accepts, accepts_date. symmetry.
  now apply or_newline_of_chars.
Qed.

(** *** The pattern of versions *)

(** [\d+\.\d+\.\d+] at the start of [l]: what is left after it. *)
Definition version_core (l : list ascii) : option (list ascii) :=
  (((digits l ≫= dot) ≫= digits) ≫= dot) ≫= digits.

(** What may follow: nothing, or [-] and a non-empty run of
    [a-zA-Z0-9.]. *)
Definition version_tail (l : list ascii) : bool :=
  match l with
  | [] => true
  | "-"%char :: pre =>
      match pre with [] => false | _ => forallb prerelease pre end
  | _ => false
  end.

Definition semver_chars (l : list ascii) : bool :=
  match version_core l with
  | Some rest => version_tail rest
  | None => false
  end.

Definition is_some {A} (o : option A) : bool :=
  match o with Some _ => true | None => false end.

Definition positive (n : nat) : bool :=
  match n with 0 => false | _ => true end.

Lemma spec_semver_chars s : spec_semver s = semver_chars (list_ascii_of_string s).
Proof. reflexivity. Qed.

Lemma dot_cons c l :
  dot (c :: l) = if Ascii.eqb c "." then Some l else None.
Proof.
  destruct (Ascii.eqb c ".") eqn:E.
  - apply Ascii.eqb_eq in E. now subst.
  - destruct c as [[] [] [] [] [] [] [] []]; try reflexivity; discriminate.
Qed.

Lemma version_tail_cons c l :
  version_tail (c :: l) =
  Ascii.eqb c "-" && (positive (length l) && forallb prerelease l).
Proof.
  destruct (Ascii.eqb c "-") eqn:E.
  - apply Ascii.eqb_eq in E. subst. now destruct l.
  - destruct c as [[] [] [] [] [] [] [] []]; try reflexivity; discriminate.
Qed.

(** **** Repetitions in the pattern *)

Lemma rep_done step lo hi fuel n pos s cs k :
  below n hi = false -> (lo <=? n)%nat = true ->
  rep step lo hi fuel n pos s cs k = k pos s cs.
Proof. intros Hb Hlo. destruct fuel; simpl; now rewrite ?Hb, Hlo. Qed.

(** The matcher looks at its continuation through its results only. *)
Lemma rep_ext step lo hi fuel :
  (forall pos s cs k k',
      (forall p t c, k p t c = k' p t c) -> step pos s cs k = step pos s cs k') ->
  forall n pos s cs k k',
    (forall p t c, k p t c = k' p t c) ->
    rep step lo hi fuel n pos s cs k = rep step lo hi fuel n pos s cs k'.
Proof.
  intros Hstep. induction fuel as [|fuel IH]; intros n pos s cs k k' H; simpl;
    rewrite H; [reflexivity|].
  destruct (below n hi); [|reflexivity].
  erewrite Hstep; [reflexivity|].
  intros p t c. simpl. destruct (pos <? p)%nat; [now apply IH|reflexivity].
Qed.

Lemma bt_ext r : forall pos s cs k k',
  (forall p t c, k p t c = k' p t c) -> bt r pos s cs k = bt r pos s cs k'.
Proof.
  induction r as [| |c|p|r1 IH1 r2 IH2|lo hi r IH|i r IH];
    intros pos s cs k k' H; simpl.
  - now rewrite H.
  - destruct s as [|x [|y s]]; now rewrite ?H.
  - destruct s as [|x s]; now rewrite ?H.
  - destruct s as [|x s]; now rewrite ?H.
  - apply IH1. intros p t c. now apply IH2.
  - now apply rep_ext.
  - apply IH. intros p t c. apply H.
Qed.

(** [r?]: [r] first, when it consumes something; without it
    otherwise. *)
Lemma bt_opt r pos l cs k :
  bt (opt r) pos l cs k =
  match l with
  | [] => k pos l cs
  | _ =>
      match bt r pos l cs
              (fun pos' l' cs' =>
                 if (pos <? pos')%nat then k pos' l' cs' else None) with
      | Some x => Some x
      | None => k pos l cs
      end
  end.
Proof.
  destruct l as [|c l]; [reflexivity|].
  change (bt (opt r) pos (c :: l) cs k)
    with (match bt r pos (c :: l) cs
                  (fun pos' s' cs' =>
                     if (pos <? pos')%nat
                     then rep (bt r) 0 (Some 1) (length l) 1 pos' s' cs' k
                     else None) with
          | Some x => Some x
          | None => k pos (c :: l) cs
          end).
  erewrite bt_ext; [reflexivity|].
  intros p t c'. cbv beta. destruct (pos <? p)%nat; [|reflexivity].
  now apply rep_done.
Qed.

(** [p+] before a continuation that fails inside a run of [p]: the longest
    run, which must not be empty. *)
Lemma bt_plus p pos l cs k :
  rejects p k ->
  bt (plus (Cls p)) pos l cs k =
  match fst (span p l) with
  | [] => None
  | _ => k (pos + length (fst (span p l))) (snd (span p l)) cs
  end.
Proof.
  intros Hk. unfold plus. rewrite bt_rep_cls, greedy_rejects by easy.
  destruct (span p l) as [run rest]. cbn [fst snd fits].
  rewrite andb_true_r. now destruct run.
Qed.

Lemma rejects_lit p c r k :
  p c = false -> rejects p (fun pos s cs => bt (Seq (Lit c) r) pos s cs k).
Proof.
  intros Hc pos x s cs Hx. rewrite bt_seq, bt_lit.
  destruct (Ascii.eqb x c) eqn:E; [|reflexivity].
  apply Ascii.eqb_eq in E. congruence.
Qed.

Lemma bt_digits r pos l cs k :
  rejects digit (fun pos' s' cs' => bt r pos' s' cs' k) ->
  is_some (bt (Seq (plus (Cls digit)) r) pos l cs k) =
  match digits l with
  | Some rest =>
      is_some (bt r (pos + length (fst (span digit l))) rest cs k)
  | None => false
  end.
Proof.
  intros Hk. rewrite bt_seq, bt_plus by exact Hk. unfold digits.
  destruct (span digit l) as [[|x run] rest]; reflexivity.
Qed.

Lemma bt_dot r pos l cs k :
  is_some (bt (Seq (Lit ".") r) pos l cs k) =
  match dot l with
  | Some rest => is_some (bt r (S pos) rest cs k)
  | None => false
  end.
Proof.
  destruct l as [|c l]; [reflexivity|].
  rewrite bt_seq, bt_lit, dot_cons. now destruct (Ascii.eqb c ".").
Qed.

(** **** The end of a version *)

(** [(-[a-zA-Z0-9.]+)?$]. *)
Definition version_end : regex :=
  Seq (opt (Grp 1 (Seq (Lit "-") (plus (Cls prerelease))))) Eol.

Lemma or_newline_version_tail l :
  or_newline_chars version_tail l =
  match l with
  | [] => true
  | c :: pre =>
      if Ascii.eqb c "-"
      then positive (length (fst (span prerelease pre))) &&
           at_end (snd (span prerelease pre))
      else at_end l
  end.
Proof.
  destruct l as [|c pre]; [reflexivity|].
  rewrite <- (or_newline_run prerelease positive pre eq_refl).
  unfold or_newline_chars.
  rewrite version_tail_cons.
  destruct (Ascii.eqb c "-") eqn:Hc; simpl andb.
  - destruct pre as [|d pre].
    + apply Ascii.eqb_eq in Hc. now subst.
    + rewrite chomp_chars_cons.
      destruct (chomp_chars (d :: pre)) as [t|] eqn:E; simpl option_map;
        cbv iota; [|reflexivity].
      rewrite version_tail_cons, Hc. reflexivity.
  - simpl orb. destruct pre as [|d pre].
    + simpl. now destruct (Ascii.eqb c "010").
    + rewrite ?chomp_chars_cons.
      destruct (chomp_chars (d :: pre)) as [t|]; cbn [option_map];
        [|reflexivity].
      now rewrite version_tail_cons, Hc.
Qed.

Lemma bt_grp i r pos l cs k :
  bt (Grp i r) pos l cs k =
  bt r pos l cs (fun pos' l' cs' => k pos' l' ((i, take (pos' - pos) l) :: cs')).
Proof. reflexivity. Qed.

Lemma bt_version_end pos l cs :
  is_some (bt version_end pos l cs (fun _ _ cs' => Some cs')) =
  or_newline_chars version_tail l.
Proof.
  rewrite or_newline_version_tail. unfold version_end.
  rewrite bt_seq, bt_opt. destruct l as [|c pre]; [reflexivity|].
  rewrite bt_grp, bt_seq, bt_lit, (bt_eol pos).
  assert (Hend : Ascii.eqb c "-" = true -> at_end (c :: pre) = false).
  { intros Hc. apply Ascii.eqb_eq in Hc. subst. now destruct pre. }
  destruct (Ascii.eqb c "-"); [|now destruct (at_end (c :: pre))].
  rewrite Hend by reflexivity. rewrite bt_plus.
  - destruct (span prerelease pre) as [[|x run] rest]; [reflexivity|].
    cbn [fst snd length positive andb].
    replace (pos <? S pos + S (length run))%nat with true
      by (symmetry; apply Nat.ltb_lt; lia).
    rewrite bt_eol. now destruct (at_end rest).
  - intros pos' x s cs' Hx. cbv beta.
    destruct (pos <? pos')%nat; [|reflexivity].
    now apply (rejects_eol prerelease (fun _ _ cs0 => Some cs0) eq_refl pos' x s).
Qed.

Lemma rejects_version_end :
  rejects digit (fun pos l cs => bt version_end pos l cs (fun _ _ cs' => Some cs')).
Proof.
  intros pos x s cs Hx.
  pose proof (bt_version_end pos (x :: s) cs) as H.
  rewrite or_newline_version_tail in H.
  assert (Hc : Ascii.eqb x "-" = false).
  { destruct (Ascii.eqb x "-") eqn:E; [|reflexivity].
    apply Ascii.eqb_eq in E. now subst. }
  assert (Hn : at_end (x :: s) = false).
  { destruct s; [|reflexivity]. simpl.
    destruct (Ascii.eqb x "010") eqn:E; [|reflexivity].
    apply Ascii.eqb_eq in E. now subst. }
  rewrite Hc, Hn in H.
  now destruct (bt version_end pos (x :: s) cs _).
Qed.

(** **** Parsing before a final line feed *)

(** A parser of a prefix that treats a final line feed as what it leaves
    over. *)
Definition stable (P : list ascii -> option (list ascii)) : Prop :=
  (forall l, P (l ++ ["010"%char])%list =
             option_map (fun rest => rest ++ ["010"%char])%list (P l)) /\
  (forall l rest, P l = Some rest -> exists pre, l = (pre ++ rest)%list).

Lemma stable_digits : stable digits.
Proof.
  split.
  - intros l. unfold digits. rewrite span_snoc_newline by reflexivity.
    now destruct (span digit l) as [[|x run] rest].
  - intros l rest. unfold digits.
    destruct (span_app digit l) as (Hl & _ & _).
    destruct (span digit l) as [[|x run] rest']; [discriminate|].
    intros [= <-]. eauto.
Qed.

Lemma stable_dot : stable dot.
Proof.
  split.
  - intros [|c l]; [reflexivity|].
    change ((c :: l) ++ ["010"%char])%list with (c :: (l ++ ["010"%char]))%list.
    rewrite !dot_cons. now destruct (Ascii.eqb c ".").
  - intros [|c l] rest; [discriminate|].
    rewrite dot_cons. destruct (Ascii.eqb c "."); [|discriminate].
    intros [= <-]. now exists [c].
Qed.

Lemma stable_bind P Q : stable P -> stable Q -> stable (fun l => P l ≫= Q).
Proof.
  intros [HP1 HP2] [HQ1 HQ2]. split.
  - intros l. rewrite HP1. destruct (P l) as [r|]; simpl; [apply HQ1|reflexivity].
  - intros l rest. destruct (P l) as [r|] eqn:E; simpl; [|discriminate].
    intros H. apply HP2 in E as [pre1 ->]. apply HQ2 in H as [pre2 ->].
    exists (pre1 ++ pre2)%list. now rewrite app_assoc.
Qed.

Lemma stable_version_core : stable version_core.
Proof.
  unfold version_core.
  repeat (apply (stable_bind _ _); [|apply stable_digits || apply stable_dot]).
  apply stable_digits.
Qed.

Lemma or_newline_after P f l :
  stable P ->
  match P l with
  | Some rest => or_newline_chars f rest
  | None => false
  end =
  or_newline_chars
    (fun l => match P l with Some rest => f rest | None => false end) l.
Proof.
  intros [HP1 HP2]. unfold or_newline_chars at 2.
  destruct (chomp_chars l) as [l'|] eqn:E.
  - apply chomp_chars_inv in E. subst l. rewrite HP1.
    destruct (P l') as [r|]; simpl; [|reflexivity].
    unfold or_newline_chars. now rewrite chomp_chars_snoc.
  - rewrite orb_false_r. destruct (P l) as [rest|] eqn:HP; [|reflexivity].
    unfold or_newline_chars.
    destruct (chomp_chars rest) as [t|] eqn:E2; [|apply orb_false_r].
    apply HP2 in HP as [pre ->]. apply chomp_chars_inv in E2. subst rest.
    now rewrite app_assoc, chomp_chars_snoc in E.
Qed.

Lemma accepts_version l : accepts VERSION_RE l = or_newline_chars semver_chars l.
Proof.
  unfold semver_chars.
  rewrite <- (or_newline_after version_core version_tail)
    by apply stable_version_core.
  change (accepts VERSION_RE l)
    with (is_some (bt VERSION_RE 0 l [] (fun _ _ cs => Some cs))).
  unfold VERSION_RE, version_core. cbn [seqs]. fold version_end.
  rewrite bt_bol, bt_digits by (now apply rejects_lit).
  destruct (digits l) as [l1|]; [|reflexivity]. cbn [mbind option_bind].
  rewrite bt_dot.
  destruct (dot l1) as [l2|]; [|reflexivity]. cbn [mbind option_bind].
  rewrite bt_digits by (now apply rejects_lit).
  destruct (digits l2) as [l3|]; [|reflexivity]. cbn [mbind option_bind].
  rewrite bt_dot.
  destruct (dot l3) as [l4|]; [|reflexivity]. cbn [mbind option_bind].
  rewrite bt_digits by apply rejects_version_end.
  destruct (digits l4) as [l5|]; [|reflexivity].
  apply bt_version_end.
Qed.

Lemma matches_version s : matches VERSION_RE s = or_newline spec_semver s.
Proof.
  rewrite matches_accepts, accepts_version. symmetry.
  apply or_newline_of_chars, spec_semver_chars.
Qed.

(** *** The pattern of repository URLs *)

Definition github_prefix : list ascii :=
  list_ascii_of_string "https://github.com/".

Definition segment (l : list ascii) : Prop :=
  l <> [] /\ forallb not_slash l = true.

Lemma not_slash_slash x : not_slash x = true -> Ascii.eqb x "/" = false.
Proof. unfold not_slash. now destruct (Ascii.eqb x "/"). Qed.

(** What may follow the repository segment: nothing, a slash, or a slash
    and a final line feed. *)
Definition url_tail (tail : list ascii) : bool :=
  match tail with
  | [] => true
  | ["/"%char] => true
  | ["/"%char; c] => Ascii.eqb c "010"
  | _ => false
  end.

(** The end of the pattern, [/?$], after the repository segment. *)
Lemma github_url_end pos tail cs :
  match tail with [] => True | x :: _ => x = "/"%char end ->
  bt (Seq (opt (Lit "/")) Eol) pos tail cs (fun _ _ cs' => Some cs') =
  if url_tail tail then Some cs else None.
Proof.
  destruct tail as [|x [|c [|d tail]]]; try reflexivity; intros ->; cbn.
  - rewrite Nat.leb_refl. reflexivity.
  - rewrite Nat.leb_refl. cbn.
    destruct (Ascii.eqb c "010"); reflexivity.
  - rewrite Nat.leb_refl. reflexivity.
Qed.

(** Inside the repository segment, with more input after it, [/?$] fails. *)
Lemma github_url_inside pos x rest cs :
  not_slash x = true -> rest <> [] ->
  bt (Seq (opt (Lit "/")) Eol) pos (x :: rest) cs (fun _ _ cs' => Some cs') = None.
Proof.
  intros Hx Hrest. destruct rest as [|y rest]; [congruence|].
  cbn. now rewrite (not_slash_slash x Hx).
Qed.

(** The repository segment and the end of the pattern, [([^/]+)/?$]. *)
Definition github_repo : regex :=
  Seq (Grp 2 (plus (Cls not_slash))) (Seq (opt (Lit "/")) Eol).

Lemma github_repo_match p0 seg tail cs :
  segment seg ->
  match tail with [] => True | x :: _ => x = "/"%char end ->
  bt github_repo p0 (seg ++ tail) cs (fun _ _ cs' => Some cs') =
  if url_tail tail then Some ((2, seg) :: cs) else None.
Proof.
  intros [Hseg1 Hseg2] Htail.
  assert (Hstop : match tail with [] => True | x :: _ => not_slash x = false end)
    by (destruct tail; [exact I|now subst]).
  unfold github_repo. cbn [bt]. unfold plus.
  fold (bt (Rep 1 None (Cls not_slash))). rewrite bt_rep_cls.
  destruct (url_tail tail) eqn:Hok.
  - apply greedy_max; [assumption|assumption| |].
    + destruct seg; [congruence|simpl; lia].
    + replace (p0 + length seg - p0) with (length seg) by lia.
      rewrite take_app_length.
      pose proof (github_url_end (p0 + length seg) tail ((2, seg) :: cs) Htail)
        as Hend.
      rewrite Hok in Hend. exact Hend.
  - apply greedy_none; [assumption|assumption|].
    intros m Hm. destruct (decide (m = length seg)) as [->|Hlt].
    + rewrite drop_app_length.
      pose proof (github_url_end (p0 + length seg) tail
                    ((2, take (p0 + length seg - p0) (seg ++ tail)) :: cs) Htail)
        as Hend.
      rewrite Hok in Hend. exact Hend.
    + rewrite drop_app_le by lia.
      destruct (drop m seg) as [|x rest] eqn:Hdrop.
      { apply (f_equal length) in Hdrop. rewrite length_drop in Hdrop.
        simpl in Hdrop. lia. }
      assert (Hx : not_slash x = true).
      { rewrite <- (take_drop m seg), forallb_app, Hdrop in Hseg2.
        apply andb_prop in Hseg2 as [_ Hseg2]. simpl in Hseg2.
        now apply andb_prop in Hseg2 as [Hseg2 _]. }
      apply (github_url_inside _ x (rest ++ tail) _ Hx).
      destruct tail; [discriminate|]. now destruct rest.
Qed.

(** The owner segment and the slash after it, [([^/]+)/], before any
    pattern [r]. *)
Lemma github_owner_match r p0 owner rest cs k :
  segment owner ->
  bt (Seq (Grp 1 (plus (Cls not_slash))) (Seq (Lit "/") r)) p0
     (owner ++ "/"%char :: rest) cs k =
  bt r (S (p0 + length owner)) rest ((1, owner) :: cs) k.
Proof.
  intros [Hown1 Hown2]. cbn [bt]. unfold plus.
  fold (bt (Rep 1 None (Cls not_slash))).
  rewrite bt_rep_cls, greedy_rejects; [|intros pos x s cs' Hx|reflexivity].
  2:{ now rewrite (not_slash_slash x Hx). }
  rewrite span_run; [|assumption|reflexivity].
  replace (1 <=? 0 + length owner)%nat with true
    by (symmetry; apply Nat.leb_le; destruct owner; [congruence|simpl; lia]).
  cbn [andb fits]. rewrite Ascii.eqb_refl.
  replace (p0 + length owner - p0) with (length owner) by lia.
  now rewrite take_app_length.
Qed.

Lemma github_url_match owner seg tail :
  segment owner ->
  segment seg ->
  match tail with [] => True | x :: _ => x = "/"%char end ->
  bt GITHUB_REPO_RE 0 (github_prefix ++ owner ++ "/"%char :: seg ++ tail) []
     (fun _ _ cs => Some cs) =
  if url_tail tail then Some [(2, seg); (1, owner)] else None.
Proof.
  intros Hown Hseg Htail.
  change (bt GITHUB_REPO_RE 0
            (github_prefix ++ owner ++ "/"%char :: seg ++ tail) []
            (fun _ _ cs => Some cs))
    with (bt (Seq (Grp 1 (plus (Cls not_slash))) (Seq (Lit "/") github_repo))
            19 (owner ++ "/"%char :: seg ++ tail) [] (fun _ _ cs => Some cs)).
  rewrite github_owner_match by assumption.
  now apply github_repo_match.
Qed.

(** The literal characters of a pattern. *)
Lemma bt_lits p : forall pos l cs k,
  bt (seqs (map Lit p)) pos l cs k =
  if Py.prefix_of p l then k (pos + length p) (drop (length p) l) cs else None.
Proof.
  induction p as [|c p IH]; intros pos l cs k.
  - simpl map. cbn [seqs]. rewrite Nat.add_0_r. simpl.
    now rewrite rep_done.
  - destruct p as [|c' p].
    + destruct l as [|x l]; [reflexivity|].
      simpl map. cbn [seqs]. rewrite bt_lit. simpl.
      rewrite andb_true_r, Nat.add_1_r, drop_0, (Ascii.eqb_sym c x).
      reflexivity.
    + change (seqs (map Lit (c :: c' :: p)))
        with (Seq (Lit c) (seqs (map Lit (c' :: p)))).
      rewrite bt_seq. destruct l as [|x l]; [reflexivity|].
      rewrite bt_lit, IH.
      change (Py.prefix_of (c :: c' :: p) (x :: l))
        with (Ascii.eqb c x && Py.prefix_of (c' :: p) l).
      rewrite (Ascii.eqb_sym c x).
      destruct (Ascii.eqb x c); [|reflexivity]. simpl andb.
      replace (S pos + length (c' :: p)) with (pos + length (c :: c' :: p))
        by (simpl; lia).
      reflexivity.
Qed.

Lemma prefix_of_app p l :
  Py.prefix_of p l = true -> l = (p ++ drop (length p) l)%list.
Proof.
  revert l. induction p as [|c p IH]; intros l; [reflexivity|].
  destruct l as [|x l]; [discriminate|]. simpl.
  intros H. apply andb_prop in H as [Hc H]. apply Ascii.eqb_eq in Hc.
  subst. f_equal. now apply IH.
Qed.

(** The owner and the repository segment of a URL, read from the left. *)
Definition github_parse (l : list ascii) : option captures :=
  if Py.prefix_of github_prefix l then
    let rest := drop (length github_prefix) l in
    let owner := fst (span not_slash rest) in
    match owner, snd (span not_slash rest) with
    | _ :: _, _ :: after =>
        let seg := fst (span not_slash after) in
        match seg with
        | _ :: _ =>
            if url_tail (snd (span not_slash after))
            then Some [(2, seg); (1, owner)]
            else None
        | [] => None
        end
    | _, _ => None
    end
  else None.

Lemma not_slash_false x : not_slash x = false -> x = "/"%char.
Proof.
  unfold not_slash. destruct (Ascii.eqb x "/") eqn:E; [|discriminate].
  now apply Ascii.eqb_eq in E.
Qed.

Lemma github_owner_none r p0 l cs k :
  match fst (span not_slash l), snd (span not_slash l) with
  | _ :: _, _ :: _ => False
  | _, _ => True
  end ->
  bt (Seq (Grp 1 (plus (Cls not_slash))) (Seq (Lit "/") r)) p0 l cs k = None.
Proof.
  intros H. rewrite bt_seq, bt_grp, bt_plus.
  - destruct (span not_slash l) as [[|x run] [|y rest]]; cbn [fst snd] in *;
      try reflexivity. contradiction.
  - intros pos x s cs' Hx. cbv beta.
    now apply (rejects_lit not_slash "/" r k eq_refl pos x s).
Qed.

Lemma github_repo_none p0 l cs k :
  fst (span not_slash l) = [] -> bt github_repo p0 l cs k = None.
Proof.
  intros H. unfold github_repo. rewrite bt_seq, bt_grp. unfold plus.
  rewrite bt_rep_cls. destruct l as [|x l]; [reflexivity|].
  simpl in *. destruct (not_slash x); [|reflexivity].
  now destruct (span not_slash l).
Qed.

Lemma github_parse_match l :
  bt GITHUB_REPO_RE 0 l [] (fun _ _ cs => Some cs) = github_parse l.
Proof.
  unfold github_parse.
  change GITHUB_REPO_RE
    with (Seq Bol (Seq (seqs (map Lit github_prefix))
            (Seq (Grp 1 (plus (Cls not_slash))) (Seq (Lit "/") github_repo)))).
  rewrite bt_bol, bt_seq, bt_lits.
  destruct (Py.prefix_of github_prefix l); [|reflexivity].
  generalize (drop (length github_prefix) l). clear l. intros l.
  destruct (span_app not_slash l) as (Hl & Hown & Hstop).
  destruct (span not_slash l) as [owner rest] eqn:Hspan. cbn [fst snd] in *.
  destruct owner as [|o owner].
  { apply github_owner_none. now rewrite Hspan. }
  destruct rest as [|c after].
  { apply github_owner_none. now rewrite Hspan. }
  apply not_slash_false in Hstop. subst c l.
  rewrite github_owner_match by (split; [discriminate|exact Hown]).
  destruct (span_app not_slash after) as (Ha & Hseg & Hstop).
  destruct (span not_slash after) as [seg tail] eqn:Hspan2.
  cbn [fst snd] in *.
  destruct seg as [|x seg].
  { apply github_repo_none. now rewrite Hspan2. }
  subst after. apply github_repo_match.
  - split; [discriminate|exact Hseg].
  - destruct tail as [|y tail]; [exact I|]. now apply not_slash_false.
Qed.

Lemma url_tail_cases tail :
  url_tail tail = true ->
  tail = [] \/ tail = ["/"%char] \/ tail = ["/"%char; "010"%char].
Proof.
  destruct tail as [|x [|c [|d tail]]]; simpl; auto.
  - destruct (Ascii.eqb x "/") eqn:E.
    + apply Ascii.eqb_eq in E. subst. auto.
    + destruct x as [[] [] [] [] [] [] [] []]; try discriminate.
  - destruct (Ascii.eqb x "/") eqn:E.
    + apply Ascii.eqb_eq in E. subst. intros H.
      apply Ascii.eqb_eq in H. subst. auto.
    + destruct x as [[] [] [] [] [] [] [] []]; try discriminate.
  - destruct x as [[] [] [] [] [] [] [] []]; discriminate.
Qed.

Lemma github_parse_inv l cs :
  github_parse l = Some cs ->
  exists owner seg tail,
    segment owner /\ segment seg /\ url_tail tail = true /\
    l = (github_prefix ++ owner ++ "/"%char :: seg ++ tail)%list /\
    cs = [(2, seg); (1, owner)].
Proof.
  unfold github_parse.
  destruct (Py.prefix_of github_prefix l) eqn:Hp; [|discriminate].
  apply prefix_of_app in Hp. revert Hp.
  generalize (drop (length github_prefix) l). intros rest ->.
  destruct (span_app not_slash rest) as (Hl & Hown & Hstop).
  destruct (span not_slash rest) as [owner after0]. cbn [fst snd] in *.
  destruct owner as [|o owner]; [discriminate|].
  destruct after0 as [|c after]; [discriminate|].
  apply not_slash_false in Hstop. subst c rest.
  destruct (span_app not_slash after) as (Ha & Hseg & _).
  destruct (span not_slash after) as [seg tail]. cbn [fst snd] in *.
  destruct seg as [|x seg]; [discriminate|].
  destruct (url_tail tail) eqn:Ht; [|discriminate].
  intros [= <-]. subst after.
  exists (o :: owner), (x :: seg), tail.
  repeat split; try discriminate; assumption.
Qed.

(** **** Repository URLs as strings *)

(** Lines 127-130: the owner and the repository segment that the pattern
    finds in [url]. *)
Definition repository_of (url : string) : option (string * string) :=
  match Re.re_match GITHUB_REPO_RE url with
  | Some groups => Some (group 1 groups, group 2 groups)
  | None => None
  end.

(** A non-empty string without a slash. *)
Definition is_segment (s : string) : Prop := segment (list_ascii_of_string s).

(** [https://github.com/<owner>/<repo><tail>]. *)
Definition github_url (owner repo tail : string) : string :=
  "https://github.com/" ++ owner ++ "/" ++ repo ++ tail.

Lemma github_url_chars owner repo tail :
  list_ascii_of_string (github_url owner repo tail) =
  (github_prefix ++ list_ascii_of_string owner ++
   "/"%char :: list_ascii_of_string repo ++ list_ascii_of_string tail)%list.
Proof.
  unfold github_url. rewrite !list_ascii_app. reflexivity.
Qed.

Lemma repository_of_url owner repo tail :
  is_segment owner -> is_segment repo ->
  tail = "" \/ tail = "/" \/ tail = "/" ++ newline ->
  repository_of (github_url owner repo tail) = Some (owner, repo).
Proof.
  intros Hown Hrepo Htail. unfold repository_of, Re.re_match.
  rewrite github_url_chars, github_url_match; trivial.
  - replace (url_tail (list_ascii_of_string tail)) with true
      by (now destruct Htail as [->|[->| ->]]).
    simpl. now rewrite !string_of_list_ascii_of_string.
  - now destruct Htail as [->|[->| ->]].
Qed.

Lemma repository_of_inv url owner repo :
  repository_of url = Some (owner, repo) ->
  is_segment owner /\ is_segment repo /\
  exists tail, (tail = "" \/ tail = "/" \/ tail = "/" ++ newline) /\
               url = github_url owner repo tail.
Proof.
  unfold repository_of, Re.re_match. rewrite github_parse_match.
  destruct (github_parse (list_ascii_of_string url)) as [cs|] eqn:E;
    [|discriminate].
  apply github_parse_inv in E
    as (o & seg & tail & Ho & Hseg & Ht & Hl & ->).
  simpl. intros [= <- <-]. unfold is_segment.
  rewrite !list_ascii_of_string_of_list_ascii. split; [|split]; trivial.
  exists (string_of_list_ascii tail). split.
  - apply url_tail_cases in Ht as [->|[->| ->]]; auto.
  - apply list_ascii_inj.
    now rewrite github_url_chars, !list_ascii_of_string_of_list_ascii.
Qed.

(** ** Required keys *)

Lemma require_keys_missing missing pre key post d seen :
  Forall (fun k => is_Some (d !! k)) pre ->
  d !! key = None ->
  require_keys missing (pre ++ key :: post) (JObj d) seen =
    (Exit (missing key), seen).
Proof.
  intros Hpre Hkey. induction Hpre as [|k pre [x Hk] _ IH]; simpl.
  - unfold_m. simpl. now rewrite Hkey.
  - unfold_m. simpl. rewrite Hk. simpl. exact IH.
Qed.

(** ** What [validate_release] accepts *)

(** The release [r] is a dict with a version [v] of the version pattern, a
    date, compiler-drop bounds [1 <= min <= tested-on] that are integers
    (or booleans, which Python counts among them), and a source with a
    commit and a hash of the hash patterns. *)
Definition well_formed_release (r : json) (v : string) : Prop :=
  has_version r v /\ matches VERSION_RE v = true /\
  (exists day,
      field r "releasedAt" = Some (JStr day) /\ matches DATE_RE day = true) /\
  (exists drop vmin vtested zmin ztested,
      field r "compiler-drop" = Some drop /\
      field drop "min" = Some vmin /\ int_value vmin = Some zmin /\
      field drop "tested-on" = Some vtested /\
      int_value vtested = Some ztested /\
      (1 <= zmin)%Z /\ (zmin <= ztested)%Z) /\
  (exists source commit sha256,
      field r "source" = Some source /\
      field source "commit" = Some (JStr commit) /\
      matches COMMIT_RE commit = true /\
      field source "sha256" = Some (JStr sha256) /\
      matches SHA256_RE sha256 = true).

Lemma release_version_dict r pkg idx seen seen' :
  release_version r pkg idx seen = (Ret tt, seen') -> Py.is_dict r = true.
Proof. unfold release_version. unfold_m. now destruct r. Qed.

Lemma release_released_at_accepted r pkg idx seen seen' :
  release_released_at r pkg idx seen = (Ret tt, seen') ->
  exists day,
    field r "releasedAt" = Some (JStr day) /\ matches DATE_RE day = true.
Proof.
  unfold release_released_at, matches. unfold_m.
  destruct r as [| | | | | |d]; try discriminate. simpl.
  destruct (d !! "releasedAt") as [[| | | |day| |]|]; simpl; try discriminate.
  destruct (Re.re_match DATE_RE day) eqn:Hm; simpl; [|discriminate].
  intros _. exists day. now rewrite Hm.
Qed.

Lemma int_value_lt v z :
  int_value v = Some z -> Py.lt v (JInt 1) = Ret (z <? 1)%Z.
Proof. destruct v; try discriminate; now intros [= <-]. Qed.

Lemma int_value_lt2 v v' z z' :
  int_value v = Some z -> int_value v' = Some z' ->
  Py.lt v v' = Ret (z <? z')%Z.
Proof.
  destruct v; try discriminate; intros [= <-];
    destruct v'; try discriminate; now intros [= <-].
Qed.

Lemma is_int_value v : Py.is_int v = true -> exists z, int_value v = Some z.
Proof. destruct v; try discriminate; simpl; eauto. Qed.

Lemma release_compiler_drop_accepted r pkg idx seen seen' :
  release_compiler_drop r pkg idx seen = (Ret tt, seen') ->
  exists drop vmin vtested zmin ztested,
    field r "compiler-drop" = Some drop /\
    field drop "min" = Some vmin /\ int_value vmin = Some zmin /\
    field drop "tested-on" = Some vtested /\
    int_value vtested = Some ztested /\
    (1 <= zmin)%Z /\ (zmin <= ztested)%Z.
Proof.
  unfold release_compiler_drop. unfold_m.
  destruct r as [| | | | | |d]; try discriminate. simpl.
  destruct (d !! "compiler-drop") as [drop|] eqn:Hdrop; [|discriminate].
  destruct drop as [| | | | | |dd]; try discriminate. simpl.
  destruct (dd !! "min") as [vmin|] eqn:Hmin; [|discriminate].
  destruct (dd !! "tested-on") as [vtested|] eqn:Htested; simpl.
  2:{ destruct (Py.is_int vmin); simpl; [|discriminate].
      destruct (Py.lt vmin (JInt 1)) as [[]| |]; discriminate. }
  destruct (Py.is_int vmin) eqn:Hi1; simpl; [|discriminate].
  apply is_int_value in Hi1 as [zmin Hzmin].
  rewrite (int_value_lt _ _ Hzmin).
  destruct (zmin <? 1)%Z eqn:H1; [discriminate|].
  destruct (Py.is_int vtested) eqn:Hi2; simpl; [|discriminate].
  apply is_int_value in Hi2 as [ztested Hztested].
  rewrite (int_value_lt _ _ Hztested).
  destruct (ztested <? 1)%Z eqn:H2; [discriminate|].
  rewrite (int_value_lt2 _ _ _ _ Hztested Hzmin).
  destruct (ztested <? zmin)%Z eqn:H3; [discriminate|].
  intros _. exists (JObj dd), vmin, vtested, zmin, ztested.
  apply Z.ltb_ge in H1, H3. repeat split; trivial.
Qed.

Lemma release_source_accepted r pkg idx seen seen' :
  release_source r pkg idx seen = (Ret tt, seen') ->
  exists source commit sha256,
    field r "source" = Some source /\
    field source "commit" = Some (JStr commit) /\
    matches COMMIT_RE commit = true /\
    field source "sha256" = Some (JStr sha256) /\
    matches SHA256_RE sha256 = true.
Proof.
  unfold release_source, matches. unfold_m.
  destruct r as [| | | | | |d]; try discriminate. simpl.
  destruct (d !! "source") as [source|] eqn:Hsource; [|discriminate].
  destruct source as [| | | | | |ds]; try discriminate. simpl.
  destruct (ds !! "commit") as [[| | | |commit| |]|] eqn:Hcommit; simpl;
    try discriminate.
  destruct (Re.re_match COMMIT_RE commit) eqn:Hc; simpl; [|discriminate].
  destruct (ds !! "sha256") as [[| | | |sha256| |]|] eqn:Hsha; simpl;
    try discriminate.
  destruct (Re.re_match SHA256_RE sha256) eqn:Hs; simpl; [|discriminate].
  intros _. exists (JObj ds), commit, sha256. simpl.
  rewrite Hc, Hs. repeat split; trivial.
Qed.

Lemma well_formed_release_keys r v :
  well_formed_release r v -> has_keys release_keys r.
Proof.
  intros (Hv & _ & (day & Hday & _) & (drop & ? & ? & ? & ? & Hdrop & _) &
          (source & ? & ? & Hsource & _)).
  unfold has_keys, release_keys. repeat constructor; eauto.
Qed.

Lemma validate_release_well_formed r pkg idx seen v :
  well_formed_release r v -> v ∉ seen ->
  validate_release r pkg idx seen = (Ret tt, {[ v ]} ∪ seen).
Proof.
  intros Hwf Hfresh. pose proof (well_formed_release_keys _ _ Hwf) as Hk.
  destruct Hwf as
    (Hv & Hmv & (day & Hday & Hmd) &
     (drop & vmin & vtested & zmin & ztested &
      Hdrop & Hmin & Hzmin & Htested & Hztested & H1 & H2) &
     (source & commit & sha256 & Hsource & Hcommit & Hmc & Hsha & Hms)).
  unfold validate_release.
  rewrite (bind_eq _ _ _ _ _ (release_required_present _ pkg idx seen Hk)).
  rewrite (bind_eq _ _ _ _ _ (release_version_fresh _ pkg idx _ _ Hv Hmv Hfresh)).
  rewrite (bind_eq _ _ _ _ _ (release_released_at_valid _ pkg idx _ _ Hday Hmd)).
  pose proof (release_compiler_drop_range r pkg idx ({[ v ]} ∪ seen)
                _ _ _ _ _ Hdrop Hmin Htested Hzmin Hztested H1
                (Z.le_trans _ _ _ H1 H2)) as Hcd.
  replace (ztested <? zmin)%Z with false in Hcd
    by (symmetry; now apply Z.ltb_ge).
  rewrite (bind_eq _ _ _ _ _ Hcd).
  eapply release_source_valid; eauto.
Qed.

Lemma validate_release_accepted_well_formed r pkg idx seen seen' :
  validate_release r pkg idx seen = (Ret tt, seen') ->
  exists v, well_formed_release r v /\ (v ∉ seen) /\ seen' = ({[ v ]} ∪ seen).
Proof.
  intros H. pose proof H as Hrun. unfold validate_release in H.
  apply bind_inv_ret in H as ([] & s1 & _ & H).
  apply bind_inv_ret in H as ([] & s2 & Hversion & H).
  apply release_version_dict in Hversion as Hd.
  apply validate_release_accepted in Hrun as (v & Hv & Hmv & Hfresh & ->);
    [|exact Hd].
  apply bind_inv_ret in H as ([] & s3 & Hdate & H).
  apply bind_inv_ret in H as ([] & s4 & Hdrop & Hsource).
  apply release_released_at_accepted in Hdate.
  apply release_compiler_drop_accepted in Hdrop.
  apply release_source_accepted in Hsource.
  exists v. repeat split; trivial.
Qed.

(** ** The loop over the releases *)

Lemma validate_releases_well_formed rs vs pkg idx seen :
  Forall2 well_formed_release rs vs ->
  NoDup vs ->
  Forall (fun v => v ∉ seen) vs ->
  validate_releases rs pkg idx seen = (Ret tt, list_to_set vs ∪ seen).
Proof.
  intros Hwf. revert idx seen.
  induction Hwf as [|r v rs vs Hr _ IH]; intros idx seen Hnd Hfresh.
  - simpl. now rewrite <- seen_nil.
  - apply NoDup_cons in Hnd as [Hv Hnd].
    apply Forall_cons in Hfresh as [Hfv Hfresh].
    simpl validate_releases.
    assert (Hd : Py.is_dict r = true).
    { destruct Hr as (Hver & _). exact (is_dict_field _ _ _ Hver). }
    rewrite Hd. simpl negb. unfold when at 1. rewrite bind_ret.
    rewrite (bind_eq _ _ _ _ _
               (validate_release_well_formed _ pkg idx _ _ Hr Hfv)).
    rewrite IH; trivial.
    + now rewrite seen_cons.
    + rewrite Forall_forall in *. intros x Hx Hin.
      apply elem_of_union in Hin as [Hin|Hin].
      * apply elem_of_singleton in Hin. now subst.
      * exact (Hfresh x Hx Hin).
Qed.

Lemma validate_releases_accepted_well_formed rs pkg idx seen seen' :
  validate_releases rs pkg idx seen = (Ret tt, seen') ->
  exists vs, Forall2 well_formed_release rs vs /\ NoDup vs /\
             Forall (fun v => v ∉ seen) vs /\
             seen' = (list_to_set vs ∪ seen).
Proof.
  revert idx seen. induction rs as [|r rs IH]; intros idx seen H.
  - injection H as <-. exists []. repeat split; try constructor.
    apply seen_nil.
  - simpl in H. apply bind_inv_ret in H as ([] & s0 & H0 & H).
    unfold when in H0. destruct (Py.is_dict r) eqn:Hd; [|discriminate].
    injection H0 as <-.
    apply bind_inv_ret in H as ([] & s1 & H1 & H).
    apply validate_release_accepted_well_formed in H1
      as (v & Hwf & Hin & ->).
    apply IH in H as (vs & Hvs & Hnd & Hfresh & ->).
    exists (v :: vs). repeat split.
    + now constructor.
    + constructor; [|done]. intros Hin'.
      rewrite Forall_forall in Hfresh. apply (Hfresh v Hin'), seen_head.
    + constructor; [done|]. eapply Forall_impl; [exact Hfresh|].
      simpl. intros x Hx. exact (seen_tail _ _ _ Hx).
    + apply seen_cons.
Qed.

Lemma validate_releases_not_object pkg pre r post idx seen seen1 :
  validate_releases pre pkg idx seen = (Ret tt, seen1) ->
  Py.is_dict r = false ->
  validate_releases (pre ++ r :: post) pkg idx seen =
    (Exit (ReleaseNotObject pkg (idx + length pre)), seen1).
Proof.
  intros Hpre Hd. rewrite validate_releases_app, (bind_eq _ _ _ _ _ Hpre).
  simpl. now rewrite Hd.
Qed.

Lemma validate_releases_failure pkg pre r post idx seen seen1 f seen2 :
  validate_releases pre pkg idx seen = (Ret tt, seen1) ->
  Py.is_dict r = true ->
  validate_release r pkg (idx + length pre) seen1 = (Exit f, seen2) ->
  validate_releases (pre ++ r :: post) pkg idx seen = (Exit f, seen2).
Proof.
  intros Hpre Hd Hr. rewrite validate_releases_app, (bind_eq _ _ _ _ _ Hpre).
  simpl. rewrite Hd. simpl. unfold bind at 1. simpl.
  now rewrite (bind_exit _ _ _ _ _ Hr).
Qed.

(** ** What [validate_package_file] accepts *)

(** Lines 131-132. *)
Definition strip_git (repo : string) : string :=
  if Py.endswith repo ".git" then Py.drop_last 4 repo else repo.

(** The fields of the descriptor [data] of the package [pkg] that come
    before the releases: the name [pkg], a schema version that is an
    integer (or a boolean) at least 1, a creation date and the repository
    [url]. *)
Definition well_formed_header (data : json) (pkg url : string) : Prop :=
  field data "name" = Some (JStr pkg) /\
  (exists sv z,
      field data "schema-version" = Some sv /\ int_value sv = Some z /\
      (1 <= z)%Z) /\
  (exists day,
      field data "createdAt" = Some (JStr day) /\ matches DATE_RE day = true) /\
  field data "repository" = Some (JStr url).

(** A descriptor with such fields and the non-empty list [rs] of
    releases. *)
Definition well_formed_package (data : json) (pkg url : string)
    (rs : list json) : Prop :=
  well_formed_header data pkg url /\
  field data "releases" = Some (JArr rs) /\ rs <> [].

Lemma eq_str_true v s : Py.eq_str v s = true -> v = JStr s.
Proof.
  destruct v; try discriminate. simpl. intros H.
  apply String.eqb_eq in H. now subst.
Qed.

Lemma well_formed_header_keys data pkg url rel :
  well_formed_header data pkg url ->
  field data "releases" = Some rel ->
  has_keys package_keys data.
Proof.
  intros (Hname & (sv & z & Hsv & _) & (day & Hca & _) & Hrepo) Hrel.
  unfold has_keys, package_keys. repeat constructor; eauto.
Qed.

(** After such fields the repository URL and the releases decide the
    outcome. *)
Lemma validate_package_data_header data pkg url rel seen :
  well_formed_header data pkg url ->
  field data "releases" = Some rel ->
  validate_package_data data pkg seen =
  match repository_of url with
  | None => (Exit (InvalidRepository pkg), seen)
  | Some (owner, seg) =>
      match rel with
      | JArr (r :: rs) =>
          match validate_releases (r :: rs) pkg 0 seen with
          | (Ret _, seen') => (Ret (owner, strip_git seg), seen')
          | (Exit f, seen') => (Exit f, seen')
          | (Raise e, seen') => (Raise e, seen')
          end
      | _ => (Exit (InvalidReleases pkg), seen)
      end
  end.
Proof.
  intros Hwf Hrel. pose proof (well_formed_header_keys _ _ _ _ Hwf Hrel) as Hk.
  destruct Hwf as
    (Hname & (sv & z & Hsv & Hz & Hz1) & (day & Hca & Hm) & Hrepo).
  destruct data as [| | | | | |d]; try discriminate.
  unfold validate_package_data.
  change (Py.is_dict (JObj d)) with true. simpl negb. unfold when at 1.
  rewrite bind_ret.
  rewrite (bind_eq _ _ _ _ _ (require_keys_present _ _ _ seen Hk)).
  simpl in Hname, Hsv, Hca, Hrepo, Hrel.
  unfold repository_of, matches, strip_git in *.
  unfold_m. simpl. rewrite Hname, Hsv, Hca, Hrepo, Hrel. simpl.
  rewrite String.eqb_refl. simpl.
  assert (Hint : Py.is_int sv = true) by (now destruct sv).
  rewrite Hint, (int_value_lt _ _ Hz). simpl.
  replace (z <? 1)%Z with false by (symmetry; now apply Z.ltb_ge).
  destruct (Re.re_match DATE_RE day); [|discriminate]. simpl.
  destruct (Re.re_match GITHUB_REPO_RE url) as [groups|]; [|reflexivity].
  simpl.
  now destruct rel as [| | | | |[|r rs]|].
Qed.

Lemma validate_package_data_run data pkg url rs seen :
  well_formed_package data pkg url rs ->
  validate_package_data data pkg seen =
  match repository_of url with
  | None => (Exit (InvalidRepository pkg), seen)
  | Some (owner, seg) =>
      match validate_releases rs pkg 0 seen with
      | (Ret _, seen') => (Ret (owner, strip_git seg), seen')
      | (Exit f, seen') => (Exit f, seen')
      | (Raise e, seen') => (Raise e, seen')
      end
  end.
Proof.
  intros (Hwf & Hrel & Hne).
  rewrite (validate_package_data_header _ _ _ _ _ Hwf Hrel).
  destruct rs; [congruence|reflexivity].
Qed.

Lemma validate_package_data_inv data pkg seen target seen' :
  validate_package_data data pkg seen = (Ret target, seen') ->
  exists url rs, well_formed_package data pkg url rs.
Proof.
  unfold validate_package_data.
  destruct data as [| | | | | |d]; try discriminate.
  intros H. apply bind_inv_ret in H as ([] & s0 & H0 & H). injection H0 as <-.
  apply bind_inv_ret in H as ([] & s1 & H1 & H).
  apply require_keys_inv in H1 as [Hk ->].
  unfold has_keys, package_keys in Hk. rewrite !Forall_cons in Hk.
  destruct Hk as ([name Hname] & [sv Hsv] & [repository Hrepo] & [rel Hrel] &
                  [ca Hca] & _).
  simpl in Hname, Hsv, Hrepo, Hrel, Hca.
  revert H. unfold_m. simpl. rewrite Hname, Hsv, Hrepo, Hca, Hrel. simpl.
  destruct (Py.eq_str name pkg) eqn:Hn; [|discriminate].
  apply eq_str_true in Hn. subst name. simpl.
  destruct (Py.is_int sv) eqn:Hi; simpl; [|discriminate].
  apply is_int_value in Hi as [z Hz]. rewrite (int_value_lt _ _ Hz).
  destruct (z <? 1)%Z eqn:Hz1; [discriminate|]. apply Z.ltb_ge in Hz1.
  destruct ca as [| | | |day| |]; try discriminate. simpl.
  destruct (Re.re_match DATE_RE day) eqn:Hm; [|discriminate]. simpl.
  destruct repository as [| | | |url| |]; try discriminate. simpl.
  destruct (Re.re_match GITHUB_REPO_RE url); [|discriminate]. simpl.
  destruct rel as [| | | | |rs|]; try discriminate. simpl.
  destruct rs as [|r rs]; [discriminate|]. intros _.
  exists url, (r :: rs).
  unfold well_formed_package, well_formed_header, matches. simpl.
  split; [|split; [exact Hrel|discriminate]].
  split; [exact Hname|]. split; [eauto|]. split; [|exact Hrepo].
  exists day. now rewrite Hm.
Qed.

Lemma strip_git_suffix s : strip_git (s ++ ".git") = s.
Proof.
  unfold strip_git, Py.endswith, Py.drop_last. rewrite list_ascii_app.
  change (list_ascii_of_string ".git") with [".";"g";"i";"t"]%char.
  rewrite length_app. simpl length.
  replace (length (list_ascii_of_string s) + 4 - 4)
    with (length (list_ascii_of_string s)) by lia.
  rewrite drop_app_length, take_app_length.
  replace (4 <=? length (list_ascii_of_string s) + 4)%nat with true
    by (symmetry; apply Nat.leb_le; lia).
  simpl. apply string_of_list_ascii_of_string.
Qed.

(** The offline outcome of a file. *)
Lemma validate_package_file_offline_run w p token :
  validate_package_file w p true token =
  match load w p with
  | JSONDecodeError => Exit (MalformedInput (Path.stem p))
  | Loaded data =>
      match fst (validate_package_data data (Path.stem p) ∅) with
      | Ret _ => Ret tt
      | Exit f => Exit f
      | Raise e => Raise e
      end
  end.
Proof.
  unfold validate_package_file, package_checks.
  destruct (load w p) as [|data]; [reflexivity|]. unfold bind.
  now destruct (validate_package_data data (Path.stem p) ∅)
    as [[[owner repo]|f|e] s].
Qed.

(** ** Online mode *)

(** The checks on the answer [meta] of the lookup, lines 155-158. *)
Definition license_checks (pkg : string) (meta : json) : outcome unit :=
  match meta with
  | JObj dm =>
      match Py.or_else (default JNull (dm !! "license")) (JObj ∅) with
      | JObj dl =>
          let spdx_id := default JNull (dl !! "spdx_id") in
          if Py.eq_str spdx_id "MIT" then Ret tt
          else Exit (LicenseRejected pkg (Py.or_else spdx_id (JStr "unknown")))
      | _ => Raise AttributeError
      end
  | _ => Raise AttributeError
  end.

Lemma online_checks_response w pkg owner repo token meta seen :
  http_json w (repo_url owner repo) token = Response meta ->
  online_checks w pkg owner repo token seen = (license_checks pkg meta, seen).
Proof.
  intros Hhttp. unfold online_checks. fold (repo_url owner repo).
  rewrite Hhttp. unfold license_checks.
  destruct meta as [| | | | | |dm]; try reflexivity.
  unfold_m. simpl.
  destruct (Py.or_else (default JNull (dm !! "license")) (JObj ∅));
    try reflexivity.
  simpl. now destruct (Py.eq_str _ "MIT").
Qed.

Lemma license_checks_raises pkg meta :
  license_checks pkg meta = Raise AttributeError <->
  Py.is_dict meta = false \/
  exists license, field meta "license" = Some license /\
                  Py.truthy license = true /\ Py.is_dict license = false.
Proof.
  unfold license_checks. destruct meta as [| | | | | |dm]; simpl;
    try (split; [now left|reflexivity]).
  unfold Py.or_else.
  destruct (dm !! "license") as [license|] eqn:Hl; simpl.
  - destruct (Py.truthy license) eqn:Ht.
    + destruct license; simpl;
        try (split; [intros _; right; eexists; now repeat split|reflexivity]).
      split.
      * destruct (Py.eq_str _ "MIT"); discriminate.
      * intros [|(x & [= <-] & _ & ?)]; discriminate.
    + split.
      * rewrite lookup_empty. discriminate.
      * intros [|(x & [= <-] & ? & _)]; congruence.
  - split.
    + rewrite lookup_empty. discriminate.
    + intros [|(x & ? & _)]; discriminate.
Qed.

Lemma license_checks_clean pkg meta e :
  license_checks pkg meta = Raise e -> e = AttributeError.
Proof.
  unfold license_checks. destruct meta; try (now intros [= <-]).
  destruct (Py.or_else _ _); try (now intros [= <-]).
  simpl. now destruct (Py.eq_str _ "MIT").
Qed.

Lemma license_checks_accepted pkg meta :
  license_checks pkg meta = Ret tt <->
  exists license, field meta "license" = Some license /\
                  field license "spdx_id" = Some (JStr "MIT").
Proof.
  unfold license_checks. split.
  - destruct meta as [| | | | | |dm]; try discriminate. simpl.
    unfold Py.or_else at 1.
    destruct (dm !! "license") as [license|]; simpl.
    + destruct (Py.truthy license).
      * destruct license as [| | | | | |dl]; try discriminate. simpl.
        destruct (dl !! "spdx_id") as [spdx|] eqn:Hs; [|discriminate]. simpl.
        destruct (Py.eq_str spdx "MIT") eqn:E; [|discriminate].
        apply eq_str_true in E. subst. intros _.
        exists (JObj dl). now split.
      * now rewrite lookup_empty.
    + now rewrite lookup_empty.
  - intros (license & Hl & Hid).
    destruct meta as [| | | | | |dm]; try discriminate. simpl in *.
    rewrite Hl. simpl. unfold Py.or_else.
    rewrite (truthy_field _ _ _ Hid).
    destruct license as [| | | | | |dl]; try discriminate. simpl in *.
    now rewrite Hid.
Qed.

(** ** What [main] accepts *)

Lemma validate_files_all w offline token files seen :
  Forall (fun p => valid_filename p = true) files ->
  NoDup (map Path.stem files) ->
  Forall (fun p => Path.stem p ∉ seen) files ->
  Forall (fun p => validate_package_file w p offline token = Ret tt) files ->
  validate_files w offline token files seen =
    (Ret tt, list_to_set (map Path.stem files) ∪ seen).
Proof.
  revert seen. induction files as [|p files IH]; intros seen Hv Hnd Hfresh Hok.
  - simpl. now rewrite (left_id_L ∅ (∪)).
  - apply Forall_cons in Hv as [Hvp Hv].
    apply Forall_cons in Hfresh as [Hfp Hfresh].
    apply Forall_cons in Hok as [Hokp Hok].
    simpl in Hnd. apply NoDup_cons in Hnd as [Hp Hnd].
    rewrite validate_files_cons. unfold_m. simpl.
    rewrite Hvp. simpl. rewrite bool_decide_false by exact Hfp.
    rewrite Hokp, IH; trivial.
    + now rewrite <- (seen_cons (Path.stem p) (map Path.stem files)).
    + rewrite Forall_forall in *. intros q Hq Hin.
      apply elem_of_union in Hin as [Hin|Hin].
      * apply elem_of_singleton in Hin. apply Hp. rewrite <- Hin.
        apply list_elem_of_fmap. eauto.
      * exact (Hfresh q Hq Hin).
Qed.

Lemma sorted_nil (files : list path) : Path.sorted files = [] <-> files = [].
Proof.
  split.
  - intros H. pose proof (sorted_permutation files) as Hp. rewrite H in Hp.
    now apply Permutation_nil in Hp.
  - now intros ->.
Qed.

(** ** C6: the name check and a final line feed *)

Lemma invalid_filename_of_shape p :
  package_name_shape (Path.stem p) = false ->
  (forall n, Path.stem p = n ++ newline -> package_name_shape n = false) ->
  valid_filename p = false.
Proof.
  intros Hs Hn. unfold valid_filename. rewrite matches_name.
  destruct (or_newline package_name_shape (Path.stem p)) eqn:E; [|reflexivity].
  apply or_newline_true in E as [E|(n & Hp & E)]; [congruence|].
  rewrite (Hn n Hp) in E. discriminate.
Qed.

Lemma main_invalid_content w p content offline :
  valid_filename p = false ->
  main (with_content w p content) offline = main w offline.
Proof.
  intros Hname. unfold main. simpl.
  destruct (packages_dir_exists w); [|reflexivity]. simpl.
  destruct (Path.sorted (rglob_json w)) as [|q files]; [reflexivity|].
  now rewrite validate_files_invalid_content.
Qed.

(** The minimal descriptor under another name. *)
Definition descriptor_named (name : string) : json :=
  JObj {[ "name" := JStr name;
          "schema-version" := JInt 1;
          "repository" := JStr "https://github.com/o/r";
          "createdAt" := JStr "2024-01-01";
          "releases" := JArr [minimal_release] ]}.

(** A file whose stem is [ab] and a line feed, and the registry that holds
    this file only, with the content [content]. *)
Definition newline_file : path := ["ab" ++ newline ++ ".json"].

Definition newline_registry (content : load_result) : world :=
  World true [newline_file] (fun _ => content) None (fun _ _ => OtherError).

(** C6.  With the name format as the spec words it
    ([package_name_shape]: a character of [a-z0-9] and 1 to 62 characters
    of [a-z0-9._-], the whole string): a file whose stem is not of the
    format, and is not a string of the format followed by a line feed
    either, makes the loop of [main] fail with [InvalidFilename] at that
    file; this is the outcome of the run when the files sorted before it
    pass, and replacing the content of the file, by a decoding error too,
    leaves the outcome of the run unchanged.  But the stem [ab] and a line
    feed, which is not of the format, passes the check of line 175: [$]
    matches before a line feed that ends the string.  The file is then
    read, and its content decides the run: a decoding error fails with
    [MalformedInput], a valid descriptor of that name is accepted. *)
Theorem invalid_filename_trailing_newline :
  (forall w offline p content,
      package_name_shape (Path.stem p) = false ->
      (forall n, Path.stem p = n ++ newline -> package_name_shape n = false) ->
      (forall token files seen,
          validate_files w offline token (p :: files) seen =
            (Exit (InvalidFilename p), seen)) /\
      (forall pre post seen1,
          packages_dir_exists w = true ->
          Path.sorted (rglob_json w) = (pre ++ p :: post)%list ->
          validate_files w offline (github_token w) pre ∅ = (Ret tt, seen1) ->
          main w offline = Exit (InvalidFilename p)) /\
      main (with_content w p content) offline = main w offline) /\
  Path.stem newline_file = "ab" ++ newline /\
  package_name_shape ("ab" ++ newline) = false /\
  valid_filename newline_file = true /\
  main (newline_registry JSONDecodeError) true =
    Exit (MalformedInput ("ab" ++ newline)) /\
  main (newline_registry (Loaded (descriptor_named ("ab" ++ newline)))) true =
    Ret (1, "offline").
Proof.
  split.
  - intros w offline p content Hshape Hnl.
    pose proof (invalid_filename_of_shape p Hshape Hnl) as Hname.
    split; [|split].
    + intros token files seen. now apply validate_files_invalid_filename.
    + intros pre post seen1 Hdir Hsorted Hpre.
      eapply main_first_failure; eauto.
      now apply validate_files_invalid_filename.
    + now apply main_invalid_content.
  - vm_compute. repeat split.
Qed.

(** ** C10: values of the wrong type *)

(** [check] holds of the value that [v] has under [key]. *)
Definition has_type (check : json -> bool) (v : json) (key : string) : bool :=
  match field v key with
  | Some x => check x
  | None => false
  end.

(** The types that lines 56-92 ask of a release and of its fields, and
    lines 104-141 of a descriptor, of its fields and of each of its
    releases: those of the [isinstance] checks, and a string as the name,
    which line 113 compares with the name of the file.  An absent value is
    not of the type. *)
Definition well_typed_release (r : json) : bool :=
  Py.is_dict r &&
  has_type Py.is_str r "version" &&
  has_type Py.is_str r "releasedAt" &&
  has_type (fun drop => Py.is_dict drop &&
                        has_type Py.is_int drop "min" &&
                        has_type Py.is_int drop "tested-on")
           r "compiler-drop" &&
  has_type (fun source => Py.is_dict source &&
                          has_type Py.is_str source "commit" &&
                          has_type Py.is_str source "sha256")
           r "source".

Definition well_typed_package (data : json) : bool :=
  Py.is_dict data &&
  has_type Py.is_str data "name" &&
  has_type Py.is_int data "schema-version" &&
  has_type Py.is_str data "createdAt" &&
  has_type Py.is_str data "repository" &&
  has_type (fun releases =>
              match releases with
              | JArr rs => forallb well_typed_release rs
              | _ => false
              end)
           data "releases".

Lemma int_value_is_int v z : int_value v = Some z -> Py.is_int v = true.
Proof. now destruct v. Qed.

Lemma field_is_dict v key x : field v key = Some x -> Py.is_dict v = true.
Proof. now destruct v. Qed.

Lemma well_formed_release_typed r v :
  well_formed_release r v -> well_typed_release r = true.
Proof.
  intros (Hv & _ & (day & Hday & _) &
          (drop & vmin & vtested & zmin & ztested &
           Hdrop & Hmin & Hzmin & Htested & Hztested & _) &
          (source & commit & sha256 & Hsource & Hcommit & _ & Hsha & _)).
  unfold has_version in Hv. unfold well_typed_release, has_type.
  rewrite (field_is_dict _ _ _ Hv), Hv, Hday, Hdrop, Hsource.
  rewrite (field_is_dict _ _ _ Hmin), Hmin, Htested.
  rewrite (int_value_is_int _ _ Hzmin), (int_value_is_int _ _ Hztested).
  rewrite (field_is_dict _ _ _ Hcommit), Hcommit, Hsha. reflexivity.
Qed.

Lemma well_formed_releases_typed rs vs :
  Forall2 well_formed_release rs vs -> forallb well_typed_release rs = true.
Proof.
  induction 1 as [|r v rs vs Hr _ IH]; [reflexivity|]. simpl.
  now rewrite (well_formed_release_typed _ _ Hr), IH.
Qed.

Lemma validate_release_typed r pkg idx seen seen' :
  validate_release r pkg idx seen = (Ret tt, seen') ->
  well_typed_release r = true.
Proof.
  intros H. apply validate_release_accepted_well_formed in H as (v & Hwf & _).
  exact (well_formed_release_typed _ _ Hwf).
Qed.

Lemma validate_package_data_typed data pkg seen target seen' :
  validate_package_data data pkg seen = (Ret target, seen') ->
  well_typed_package data = true.
Proof.
  intros H. pose proof H as Hrun.
  apply validate_package_data_inv in H as (url & rs & Hwf).
  rewrite (validate_package_data_run _ _ _ _ seen Hwf) in Hrun.
  destruct Hwf as
    ((Hname & (sv & z & Hsv & Hz & _) & (day & Hca & _) & Hrepo) & Hrel & _).
  unfold well_typed_package, has_type.
  rewrite (field_is_dict _ _ _ Hname), Hname, Hsv, Hca, Hrepo, Hrel.
  rewrite (int_value_is_int _ _ Hz). simpl.
  destruct (repository_of url) as [[owner seg]|]; [|discriminate].
  destruct (validate_releases rs pkg 0 seen) as [[[]|f|e] s] eqn:E;
    try discriminate.
  apply validate_releases_accepted_well_formed in E as (vs & Hvs & _).
  exact (well_formed_releases_typed _ _ Hvs).
Qed.

Lemma ill_typed_release_fails d pkg idx seen :
  well_typed_release (JObj d) = false ->
  exists f, fst (validate_release (JObj d) pkg idx seen) = Exit f.
Proof.
  intros Ht. pose proof (validate_release_clean d pkg idx seen) as Hc.
  unfold clean_at in Hc.
  destruct (validate_release (JObj d) pkg idx seen) as [[[]|f|e] s] eqn:E;
    simpl in *.
  - apply validate_release_typed in E. congruence.
  - now exists f.
  - discriminate.
Qed.

Lemma ill_typed_package_fails data pkg seen :
  well_typed_package data = false ->
  exists f, fst (validate_package_data data pkg seen) = Exit f.
Proof.
  intros Ht. pose proof (validate_package_data_clean data pkg seen) as Hc.
  unfold clean_at in Hc.
  destruct (validate_package_data data pkg seen) as [[target|f|e] s] eqn:E;
    simpl in *.
  - apply validate_package_data_typed in E. congruence.
  - now exists f.
  - discriminate.
Qed.

(** *** The failure at each position of a release *)

Lemma release_released_at_type r pkg idx seen x :
  Py.get r "releasedAt" = Ret x ->
  Py.is_str x = false ->
  release_released_at r pkg idx seen = (Exit (InvalidReleasedAt pkg idx), seen).
Proof.
  intros Hx Hs. unfold release_released_at. unfold_m. rewrite Hx, Hs.
  reflexivity.
Qed.

Lemma release_compiler_drop_type r pkg idx seen x :
  Py.get r "compiler-drop" = Ret x ->
  Py.is_dict x = false ->
  release_compiler_drop r pkg idx seen =
    (Exit (CompilerDropNotObject pkg idx), seen).
Proof.
  intros Hx Hd. unfold release_compiler_drop. unfold_m. rewrite Hx, Hd.
  reflexivity.
Qed.

Lemma get_is_dict v key x : Py.get v key = Ret x -> Py.is_dict v = true.
Proof. now destruct v. Qed.

Lemma release_min_type r pkg idx seen drop x :
  Py.get r "compiler-drop" = Ret drop ->
  Py.get drop "min" = Ret x ->
  Py.is_int x = false ->
  release_compiler_drop r pkg idx seen = (Exit (InvalidMin pkg idx), seen).
Proof.
  intros Hdrop Hx Hi. pose proof (get_is_dict _ _ _ Hx) as Hd.
  unfold release_compiler_drop. unfold_m. rewrite Hdrop, Hd. cbn [negb].
  rewrite Hx, Hi. cbn [negb].
  destruct drop as [| | | | | |d]; try discriminate. reflexivity.
Qed.

Lemma release_tested_on_type r pkg idx seen drop vmin zmin x :
  Py.get r "compiler-drop" = Ret drop ->
  Py.get drop "min" = Ret vmin ->
  int_value vmin = Some zmin ->
  (1 <= zmin)%Z ->
  Py.get drop "tested-on" = Ret x ->
  Py.is_int x = false ->
  release_compiler_drop r pkg idx seen = (Exit (InvalidTestedOn pkg idx), seen).
Proof.
  intros Hdrop Hmin Hz H1 Hx Hi. pose proof (get_is_dict _ _ _ Hx) as Hd.
  unfold release_compiler_drop. unfold_m. rewrite Hdrop, Hd. cbn [negb].
  rewrite Hmin, Hx, (int_value_is_int _ _ Hz), Hi, (int_value_lt _ _ Hz).
  cbn [negb]. replace (zmin <? 1)%Z with false
    by (symmetry; now apply Z.ltb_ge).
  reflexivity.
Qed.

Lemma release_source_type r pkg idx seen x :
  Py.get r "source" = Ret x ->
  Py.is_dict x = false ->
  release_source r pkg idx seen = (Exit (SourceNotObject pkg idx), seen).
Proof.
  intros Hx Hd. unfold release_source. unfold_m. rewrite Hx, Hd. reflexivity.
Qed.

Lemma release_commit_type r pkg idx seen source x :
  Py.get r "source" = Ret source ->
  Py.get source "commit" = Ret x ->
  Py.is_str x = false ->
  release_source r pkg idx seen = (Exit (InvalidCommit pkg idx), seen).
Proof.
  intros Hsource Hx Hs. pose proof (get_is_dict _ _ _ Hx) as Hd.
  unfold release_source. unfold_m. rewrite Hsource, Hd. cbn [negb].
  rewrite Hx, Hs. cbn [negb].
  destruct source as [| | | | | |d]; try discriminate. reflexivity.
Qed.

Lemma release_sha256_type r pkg idx seen source commit x :
  Py.get r "source" = Ret source ->
  Py.get source "commit" = Ret (JStr commit) ->
  matches COMMIT_RE commit = true ->
  Py.get source "sha256" = Ret x ->
  Py.is_str x = false ->
  release_source r pkg idx seen = (Exit (InvalidSha256 pkg idx), seen).
Proof.
  intros Hsource Hc Hm Hx Hs. pose proof (get_is_dict _ _ _ Hx) as Hd.
  unfold release_source, matches in *. unfold_m. rewrite Hsource, Hd.
  cbn [negb]. rewrite Hc, Hx, Hs. simpl.
  destruct (Re.re_match COMMIT_RE commit); [reflexivity|discriminate].
Qed.

(** The groups of [validate_release] run in turn: when the groups before
    one return, a failure of this one is the failure of the release. *)
Lemma validate_release_at_released_at r pkg idx seen s f s' :
  (release_required r pkg idx ;;; release_version r pkg idx) seen =
    (Ret tt, s) ->
  release_released_at r pkg idx s = (Exit f, s') ->
  validate_release r pkg idx seen = (Exit f, s').
Proof.
  intros Hpre Hg. unfold validate_release.
  apply bind_inv_ret in Hpre as ([] & s0 & H0 & H1).
  rewrite (bind_eq _ _ _ _ _ H0), (bind_eq _ _ _ _ _ H1).
  now apply bind_exit.
Qed.

Lemma validate_release_at_compiler_drop r pkg idx seen s f s' :
  (release_required r pkg idx ;;; release_version r pkg idx ;;;
   release_released_at r pkg idx) seen = (Ret tt, s) ->
  release_compiler_drop r pkg idx s = (Exit f, s') ->
  validate_release r pkg idx seen = (Exit f, s').
Proof.
  intros Hpre Hg. unfold validate_release.
  apply bind_inv_ret in Hpre as ([] & s0 & H0 & Hpre).
  apply bind_inv_ret in Hpre as ([] & s1 & H1 & H2).
  rewrite (bind_eq _ _ _ _ _ H0), (bind_eq _ _ _ _ _ H1),
    (bind_eq _ _ _ _ _ H2).
  now apply bind_exit.
Qed.

Lemma validate_release_at_source r pkg idx seen s f s' :
  (release_required r pkg idx ;;; release_version r pkg idx ;;;
   release_released_at r pkg idx ;;; release_compiler_drop r pkg idx) seen =
    (Ret tt, s) ->
  release_source r pkg idx s = (Exit f, s') ->
  validate_release r pkg idx seen = (Exit f, s').
Proof.
  intros Hpre Hg. unfold validate_release.
  apply bind_inv_ret in Hpre as ([] & s0 & H0 & Hpre).
  apply bind_inv_ret in Hpre as ([] & s1 & H1 & Hpre).
  apply bind_inv_ret in Hpre as ([] & s2 & H2 & H3).
  rewrite (bind_eq _ _ _ _ _ H0), (bind_eq _ _ _ _ _ H1),
    (bind_eq _ _ _ _ _ H2), (bind_eq _ _ _ _ _ H3).
  exact Hg.
Qed.

(** *** The failure at each position of a descriptor *)

Ltac package_fields Hk :=
  match type of Hk with
  | has_keys _ ?data =>
      let d := fresh "d" in
      destruct data as [| | | | | |d];
      try (exfalso; unfold has_keys, package_keys in Hk;
           apply Forall_cons in Hk as [[? Hk] _]; discriminate Hk);
      unfold validate_package_data;
      change (Py.is_dict (JObj d)) with true; simpl negb; unfold when at 1;
      rewrite bind_ret;
      rewrite (bind_eq _ _ _ _ _ (require_keys_present _ _ _ _ Hk));
      unfold has_keys, package_keys in Hk; rewrite !Forall_cons in Hk;
      destruct Hk as ([?name ?Hname] & [?sv ?Hsv] & [?repository ?Hrepo] &
                      [?rel ?Hrel] & [?ca ?Hca] & _);
      unfold matches in *; simpl field in *
  end.

Lemma package_root_type data pkg seen :
  Py.is_dict data = false ->
  validate_package_data data pkg seen = (Exit (RootNotObject pkg), seen).
Proof.
  intros Hd. unfold validate_package_data. unfold bind at 1. now rewrite Hd.
Qed.

Lemma package_name_type data pkg seen x :
  has_keys package_keys data ->
  field data "name" = Some x ->
  Py.is_str x = false ->
  validate_package_data data pkg seen = (Exit (NameMismatch pkg x), seen).
Proof.
  intros Hk Hx Hs. package_fields Hk.
  unfold_m. simpl. rewrite Hname in *. injection Hx as ->. simpl.
  now destruct x.
Qed.

Lemma package_schema_version_type data pkg seen x :
  has_keys package_keys data ->
  field data "name" = Some (JStr pkg) ->
  field data "schema-version" = Some x ->
  Py.is_int x = false ->
  validate_package_data data pkg seen = (Exit (InvalidSchemaVersion pkg), seen).
Proof.
  intros Hk Hn Hx Hi. package_fields Hk.
  unfold_m. simpl. rewrite Hname, Hsv in *. injection Hn as ->.
  injection Hx as ->. simpl. rewrite String.eqb_refl, Hi. reflexivity.
Qed.

Lemma package_created_at_type data pkg seen sv z x :
  has_keys package_keys data ->
  field data "name" = Some (JStr pkg) ->
  field data "schema-version" = Some sv ->
  int_value sv = Some z ->
  (1 <= z)%Z ->
  field data "createdAt" = Some x ->
  Py.is_str x = false ->
  validate_package_data data pkg seen = (Exit (InvalidCreatedAt pkg), seen).
Proof.
  intros Hk Hn Hv Hz H1 Hx Hs. package_fields Hk.
  unfold_m. simpl. rewrite Hname, Hsv, Hca in *. injection Hn as ->.
  injection Hv as ->. injection Hx as ->. simpl.
  rewrite String.eqb_refl, (int_value_is_int _ _ Hz), (int_value_lt _ _ Hz).
  simpl. replace (z <? 1)%Z with false by (symmetry; now apply Z.ltb_ge).
  rewrite Hs. reflexivity.
Qed.

Lemma package_repository_type data pkg seen sv z day x :
  has_keys package_keys data ->
  field data "name" = Some (JStr pkg) ->
  field data "schema-version" = Some sv ->
  int_value sv = Some z ->
  (1 <= z)%Z ->
  field data "createdAt" = Some (JStr day) ->
  matches DATE_RE day = true ->
  field data "repository" = Some x ->
  Py.is_str x = false ->
  validate_package_data data pkg seen = (Exit (RepositoryNotString pkg), seen).
Proof.
  intros Hk Hn Hv Hz H1 Hd Hm Hx Hs. package_fields Hk.
  unfold_m. simpl. rewrite Hname, Hsv, Hca, Hrepo in *. injection Hn as ->.
  injection Hv as ->. injection Hd as ->. injection Hx as ->. simpl.
  rewrite String.eqb_refl, (int_value_is_int _ _ Hz), (int_value_lt _ _ Hz).
  simpl. replace (z <? 1)%Z with false by (symmetry; now apply Z.ltb_ge).
  destruct (Re.re_match DATE_RE day); [|discriminate]. simpl.
  rewrite Hs. reflexivity.
Qed.

Lemma package_releases_type data pkg url seen x :
  well_formed_header data pkg url ->
  repository_of url <> None ->
  field data "releases" = Some x ->
  Py.is_list x = false ->
  validate_package_data data pkg seen = (Exit (InvalidReleases pkg), seen).
Proof.
  intros Hwf Hurl Hx Hl.
  rewrite (validate_package_data_header _ _ _ _ seen Hwf Hx).
  destruct (repository_of url) as [[owner seg]|]; [|congruence].
  now destruct x.
Qed.

Lemma package_release_type data pkg url rs seen pre x post s :
  well_formed_package data pkg url rs ->
  repository_of url <> None ->
  rs = (pre ++ x :: post)%list ->
  validate_releases pre pkg 0 seen = (Ret tt, s) ->
  Py.is_dict x = false ->
  validate_package_data data pkg seen =
    (Exit (ReleaseNotObject pkg (length pre)), s).
Proof.
  intros Hwf Hurl -> Hpre Hd.
  rewrite (validate_package_data_run _ _ _ _ seen Hwf).
  destruct (repository_of url) as [[owner seg]|]; [|congruence].
  now rewrite (validate_releases_not_object _ _ _ post _ _ _ Hpre Hd).
Qed.

Lemma package_release_failure data pkg url rs seen pre r post s f s' :
  well_formed_package data pkg url rs ->
  repository_of url <> None ->
  rs = (pre ++ r :: post)%list ->
  validate_releases pre pkg 0 seen = (Ret tt, s) ->
  Py.is_dict r = true ->
  validate_release r pkg (length pre) s = (Exit f, s') ->
  validate_package_data data pkg seen = (Exit f, s').
Proof.
  intros Hwf Hurl -> Hpre Hd Hr.
  rewrite (validate_package_data_run _ _ _ _ seen Hwf).
  destruct (repository_of url) as [[owner seg]|]; [|congruence].
  now rewrite (validate_releases_failure _ _ _ post _ _ _ _ _ Hpre Hd Hr).
Qed.

(** C10.  On a decoded JSON value, whatever value stands at whatever
    position, validation does not raise, and a value of the wrong type ends
    it in a failure reported through [fail].
    (1) [validate_package_data] (lines 104-142) returns or fails on every
    value, [validate_release] on every dict, which is all that line 142
    passes to it, and [validate_package_file] in offline mode on every file
    that line 100 decodes.
    (2) A descriptor that is not [well_typed_package], and a release dict
    that is not [well_typed_release], is not accepted: the run on it ends
    in a failure.
    (3) The failure is that of the first check the value does not pass.
    In a release: a [version] that is no string fails with the message of
    line 58; when the groups of checks before it return, a [releasedAt]
    that is no string fails with that of line 65, a [compiler-drop] that
    is no dict with that of line 69, a [min] that is no integer with that
    of line 75, after a valid [min] a [tested-on] that is no integer with
    that of line 78, a [source] that is no dict with that of line 84, a
    [commit] that is no string with that of line 90 and, after a valid
    [commit], a [sha256] that is no string with that of line 92.  In a
    descriptor: a root that is no dict fails with the message of line 105;
    with the required keys present, a [name] that is no string fails with
    that of line 114 and, each time after valid fields before it, a
    [schema-version] that is no integer with that of line 118, a
    [createdAt] that is no string with that of line 122, a [repository]
    that is no string with that of line 126, [releases] that is no list
    with that of line 136, a release that is no dict, after releases that
    pass, with that of line 141, and a release that fails, after releases
    that pass, with its own failure. *)
Theorem validation_never_raises :
  (forall data pkg seen,
      raises (fst (validate_package_data data pkg seen)) = false) /\
  (forall d pkg idx seen,
      raises (fst (validate_release (JObj d) pkg idx seen)) = false) /\
  (forall w p token data,
      load w p = Loaded data ->
      raises (validate_package_file w p true token) = false) /\
  (forall data pkg seen,
      well_typed_package data = false ->
      exists f, fst (validate_package_data data pkg seen) = Exit f) /\
  (forall d pkg idx seen,
      well_typed_release (JObj d) = false ->
      exists f, fst (validate_release (JObj d) pkg idx seen) = Exit f) /\
  (forall d pkg idx seen x,
      has_keys release_keys (JObj d) ->
      d !! "version" = Some x ->
      Py.is_str x = false ->
      validate_release (JObj d) pkg idx seen =
        (Exit (InvalidVersion pkg idx), seen)) /\
  (forall r pkg idx seen s x,
      (release_required r pkg idx ;;; release_version r pkg idx) seen =
        (Ret tt, s) ->
      Py.get r "releasedAt" = Ret x ->
      Py.is_str x = false ->
      validate_release r pkg idx seen =
        (Exit (InvalidReleasedAt pkg idx), s)) /\
  (forall r pkg idx seen s,
      (release_required r pkg idx ;;; release_version r pkg idx ;;;
       release_released_at r pkg idx) seen = (Ret tt, s) ->
      (forall x,
          Py.get r "compiler-drop" = Ret x ->
          Py.is_dict x = false ->
          validate_release r pkg idx seen =
            (Exit (CompilerDropNotObject pkg idx), s)) /\
      (forall drop x,
          Py.get r "compiler-drop" = Ret drop ->
          Py.get drop "min" = Ret x ->
          Py.is_int x = false ->
          validate_release r pkg idx seen = (Exit (InvalidMin pkg idx), s)) /\
      (forall drop vmin zmin x,
          Py.get r "compiler-drop" = Ret drop ->
          Py.get drop "min" = Ret vmin ->
          int_value vmin = Some zmin ->
          (1 <= zmin)%Z ->
          Py.get drop "tested-on" = Ret x ->
          Py.is_int x = false ->
          validate_release r pkg idx seen =
            (Exit (InvalidTestedOn pkg idx), s))) /\
  (forall r pkg idx seen s,
      (release_required r pkg idx ;;; release_version r pkg idx ;;;
       release_released_at r pkg idx ;;; release_compiler_drop r pkg idx) seen =
        (Ret tt, s) ->
      (forall x,
          Py.get r "source" = Ret x ->
          Py.is_dict x = false ->
          validate_release r pkg idx seen =
            (Exit (SourceNotObject pkg idx), s)) /\
      (forall source x,
          Py.get r "source" = Ret source ->
          Py.get source "commit" = Ret x ->
          Py.is_str x = false ->
          validate_release r pkg idx seen =
            (Exit (InvalidCommit pkg idx), s)) /\
      (forall source commit x,
          Py.get r "source" = Ret source ->
          Py.get source "commit" = Ret (JStr commit) ->
          matches COMMIT_RE commit = true ->
          Py.get source "sha256" = Ret x ->
          Py.is_str x = false ->
          validate_release r pkg idx seen =
            (Exit (InvalidSha256 pkg idx), s))) /\
  (forall data pkg seen,
      Py.is_dict data = false ->
      validate_package_data data pkg seen = (Exit (RootNotObject pkg), seen)) /\
  (forall data pkg seen x,
      has_keys package_keys data ->
      field data "name" = Some x ->
      Py.is_str x = false ->
      validate_package_data data pkg seen =
        (Exit (NameMismatch pkg x), seen)) /\
  (forall data pkg seen x,
      has_keys package_keys data ->
      field data "name" = Some (JStr pkg) ->
      field data "schema-version" = Some x ->
      Py.is_int x = false ->
      validate_package_data data pkg seen =
        (Exit (InvalidSchemaVersion pkg), seen)) /\
  (forall data pkg seen sv z x,
      has_keys package_keys data ->
      field data "name" = Some (JStr pkg) ->
      field data "schema-version" = Some sv ->
      int_value sv = Some z ->
      (1 <= z)%Z ->
      field data "createdAt" = Some x ->
      Py.is_str x = false ->
      validate_package_data data pkg seen =
        (Exit (InvalidCreatedAt pkg), seen)) /\
  (forall data pkg seen sv z day x,
      has_keys package_keys data ->
      field data "name" = Some (JStr pkg) ->
      field data "schema-version" = Some sv ->
      int_value sv = Some z ->
      (1 <= z)%Z ->
      field data "createdAt" = Some (JStr day) ->
      matches DATE_RE day = true ->
      field data "repository" = Some x ->
      Py.is_str x = false ->
      validate_package_data data pkg seen =
        (Exit (RepositoryNotString pkg), seen)) /\
  (forall data pkg url seen x,
      well_formed_header data pkg url ->
      repository_of url <> None ->
      field data "releases" = Some x ->
      Py.is_list x = false ->
      validate_package_data data pkg seen =
        (Exit (InvalidReleases pkg), seen)) /\
  (forall data pkg url rs seen pre x post s,
      well_formed_package data pkg url rs ->
      repository_of url <> None ->
      rs = (pre ++ x :: post)%list ->
      validate_releases pre pkg 0 seen = (Ret tt, s) ->
      (Py.is_dict x = false ->
       validate_package_data data pkg seen =
         (Exit (ReleaseNotObject pkg (length pre)), s)) /\
      (forall f s',
          Py.is_dict x = true ->
          validate_release x pkg (length pre) s = (Exit f, s') ->
          validate_package_data data pkg seen = (Exit f, s'))).
Proof.
  split; [intros; apply validate_package_data_clean|].
  split; [intros; apply validate_release_clean|].
  split; [intros w p token data; apply validate_package_file_offline_clean|].
  split; [apply ill_typed_package_fails|].
  split; [apply ill_typed_release_fails|].
  split; [apply validate_release_wrong_version|].
  split.
  { intros r pkg idx seen s x Hpre Hx Hs.
    eapply validate_release_at_released_at; [exact Hpre|].
    now apply release_released_at_type with x. }
  split.
  { intros r pkg idx seen s Hpre. split; [|split].
    - intros x Hx Hd. eapply validate_release_at_compiler_drop; [exact Hpre|].
      now apply release_compiler_drop_type with x.
    - intros drop x Hdrop Hx Hi.
      eapply validate_release_at_compiler_drop; [exact Hpre|].
      now apply release_min_type with drop x.
    - intros drop vmin zmin x Hdrop Hmin Hz H1 Hx Hi.
      eapply validate_release_at_compiler_drop; [exact Hpre|].
      now apply release_tested_on_type with drop vmin zmin x. }
  split.
  { intros r pkg idx seen s Hpre. split; [|split].
    - intros x Hx Hd. eapply validate_release_at_source; [exact Hpre|].
      now apply release_source_type with x.
    - intros source x Hsource Hx Hs.
      eapply validate_release_at_source; [exact Hpre|].
      now apply release_commit_type with source x.
    - intros source commit x Hsource Hc Hm Hx Hs.
      eapply validate_release_at_source; [exact Hpre|].
      now apply release_sha256_type with source commit x. }
  split; [apply package_root_type|].
  split; [apply package_name_type|].
  split; [apply package_schema_version_type|].
  split; [apply package_created_at_type|].
  split; [apply package_repository_type|].
  split; [apply package_releases_type|].
  intros data pkg url rs seen pre x post s Hwf Hurl Hrs Hpre. split.
  - intros Hd. now apply package_release_type with url rs x post.
  - intros f s' Hd Hr.
    now apply package_release_failure with url rs pre x post s.
Qed.

(** ** Statements *)

(** X1.  On a string whose characters are all code points below 256, which
    is what a [string] here holds, [DATE_RE] accepts exactly four digits
    [0-9], a hyphen, two digits, a hyphen and two digits, and such a string
    followed by one line feed.  The digits are not read as a calendar date.
    The [\d] of line 14 also matches the decimal digits of other scripts,
    whose code points lie above this range; of strings that hold such
    characters nothing is said here. *)
Theorem date_pattern (s : string) :
  matches DATE_RE s = true <->
  spec_date s = true \/ exists d, s = d ++ newline /\ spec_date d = true.
Proof. rewrite matches_date. apply or_newline_true. Qed.

(** X2.  [COMMIT_RE] accepts exactly the strings of 40 characters of
    [a-fA-F0-9] and these strings followed by one line feed; [SHA256_RE]
    does the same with 64 characters. *)
Theorem hash_patterns (s : string) :
  (matches COMMIT_RE s = true <->
   hex_string 40 s = true \/
   exists h, s = h ++ newline /\ hex_string 40 h = true) /\
  (matches SHA256_RE s = true <->
   hex_string 64 s = true \/
   exists h, s = h ++ newline /\ hex_string 64 h = true).
Proof.
  split.
  - unfold COMMIT_RE. rewrite matches_hex. apply or_newline_true.
  - unfold SHA256_RE. rewrite matches_hex. apply or_newline_true.
Qed.

(** X3.  [NAME_RE] accepts exactly the strings of 2 to 63 characters that
    start with a character of [a-z0-9] and go on with characters of
    [a-z0-9._-], and these strings followed by one line feed.  A file of
    the registry passes the name check of [main] exactly when its stem is
    such a string. *)
Theorem name_pattern (s : string) (p : path) :
  (matches NAME_RE s = true <->
   package_name_shape s = true \/
   exists n, s = n ++ newline /\ package_name_shape n = true) /\
  (valid_filename p = true <->
   package_name_shape (Path.stem p) = true \/
   exists n, Path.stem p = n ++ newline /\ package_name_shape n = true).
Proof.
  split.
  - rewrite matches_name. apply or_newline_true.
  - unfold valid_filename. rewrite matches_name. apply or_newline_true.
Qed.

(** X4.  [VERSION_RE] accepts exactly the strings made of three non-empty
    runs of digits separated by dots, optionally followed by a hyphen and a
    non-empty run of [a-zA-Z0-9.], and these strings followed by one line
    feed. *)
Theorem version_pattern (s : string) :
  matches VERSION_RE s = true <->
  spec_semver s = true \/ exists v, s = v ++ newline /\ spec_semver v = true.
Proof. rewrite matches_version. apply or_newline_true. Qed.

(** X5.  [GITHUB_REPO_RE] finds the owner [owner] and the repository
    segment [repo] in [url] exactly when both are non-empty and without a
    slash and [url] is [https://github.com/<owner>/<repo>], optionally
    followed by a slash, or by a slash and one line feed. *)
Theorem repository_url_pattern (url owner repo : string) :
  repository_of url = Some (owner, repo) <->
  is_segment owner /\ is_segment repo /\
  exists tail, (tail = "" \/ tail = "/" \/ tail = "/" ++ newline) /\
               url = github_url owner repo tail.
Proof.
  split.
  - apply repository_of_inv.
  - intros (Hown & Hrepo & tail & Htail & ->).
    now apply repository_of_url.
Qed.

(** X6.  A release dict that lacks one of the keys [version],
    [compiler-drop], [releasedAt], [source] fails with
    [MissingReleaseField] for the first key, in that order, that it lacks,
    whatever the values of the keys it has; the set of seen versions is
    left as it was. *)
Theorem missing_release_key
    (d : gmap string json) (pkg : string) (idx : nat) (seen : gset string)
    (pre : list string) (key : string) (post : list string) :
  release_keys = (pre ++ key :: post)%list ->
  Forall (fun k => is_Some (d !! k)) pre ->
  d !! key = None ->
  validate_release (JObj d) pkg idx seen =
    (Exit (MissingReleaseField pkg idx key), seen).
Proof.
  intros Hkeys Hpre Hkey. unfold validate_release, release_required.
  rewrite Hkeys.
  now rewrite (bind_exit _ _ _ _ _
                 (require_keys_missing _ pre key post d seen Hpre Hkey)).
Qed.

(** X7.  [validate_release] returns exactly on the well-formed releases
    whose version is not in the set of seen versions, and then adds that
    version to the set.  Well-formed: a version of the version pattern, a
    date of the date pattern, compiler-drop bounds that are integers or
    booleans with [1 <= min <= tested-on], a commit and a hash of the hash
    patterns. *)
Theorem release_accepted_iff
    (r : json) (pkg : string) (idx : nat) (seen seen' : gset string) :
  validate_release r pkg idx seen = (Ret tt, seen') <->
  exists v, well_formed_release r v /\ (v ∉ seen) /\ seen' = ({[ v ]} ∪ seen).
Proof.
  split.
  - apply validate_release_accepted_well_formed.
  - intros (v & Hwf & Hfresh & ->).
    now apply validate_release_well_formed.
Qed.

(** X8.  The loop over the releases runs to its end exactly when every
    release is well-formed and their versions are pairwise different and
    not in the set before; the set afterwards holds them all. *)
Theorem releases_accepted_iff
    (rs : list json) (pkg : string) (idx : nat) (seen seen' : gset string) :
  validate_releases rs pkg idx seen = (Ret tt, seen') <->
  exists vs, Forall2 well_formed_release rs vs /\ NoDup vs /\
             Forall (fun v => v ∉ seen) vs /\
             seen' = (list_to_set vs ∪ seen).
Proof.
  split.
  - apply validate_releases_accepted_well_formed.
  - intros (vs & Hvs & Hnd & Hfresh & ->).
    now apply validate_releases_well_formed.
Qed.

(** X9.  The loop stops at the first release that fails, and the failure
    names the position of that release in the list: after accepted
    releases [pre], a release that is not a dict fails with
    [ReleaseNotObject] at index [idx + length pre], and a dict that
    [validate_release] refuses at that index fails the loop with the same
    failure, whatever follows. *)
Theorem release_failure_position
    (pkg : string) (pre : list json) (r : json) (post : list json)
    (idx : nat) (seen seen1 : gset string) :
  validate_releases pre pkg idx seen = (Ret tt, seen1) ->
  (Py.is_dict r = false ->
   validate_releases (pre ++ r :: post) pkg idx seen =
     (Exit (ReleaseNotObject pkg (idx + length pre)), seen1)) /\
  (forall f seen2,
      Py.is_dict r = true ->
      validate_release r pkg (idx + length pre) seen1 = (Exit f, seen2) ->
      validate_releases (pre ++ r :: post) pkg idx seen = (Exit f, seen2)).
Proof.
  intros Hpre. split.
  - now apply validate_releases_not_object.
  - intros f seen2. now apply validate_releases_failure.
Qed.

(** X10.  A file whose content is a dict that lacks one of the keys [name],
    [schema-version], [repository], [releases], [createdAt] fails with
    [MissingField] for the first key, in that order, that it lacks, named
    after the stem of the file; this holds in both modes, and nothing else
    of the content is examined. *)
Theorem missing_package_key
    (w : world) (p : path) (offline : bool) (token : option string)
    (d : gmap string json) (pre : list string) (key : string)
    (post : list string) :
  load w p = Loaded (JObj d) ->
  package_keys = (pre ++ key :: post)%list ->
  Forall (fun k => is_Some (d !! k)) pre ->
  d !! key = None ->
  validate_package_file w p offline token =
    Exit (MissingField (Path.stem p) key).
Proof.
  intros Hload Hkeys Hpre Hkey.
  unfold validate_package_file, package_checks. rewrite Hload.
  unfold validate_package_data.
  change (Py.is_dict (JObj d)) with true. simpl negb. unfold when at 1.
  rewrite bind_assoc, bind_ret, bind_assoc, Hkeys.
  now rewrite (bind_exit _ _ _ _ _
                 (require_keys_missing _ pre key post d ∅ Hpre Hkey)).
Qed.

(** X11.  [validate_package_data] returns the pair [(owner, repo)] exactly
    when the descriptor is well-formed for the package name, the pattern
    finds [owner] and a repository segment in its URL, [repo] is that
    segment without one final [.git], and the loop over its releases runs
    to its end. *)
Theorem package_data_accepted_iff
    (data : json) (pkg : string) (seen : gset string)
    (owner repo : string) (seen' : gset string) :
  validate_package_data data pkg seen = (Ret (owner, repo), seen') <->
  exists url seg rs,
    well_formed_package data pkg url rs /\
    repository_of url = Some (owner, seg) /\ repo = strip_git seg /\
    validate_releases rs pkg 0 seen = (Ret tt, seen').
Proof.
  split.
  - intros H. destruct (validate_package_data_inv _ _ _ _ _ H)
      as (url & rs & Hwf).
    rewrite (validate_package_data_run _ _ _ _ _ Hwf) in H.
    destruct (repository_of url) as [[o seg]|] eqn:Hurl; [|discriminate].
    destruct (validate_releases rs pkg 0 seen) as [[[]|f|e] s] eqn:Hrs;
      try discriminate.
    injection H as <- <- <-. exists url, seg, rs. auto.
  - intros (url & seg & rs & Hwf & Hurl & -> & Hrs).
    now rewrite (validate_package_data_run _ _ _ _ _ Hwf), Hurl, Hrs.
Qed.

(** X12.  In offline mode a file is accepted exactly when it decodes to a
    descriptor that is well-formed for the stem of the file, with a
    repository URL of the pattern and releases that are all well-formed
    and have pairwise different versions. *)
Theorem offline_file_accepted_iff
    (w : world) (p : path) (token : option string) :
  validate_package_file w p true token = Ret tt <->
  exists data url owner seg rs vs,
    load w p = Loaded data /\
    well_formed_package data (Path.stem p) url rs /\
    repository_of url = Some (owner, seg) /\
    Forall2 well_formed_release rs vs /\ NoDup vs.
Proof.
  rewrite validate_package_file_offline_run. split.
  - destruct (load w p) as [|data]; [discriminate|].
    destruct (validate_package_data data (Path.stem p) ∅)
      as [[[owner repo]|f|e] s] eqn:E; try discriminate.
    intros _.
    destruct (validate_package_data_inv _ _ _ _ _ E) as (url & rs & Hwf).
    rewrite (validate_package_data_run _ _ _ _ _ Hwf) in E.
    destruct (repository_of url) as [[o seg]|] eqn:Hurl; [|discriminate].
    destruct (validate_releases rs (Path.stem p) 0 ∅)
      as [[[]|f|e] s'] eqn:Hrs; try discriminate.
    apply validate_releases_accepted_well_formed in Hrs
      as (vs & Hvs & Hnd & _).
    exists data, url, o, seg, rs, vs. auto.
  - intros (data & url & owner & seg & rs & vs & -> & Hwf & Hurl & Hvs & Hnd).
    rewrite (validate_package_data_run _ _ _ _ _ Hwf), Hurl.
    rewrite (validate_releases_well_formed _ _ _ _ _ Hvs Hnd); [reflexivity|].
    apply Forall_forall. intros v _. apply not_elem_of_empty.
Qed.

(** X13.  Online mode runs the offline checks first: a file that fails them
    fails in online mode with the same failure, whatever the token and the
    answers of the network are. *)
Theorem offline_failure_reported_online
    (w w' : world) (p : path) (token token' : option string) (f : failure) :
  load w' p = load w p ->
  validate_package_file w p true token = Exit f ->
  validate_package_file w' p false token' = Exit f.
Proof.
  intros Hload. unfold validate_package_file, package_checks. rewrite Hload.
  destruct (load w p) as [|data]; [easy|]. unfold bind.
  now destruct (validate_package_data data (Path.stem p) ∅)
    as [[[owner repo]|f0|e] s].
Qed.

(** X14.  When the offline checks pass with owner [owner] and repository
    name [repo], the lookup is made at [repo_url owner repo].  An
    [HTTPError] fails the file with [LookupFailedStatus], which names the
    status, the owner and the repository name; any other exception of the
    lookup fails it with [LookupFailed]. *)
Theorem lookup_failure_reported
    (w : world) (p : path) (token : option string) (data : json)
    (owner repo : string) (seen' : gset string) :
  load w p = Loaded data ->
  validate_package_data data (Path.stem p) ∅ = (Ret (owner, repo), seen') ->
  (forall code,
      http_json w (repo_url owner repo) token = HTTPError code ->
      validate_package_file w p false token =
        Exit (LookupFailedStatus (Path.stem p) code owner repo)) /\
  (http_json w (repo_url owner repo) token = OtherError ->
   validate_package_file w p false token = Exit (LookupFailed (Path.stem p))).
Proof.
  intros Hload Hdata.
  rewrite (validate_package_file_online _ _ _ _ _ _ _ Hload Hdata).
  unfold online_checks. fold (repo_url owner repo).
  split; [intros code|]; now intros ->.
Qed.

(** X15.  The checks on the answer of the lookup are not guarded: when the
    answer is not a dict, or its [license] is a true value that is not a
    dict (a non-empty string, say), [validate_package_file] ends with an
    uncaught [AttributeError] instead of a failure; in no other case does
    it raise, and it raises no other exception. *)
Theorem online_raises_attribute_error
    (w : world) (p : path) (token : option string) (data : json)
    (owner repo : string) (seen' : gset string) (meta : json) :
  load w p = Loaded data ->
  validate_package_data data (Path.stem p) ∅ = (Ret (owner, repo), seen') ->
  http_json w (repo_url owner repo) token = Response meta ->
  (validate_package_file w p false token = Raise AttributeError <->
   Py.is_dict meta = false \/
   exists license, field meta "license" = Some license /\
                   Py.truthy license = true /\ Py.is_dict license = false) /\
  (forall e, validate_package_file w p false token = Raise e ->
             e = AttributeError).
Proof.
  intros Hload Hdata Hhttp.
  rewrite (validate_package_file_online _ _ _ _ _ _ _ Hload Hdata).
  rewrite (online_checks_response _ _ _ _ _ _ _ Hhttp). simpl. split.
  - apply license_checks_raises.
  - apply license_checks_clean.
Qed.

(** X16.  When the offline checks pass and the lookup answers with [meta],
    the file is accepted in online mode exactly when [meta] holds a
    [license] dict whose [spdx_id] is the string [MIT]. *)
Theorem online_accepted_iff_mit
    (w : world) (p : path) (token : option string) (data : json)
    (owner repo : string) (seen' : gset string) (meta : json) :
  load w p = Loaded data ->
  validate_package_data data (Path.stem p) ∅ = (Ret (owner, repo), seen') ->
  http_json w (repo_url owner repo) token = Response meta ->
  validate_package_file w p false token = Ret tt <->
  exists license, field meta "license" = Some license /\
                  field license "spdx_id" = Some (JStr "MIT").
Proof.
  intros Hload Hdata Hhttp.
  rewrite (validate_package_file_online _ _ _ _ _ _ _ Hload Hdata).
  rewrite (online_checks_response _ _ _ _ _ _ _ Hhttp). simpl.
  apply license_checks_accepted.
Qed.

(** X17.  [main] reports a valid registry exactly when the packages
    directory exists and holds at least one file, every file has a stem of
    the name pattern, the stems are pairwise different and every file is
    accepted by [validate_package_file]; the report is the number of files
    and the mode.  None of this depends on the order in which the file
    system lists the files. *)
Theorem main_accepted_iff_registry
    (w : world) (offline : bool) (r : nat * string) :
  main w offline = Ret r <->
  packages_dir_exists w = true /\
  rglob_json w <> [] /\
  Forall (fun p => valid_filename p = true) (rglob_json w) /\
  NoDup (map Path.stem (rglob_json w)) /\
  Forall (fun p => validate_package_file w p offline (github_token w) = Ret tt)
         (rglob_json w) /\
  r = (length (rglob_json w), if offline then "offline" else "online").
Proof.
  split.
  - intros H. destruct (packages_dir_exists w) eqn:Hdir.
    2:{ unfold main in H. now rewrite Hdir in H. }
    assert (Hne : Path.sorted (rglob_json w) <> []).
    { intros Hs. unfold main in H. now rewrite Hdir, Hs in H. }
    rewrite (main_listing _ _ Hdir Hne) in H.
    destruct (validate_files w offline (github_token w)
                (Path.sorted (rglob_json w)) ∅) as [[[]|f|e] seen'] eqn:Hrun;
      try discriminate.
    apply validate_files_accepted in Hrun as (Hnd & Hv & _ & Hok & _).
    simpl in H. injection H as <-.
    rewrite sorted_permutation in Hnd, Hv, Hok.
    repeat split; trivial.
    + now rewrite sorted_nil in Hne.
    + now rewrite (Permutation_length (sorted_permutation (rglob_json w))).
  - intros (Hdir & Hne & Hv & Hnd & Hok & ->).
    rewrite <- sorted_nil in Hne.
    rewrite (main_listing _ _ Hdir Hne).
    rewrite (validate_files_all w offline (github_token w)).
    + simpl. now rewrite (Permutation_length (sorted_permutation (rglob_json w))).
    + now rewrite sorted_permutation.
    + now rewrite sorted_permutation.
    + apply Forall_forall. intros p _. apply not_elem_of_empty.
    + now rewrite sorted_permutation.
Qed.

(** X18.  A descriptor with the five required keys whose [name] is not the
    string that is the stem of the file fails with [NameMismatch], which
    carries the value found: a name that is not a string is refused in the
    same way, before any other field is examined. *)
Theorem name_mismatch_reported
    (data : json) (pkg : string) (seen : gset string) (name : json) :
  has_keys package_keys data ->
  field data "name" = Some name ->
  name <> JStr pkg ->
  validate_package_data data pkg seen = (Exit (NameMismatch pkg name), seen).
Proof.
  intros Hk Hname Hne. unfold validate_package_data.
  rewrite (is_dict_field _ _ _ Hname). simpl negb. unfold when at 1.
  rewrite bind_ret.
  rewrite (bind_eq _ _ _ _ _ (require_keys_present _ _ _ seen Hk)).
  unfold bind at 1. rewrite (getitem_field _ _ _ Hname). unfold lift at 1.
  replace (Py.eq_str name pkg) with false; [reflexivity|].
  destruct (Py.eq_str name pkg) eqn:E; [|reflexivity].
  now apply eq_str_true in E.
Qed.

(** X19.  The repository name of the lookup is the repository segment of
    the URL without one final [.git]: a well-formed descriptor whose URL is
    [https://github.com/<owner>/<name>.git], optionally followed by a slash
    or by a slash and a line feed, passes with the pair [(owner, name)]
    when its releases pass.  The name may be empty: the segment [.git]
    gives the empty repository name. *)
Theorem git_suffix_dropped
    (data : json) (pkg : string) (seen seen' : gset string)
    (owner name tail : string) (rs : list json) :
  well_formed_package data pkg (github_url owner (name ++ ".git") tail) rs ->
  is_segment owner ->
  forallb not_slash (list_ascii_of_string name) = true ->
  tail = "" \/ tail = "/" \/ tail = "/" ++ newline ->
  validate_releases rs pkg 0 seen = (Ret tt, seen') ->
  validate_package_data data pkg seen = (Ret (owner, name), seen').
Proof.
  intros Hwf Hown Hname Htail Hrs.
  rewrite (validate_package_data_run _ _ _ _ _ Hwf).
  rewrite repository_of_url, Hrs, strip_git_suffix; trivial.
  unfold is_segment, segment. rewrite list_ascii_app, forallb_app, Hname.
  split; [|reflexivity]. now destruct (list_ascii_of_string name).
Qed.

(** X20.  After well-formed fields [name], [schema-version] and
    [createdAt], a repository URL in which the pattern finds nothing fails
    with [InvalidRepository]; a URL of the pattern followed by releases
    that are not a list, or the empty list, fails with
    [InvalidReleases]. *)
Theorem repository_and_releases_checked
    (data : json) (pkg url : string) (releases : json) (seen : gset string) :
  well_formed_header data pkg url ->
  field data "releases" = Some releases ->
  (repository_of url = None ->
   validate_package_data data pkg seen = (Exit (InvalidRepository pkg), seen)) /\
  (repository_of url <> None ->
   Py.is_list releases = false \/ releases = JArr [] ->
   validate_package_data data pkg seen = (Exit (InvalidReleases pkg), seen)).
Proof.
  intros Hwf Hrel.
  rewrite (validate_package_data_header _ _ _ _ _ Hwf Hrel). split.
  - now intros ->.
  - intros Hurl Hbad.
    destruct (repository_of url) as [[owner seg]|]; [|congruence].
    destruct Hbad as [Hbad| ->]; [|reflexivity].
    now destruct releases as [| | | | |[|r rs]|].
Qed.

(** X21.  A descriptor with the five required keys and the right name
    whose [schema-version] is not an integer or a boolean, or is one below
    1, fails with [InvalidSchemaVersion]: the float [1.0] and [false] are
    refused, [true] counts as 1. *)
Theorem schema_version_checked
    (data : json) (pkg : string) (seen : gset string) (sv : json) :
  has_keys package_keys data ->
  field data "name" = Some (JStr pkg) ->
  field data "schema-version" = Some sv ->
  match int_value sv with
  | Some z => (z < 1)%Z
  | None => True
  end ->
  validate_package_data data pkg seen =
    (Exit (InvalidSchemaVersion pkg), seen).
Proof.
  intros Hk Hname Hsv Hbad. unfold validate_package_data.
  rewrite (is_dict_field _ _ _ Hname). simpl negb. unfold when at 1.
  rewrite bind_ret.
  rewrite (bind_eq _ _ _ _ _ (require_keys_present _ _ _ seen Hk)).
  unfold bind at 1. rewrite (getitem_field _ _ _ Hname). unfold lift at 1.
  simpl Py.eq_str. rewrite String.eqb_refl. simpl negb. unfold when at 1.
  rewrite bind_ret. unfold bind at 1. rewrite (get_field _ _ _ Hsv).
  unfold lift at 1. unfold_m.
  destruct sv as [|b|z|f|t|l|m]; simpl in *; try reflexivity.
  - destruct b; simpl in Hbad; [lia|reflexivity].
  - apply Z.ltb_lt in Hbad. now rewrite Hbad.
Qed.

(** ** Instances of the statements *)

Ltac minimal_release_well_formed :=
  split; [reflexivity|];
  split; [vm_compute; reflexivity|];
  split; [exists "2024-01-01"; split; [reflexivity|vm_compute; reflexivity]|];
  split;
    [ exists (JObj {[ "min" := JInt 1; "tested-on" := JInt 1 ]}),
        (JInt 1), (JInt 1), 1%Z, 1%Z;
      repeat split; try reflexivity; lia
    | exists (JObj {[ "commit" := JStr (repeat_char 40 "a");
                      "sha256" := JStr (repeat_char 64 "b") ]}),
        (repeat_char 40 "a"), (repeat_char 64 "b");
      repeat split; try reflexivity; vm_compute; reflexivity ].

Ltac minimal_header_well_formed :=
  split; [reflexivity|];
  split; [exists (JInt 1), 1%Z; repeat split; try reflexivity; lia|];
  split; [exists "2024-01-01"; split; [reflexivity|vm_compute; reflexivity]|];
  reflexivity.

Ltac minimal_descriptor_well_formed :=
  split; [minimal_header_well_formed|split; [reflexivity|discriminate]].

(** The minimal release with other values as compiler-drop bounds. *)
Definition release_with_bounds (min_drop tested_on : json) : json :=
  JObj {[ "version" := JStr "1.0.0";
          "releasedAt" := JStr "2024-01-01";
          "compiler-drop" :=
            JObj {[ "min" := min_drop; "tested-on" := tested_on ]};
          "source" := JObj {[ "commit" := JStr (repeat_char 40 "a");
                              "sha256" := JStr (repeat_char 64 "b") ]} ]}.

(** The minimal descriptor with other values as schema version and
    releases. *)
Definition descriptor_with (schema_version releases : json) : json :=
  JObj {[ "name" := JStr "abcd";
          "schema-version" := schema_version;
          "repository" := JStr "https://github.com/o/r";
          "createdAt" := JStr "2024-01-01";
          "releases" := releases ]}.

(** A registry of minimal descriptors whose lookups give [answer]. *)
Definition registry_with (answer : http_result) : world :=
  World true [["abcd.json"]] (fun _ => Loaded minimal_descriptor) None
        (fun _ _ => answer).

(** A registry whose files all decode to [data]. *)
Definition registry_of (data : json) : world :=
  World true [["abcd.json"]] (fun _ => Loaded data) None
        (fun _ _ => OtherError).

Lemma date_pattern_witness :
  matches DATE_RE ("2024-13-99" ++ newline) = true.
Proof.
  apply (proj2 (date_pattern ("2024-13-99" ++ newline))).
  right. exists "2024-13-99". split; reflexivity.
Defined.

Lemma hash_patterns_witness :
  matches COMMIT_RE (repeat_char 40 "a") = true /\
  matches SHA256_RE (repeat_char 64 "b" ++ newline) = true.
Proof.
  split.
  - apply (proj2 (proj1 (hash_patterns (repeat_char 40 "a")))).
    left. vm_compute. reflexivity.
  - apply (proj2 (proj2 (hash_patterns (repeat_char 64 "b" ++ newline)))).
    right. exists (repeat_char 64 "b"). split; [reflexivity|].
    vm_compute. reflexivity.
Defined.

Lemma name_pattern_witness :
  matches NAME_RE "ab" = true /\ valid_filename ["x"; "my-pkg_2.json"] = true.
Proof.
  split.
  - apply (proj2 (proj1 (name_pattern "ab" []))). left. reflexivity.
  - apply (proj2 (proj2 (name_pattern "" ["x"; "my-pkg_2.json"]))).
    left. reflexivity.
Defined.

Lemma version_pattern_witness : matches VERSION_RE "01.2.3-rc.1" = true.
Proof.
  apply (proj2 (version_pattern "01.2.3-rc.1")). left. reflexivity.
Defined.

Lemma repository_url_pattern_witness :
  repository_of "https://github.com/o/r.git/" = Some ("o", "r.git").
Proof.
  apply (proj2 (repository_url_pattern _ "o" "r.git")).
  split; [split; [discriminate|reflexivity]|].
  split; [split; [discriminate|reflexivity]|].
  exists "/". split; [right; left; reflexivity|reflexivity].
Defined.

Lemma missing_release_key_witness :
  validate_release
    (JObj {[ "version" := JInt 3; "source" := JNull ]}) "abcd" 2 ∅ =
    (Exit (MissingReleaseField "abcd" 2 "compiler-drop"), ∅).
Proof.
  apply (missing_release_key _ "abcd" 2 ∅
           ["version"] "compiler-drop" ["releasedAt"; "source"]).
  - reflexivity.
  - constructor; [eexists; reflexivity|constructor].
  - reflexivity.
Defined.

Lemma release_accepted_iff_witness :
  validate_release (release_with_bounds (JBool true) (JInt 2)) "abcd" 0 ∅ =
    (Ret tt, {[ "1.0.0" ]} ∪ ∅).
Proof.
  apply (proj2 (release_accepted_iff _ "abcd" 0 ∅ _)).
  exists "1.0.0". split; [|split; [apply not_elem_of_empty|reflexivity]].
  split; [reflexivity|].
  split; [vm_compute; reflexivity|].
  split; [exists "2024-01-01"; split; [reflexivity|vm_compute; reflexivity]|].
  split.
  - exists (JObj {[ "min" := JBool true; "tested-on" := JInt 2 ]}),
      (JBool true), (JInt 2), 1%Z, 2%Z.
    repeat split; try reflexivity; lia.
  - exists (JObj {[ "commit" := JStr (repeat_char 40 "a");
                    "sha256" := JStr (repeat_char 64 "b") ]}),
      (repeat_char 40 "a"), (repeat_char 64 "b").
    repeat split; try reflexivity; vm_compute; reflexivity.
Defined.

Lemma releases_accepted_iff_witness :
  validate_releases [minimal_release] "abcd" 0 ∅ =
    (Ret tt, list_to_set ["1.0.0"] ∪ ∅).
Proof.
  apply (proj2 (releases_accepted_iff [minimal_release] "abcd" 0 ∅ _)).
  exists ["1.0.0"]. split; [|split; [|split]].
  - constructor; [minimal_release_well_formed|constructor].
  - apply NoDup_singleton.
  - constructor; [apply not_elem_of_empty|constructor].
  - reflexivity.
Defined.

Lemma release_failure_position_witness :
  validate_releases [minimal_release; JNull] "abcd" 0 ∅ =
    (Exit (ReleaseNotObject "abcd" 1), {[ "1.0.0" ]} ∪ ∅) /\
  validate_releases [minimal_release; JObj ∅; JNull] "abcd" 0 ∅ =
    (Exit (MissingReleaseField "abcd" 1 "version"), {[ "1.0.0" ]} ∪ ∅).
Proof.
  split.
  - refine (proj1 (release_failure_position "abcd" [minimal_release] JNull []
                     0 ∅ ({[ "1.0.0" ]} ∪ ∅) _) _);
      [vm_compute; reflexivity|reflexivity].
  - refine (proj2 (release_failure_position "abcd" [minimal_release] (JObj ∅)
                     [JNull] 0 ∅ ({[ "1.0.0" ]} ∪ ∅) _) _ _ _ _);
      [vm_compute; reflexivity|reflexivity|reflexivity].
Defined.

Lemma missing_package_key_witness :
  validate_package_file (registry_of (JObj {[ "name" := JStr "abcd" ]}))
    ["abcd.json"] false None =
    Exit (MissingField "abcd" "schema-version").
Proof.
  apply (missing_package_key _ ["abcd.json"] false None
           {[ "name" := JStr "abcd" ]} ["name"] "schema-version"
           ["repository"; "releases"; "createdAt"]).
  - reflexivity.
  - reflexivity.
  - constructor; [eexists; reflexivity|constructor].
  - reflexivity.
Defined.

Lemma package_data_accepted_iff_witness :
  validate_package_data minimal_descriptor "abcd" ∅ =
    (Ret ("o", "r"), {[ "1.0.0" ]} ∪ ∅).
Proof.
  apply (proj2 (package_data_accepted_iff minimal_descriptor "abcd" ∅
                  "o" "r" _)).
  exists "https://github.com/o/r", "r", [minimal_release].
  split; [minimal_descriptor_well_formed|].
  split; [vm_compute; reflexivity|].
  split; [reflexivity|vm_compute; reflexivity].
Defined.

Lemma offline_file_accepted_iff_witness :
  validate_package_file (registry_with OtherError) ["abcd.json"] true None =
    Ret tt.
Proof.
  apply (proj2 (offline_file_accepted_iff _ ["abcd.json"] None)).
  exists minimal_descriptor, "https://github.com/o/r", "o", "r",
    [minimal_release], ["1.0.0"].
  split; [reflexivity|].
  split; [minimal_descriptor_well_formed|].
  split; [vm_compute; reflexivity|].
  split; [|apply NoDup_singleton].
  constructor; [minimal_release_well_formed|constructor].
Defined.

Lemma offline_failure_reported_online_witness :
  validate_package_file (registry_of (JArr [])) ["abcd.json"] false
    (Some "token") = Exit (RootNotObject "abcd").
Proof.
  apply (offline_failure_reported_online (registry_of (JArr [])) _
           ["abcd.json"] None (Some "token")).
  - reflexivity.
  - reflexivity.
Defined.

Lemma lookup_failure_reported_witness :
  validate_package_file (registry_with (HTTPError 404)) ["abcd.json"] false
    None = Exit (LookupFailedStatus "abcd" 404 "o" "r").
Proof.
  refine (proj1 (lookup_failure_reported (registry_with (HTTPError 404))
                   ["abcd.json"] None minimal_descriptor "o" "r"
                   ({[ "1.0.0" ]} ∪ ∅) _ _) 404%Z _);
    [reflexivity|vm_compute; reflexivity|reflexivity].
Defined.

Lemma online_raises_attribute_error_witness :
  validate_package_file
    (registry_with (Response (JObj {[ "license" := JStr "MIT" ]})))
    ["abcd.json"] false None = Raise AttributeError.
Proof.
  refine (proj2 (proj1 (online_raises_attribute_error
                   (registry_with
                      (Response (JObj {[ "license" := JStr "MIT" ]})))
                   ["abcd.json"] None minimal_descriptor "o" "r"
                   ({[ "1.0.0" ]} ∪ ∅)
                   (JObj {[ "license" := JStr "MIT" ]}) _ _ _)) _);
    [reflexivity|vm_compute; reflexivity|reflexivity|].
  right. exists (JStr "MIT"). repeat split.
Defined.

Lemma online_accepted_iff_mit_witness :
  validate_package_file
    (registry_with
       (Response (JObj {[ "license" := JObj {[ "spdx_id" := JStr "MIT" ]} ]})))
    ["abcd.json"] false None = Ret tt.
Proof.
  refine (proj2 (online_accepted_iff_mit
                   (registry_with
                      (Response
                         (JObj {[ "license" :=
                                    JObj {[ "spdx_id" := JStr "MIT" ]} ]})))
                   ["abcd.json"] None minimal_descriptor "o" "r"
                   ({[ "1.0.0" ]} ∪ ∅)
                   (JObj {[ "license" := JObj {[ "spdx_id" := JStr "MIT" ]} ]})
                   _ _ _) _);
    [reflexivity|vm_compute; reflexivity|reflexivity|].
  exists (JObj {[ "spdx_id" := JStr "MIT" ]}). split; reflexivity.
Defined.

Lemma main_accepted_iff_registry_witness :
  main (registry_with OtherError) true = Ret (1, "offline").
Proof.
  apply (proj2 (main_accepted_iff_registry (registry_with OtherError) true _)).
  split; [reflexivity|].
  split; [discriminate|].
  split; [constructor; [reflexivity|constructor]|].
  split; [apply NoDup_singleton|].
  split; [|reflexivity].
  constructor; [vm_compute; reflexivity|constructor].
Defined.

Lemma name_mismatch_reported_witness :
  validate_package_data
    (JObj {[ "name" := JInt 7; "schema-version" := JInt 1;
             "repository" := JNull; "releases" := JNull;
             "createdAt" := JNull ]}) "abcd" ∅ =
    (Exit (NameMismatch "abcd" (JInt 7)), ∅).
Proof.
  apply name_mismatch_reported.
  - unfold has_keys, package_keys.
    repeat (constructor; [eexists; reflexivity|]). constructor.
  - reflexivity.
  - discriminate.
Defined.

Lemma git_suffix_dropped_witness :
  validate_package_data (with_repository "https://github.com/o/.git") "abcd" ∅ =
    (Ret ("o", ""), {[ "1.0.0" ]} ∪ ∅).
Proof.
  refine (git_suffix_dropped (with_repository "https://github.com/o/.git")
            "abcd" ∅ ({[ "1.0.0" ]} ∪ ∅) "o" "" "" [minimal_release]
            _ _ _ _ _).
  - minimal_descriptor_well_formed.
  - split; [discriminate|reflexivity].
  - reflexivity.
  - left. reflexivity.
  - vm_compute. reflexivity.
Defined.

Lemma repository_and_releases_checked_witness :
  validate_package_data (with_repository "http://github.com/o/r") "abcd" ∅ =
    (Exit (InvalidRepository "abcd"), ∅) /\
  validate_package_data (descriptor_with (JInt 1) (JArr [])) "abcd" ∅ =
    (Exit (InvalidReleases "abcd"), ∅).
Proof.
  split.
  - refine (proj1 (repository_and_releases_checked
                     (with_repository "http://github.com/o/r") "abcd"
                     "http://github.com/o/r" (JArr [minimal_release]) ∅ _ _) _).
    + minimal_header_well_formed.
    + reflexivity.
    + vm_compute. reflexivity.
  - refine (proj2 (repository_and_releases_checked
                     (descriptor_with (JInt 1) (JArr [])) "abcd"
                     "https://github.com/o/r" (JArr []) ∅ _ _) _ _).
    + minimal_header_well_formed.
    + reflexivity.
    + vm_compute. discriminate.
    + right. reflexivity.
Defined.

Lemma schema_version_checked_witness :
  validate_package_data
    (descriptor_with (JFloat (S754_finite false 1 0)) (JArr [minimal_release]))
    "abcd" ∅ = (Exit (InvalidSchemaVersion "abcd"), ∅) /\
  validate_package_data
    (descriptor_with (JBool false) (JArr [minimal_release])) "abcd" ∅ =
    (Exit (InvalidSchemaVersion "abcd"), ∅).
Proof.
  split.
  - refine (schema_version_checked _ "abcd" ∅ (JFloat (S754_finite false 1 0))
              _ _ _ _).
    + unfold has_keys, package_keys.
      repeat (constructor; [eexists; reflexivity|]). constructor.
    + reflexivity.
    + reflexivity.
    + exact I.
  - refine (schema_version_checked _ "abcd" ∅ (JBool false) _ _ _ _).
    + unfold has_keys, package_keys.
      repeat (constructor; [eexists; reflexivity|]). constructor.
    + reflexivity.
    + reflexivity.
    + simpl. lia.
Defined.

(** ** Instances of the statements on file names and on wrong types *)

(** A release whose version is valid and whose other fields are [null]. *)
Definition release_of_nulls : json :=
  JObj {[ "version" := JStr "1.0.0"; "releasedAt" := JNull;
          "compiler-drop" := JNull; "source" := JNull ]}.

(** The minimal release with another value as the hash of the source. *)
Definition release_with_sha256 (sha256 : json) : json :=
  JObj {[ "version" := JStr "1.0.0";
          "releasedAt" := JStr "2024-01-01";
          "compiler-drop" := JObj {[ "min" := JInt 1; "tested-on" := JInt 1 ]};
          "source" := JObj {[ "commit" := JStr (repeat_char 40 "a");
                              "sha256" := sha256 ]} ]}.

Lemma invalid_filename_trailing_newline_witness :
  package_name_shape (Path.stem ["Abcd.json"]) = false /\
  package_name_shape (Path.stem ["a.json"]) = false /\
  validate_files (registry [["Abcd.json"]] "MIT") true None [["Abcd.json"]] ∅ =
    (Exit (InvalidFilename ["Abcd.json"]), ∅) /\
  main (registry [["a.json"]; ["abcd.json"]] "MIT") true =
    Exit (InvalidFilename ["a.json"]) /\
  main (with_content (registry [["Abcd.json"]] "MIT") ["Abcd.json"]
          JSONDecodeError) true =
    main (registry [["Abcd.json"]] "MIT") true.
Proof.
  assert (Hnl : forall s, chomp s = None ->
                forall n, s = n ++ newline -> package_name_shape n = false).
  { intros s Hs n Hn. apply (proj2 (chomp_newline s n)) in Hn. congruence. }
  split; [vm_compute; reflexivity|]. split; [vm_compute; reflexivity|].
  split; [|split].
  - refine (proj1 (proj1 invalid_filename_trailing_newline
                     (registry [["Abcd.json"]] "MIT") true ["Abcd.json"]
                     JSONDecodeError _ _) None [] ∅);
      [vm_compute; reflexivity | apply Hnl; vm_compute; reflexivity].
  - refine (proj1 (proj2 (proj1 invalid_filename_trailing_newline
                     (registry [["a.json"]; ["abcd.json"]] "MIT") true
                     ["a.json"] JSONDecodeError _ _))
              [] [["abcd.json"]] ∅ _ _ _);
      [ vm_compute; reflexivity | apply Hnl; vm_compute; reflexivity
      | reflexivity | vm_compute; reflexivity | reflexivity ].
  - refine (proj2 (proj2 (proj1 invalid_filename_trailing_newline
                     (registry [["Abcd.json"]] "MIT") true ["Abcd.json"]
                     JSONDecodeError _ _)));
      [vm_compute; reflexivity | apply Hnl; vm_compute; reflexivity].
Defined.

Lemma validation_never_raises_witness :
  raises (validate_package_file (registry_of (JArr [])) ["abcd.json"] true
            None) = false /\
  (exists f,
      fst (validate_package_data
             (descriptor_with (JInt 1) (JArr [release_of_nulls])) "abcd" ∅) =
        Exit f) /\
  validate_release release_of_nulls "abcd" 0 ∅ =
    (Exit (InvalidReleasedAt "abcd" 0), {[ "1.0.0" ]} ∪ ∅) /\
  validate_release (release_with_bounds (JStr "1") (JInt 1)) "abcd" 0 ∅ =
    (Exit (InvalidMin "abcd" 0), {[ "1.0.0" ]} ∪ ∅) /\
  validate_release (release_with_sha256 (JInt 5)) "abcd" 0 ∅ =
    (Exit (InvalidSha256 "abcd" 0), {[ "1.0.0" ]} ∪ ∅) /\
  validate_package_data (descriptor_with (JStr "1") (JArr [minimal_release]))
    "abcd" ∅ = (Exit (InvalidSchemaVersion "abcd"), ∅) /\
  validate_package_data
    (descriptor_with (JInt 1) (JArr [minimal_release; JStr "1.0.1"]))
    "abcd" ∅ = (Exit (ReleaseNotObject "abcd" 1), {[ "1.0.0" ]} ∪ ∅).
Proof.
  destruct validation_never_raises as
    (_ & _ & Hfile & Htyped & _ & _ & Hdate & Hdrop & Hsource & _ & _ &
     Hschema & _ & _ & _ & Hrelease).
  split; [|split; [|split; [|split; [|split; [|split]]]]].
  - refine (Hfile (registry_of (JArr [])) ["abcd.json"] None (JArr []) _).
    reflexivity.
  - refine (Htyped _ "abcd" ∅ _). vm_compute. reflexivity.
  - refine (Hdate release_of_nulls "abcd" 0 ∅ _ JNull _ _ _);
      [vm_compute; reflexivity | reflexivity | reflexivity].
  - refine (proj1 (proj2 (Hdrop (release_with_bounds (JStr "1") (JInt 1))
                            "abcd" 0 ∅ _ _))
              (JObj {[ "min" := JStr "1"; "tested-on" := JInt 1 ]})
              (JStr "1") _ _ _);
      [vm_compute; reflexivity | reflexivity | reflexivity | reflexivity].
  - refine (proj2 (proj2 (Hsource (release_with_sha256 (JInt 5))
                            "abcd" 0 ∅ _ _))
              (JObj {[ "commit" := JStr (repeat_char 40 "a");
                       "sha256" := JInt 5 ]})
              (repeat_char 40 "a") (JInt 5) _ _ _ _ _);
      [ vm_compute; reflexivity | reflexivity | reflexivity
      | vm_compute; reflexivity | reflexivity | reflexivity ].
  - refine (Hschema _ "abcd" ∅ (JStr "1") _ _ _ _);
      [ unfold has_keys, package_keys;
        repeat (constructor; [eexists; reflexivity|]); constructor
      | reflexivity | reflexivity | reflexivity ].
  - refine (proj1 (Hrelease
                     (descriptor_with (JInt 1)
                        (JArr [minimal_release; JStr "1.0.1"]))
                     "abcd" "https://github.com/o/r"
                     [minimal_release; JStr "1.0.1"] ∅
                     [minimal_release] (JStr "1.0.1") [] ({[ "1.0.0" ]} ∪ ∅)
                     _ _ _ _) _);
      [ split; [minimal_header_well_formed|split; [reflexivity|discriminate]]
      | vm_compute; discriminate | reflexivity | vm_compute; reflexivity
      | reflexivity ].
Defined.
